(** * RTP tone generator for PipeWire: a shallow embedding

    The repository holds two variants of one sender,
    [sw/pipewire_rtp_experiments/rtp_send.py] and
    [sw/pipewire_rtp_experiments/rtp_send_sap.py].  Both define a class
    [RTPAudioGenerator] with the methods [create_rtp_header],
    [generate_audio_buffer], [send_rtp_packet] and [start_streaming]; the
    second adds [debug_rtp_header] and [send_sap_announcement].  A function
    [main] builds the object from the command line and starts the stream.

    Python integers are modelled as [Z], Python floats and numpy's
    [float64] as Rocq's primitive binary64 floats, [bytes] as
    [list byte].  Exceptions that leave a method are the [Raise] case of
    [res]; what the environment decides (whether a [sendto] succeeds,
    whether the run's duration has elapsed) is an explicit argument, and
    what the program does to the outside (datagrams, socket calls,
    printed messages) is a list of [event]s. *)

From Stdlib Require Import ZArith List Bool String Ascii Strings.Byte.
From Stdlib Require Import Floats Reals Lra Lia.
Import ListNotations.

Local Open Scope Z_scope.

(** ** Exceptions *)

Inductive exn : Type :=
| StructError          (* struct.error: argument out of range *)
| ZeroDivisionError    (* int / 0 *)
| ValueError.          (* np.zeros with a negative dimension *)

Inductive res (A : Type) : Type :=
| Ret (a : A)
| Raise (e : exn).

Arguments Ret {A} a.
Arguments Raise {A} e.

Definition bind {A B : Type} (m : res A) (k : A -> res B) : res B :=
  match m with
  | Ret a => k a
  | Raise e => Raise e
  end.

Notation "x <- m ;; k" := (bind m (fun x => k))
  (at level 61, m at next level, right associativity).

(** ** Bytes and [struct.pack] *)

Definition byte_of_Z (z : Z) : byte :=
  match Byte.of_N (Z.to_N (z mod 256)) with
  | Some b => b
  | None => x00
  end.

Definition Z_of_byte (b : byte) : Z := Z.of_N (Byte.to_N b).

(** The [n] low-order bytes of [v], most significant first. *)
Fixpoint be_bytes (n : nat) (v : Z) : list byte :=
  match n with
  | O => []
  | S k => byte_of_Z (Z.shiftr v (8 * Z.of_nat k)) :: be_bytes k v
  end.

(** Value of a big-endian byte string. *)
Definition be_value (bs : list byte) : Z :=
  fold_left (fun acc b => acc * 256 + Z_of_byte b) bs 0.

(** One unsigned field of [struct.pack] in network order: formats [B],
    [H] and [I] are [n] = 1, 2 and 4.  A value outside the field's range
    raises [struct.error]. *)
Definition pack_uint (n : nat) (v : Z) : res (list byte) :=
  if (0 <=? v) && (v <? 2 ^ (8 * Z.of_nat n))
  then Ret (be_bytes n v)
  else Raise StructError.

(** [struct.pack('!BBHII', b0, b1, h, i1, i2)] *)
Definition struct_pack_BBHII (b0 b1 h i1 i2 : Z) : res (list byte) :=
  f0 <- pack_uint 1 b0 ;;
  f1 <- pack_uint 1 b1 ;;
  f2 <- pack_uint 2 h ;;
  f3 <- pack_uint 4 i1 ;;
  f4 <- pack_uint 4 i2 ;;
  Ret (f0 ++ f1 ++ f2 ++ f3 ++ f4).

(** [struct.unpack('!BBHII', header)] on the first twelve bytes. *)
Definition struct_unpack_BBHII (header : list byte) : Z * Z * Z * Z * Z :=
  (be_value (firstn 1 header),
   be_value (firstn 1 (skipn 1 header)),
   be_value (firstn 2 (skipn 2 header)),
   be_value (firstn 4 (skipn 4 header)),
   be_value (firstn 4 (skipn 8 header))).

(** ** The generator object *)

(** Which of the two source files a definition follows, where they differ. *)
Inductive variant : Type :=
| RtpSend       (* rtp_send.py *)
| RtpSendSap.   (* rtp_send_sap.py *)

(** The attributes [__init__] sets and a method later reads or assigns.
    [socket_open] stands for [self.socket]: the datagram socket created
    in [__init__], open until [start_streaming] closes it. *)
Record RTPAudioGenerator : Type := mkGen {
  target_ip : string;
  target_port : Z;
  sample_rate : Z;
  channels : Z;
  buffer_size : Z;
  sequence_number : Z;
  timestamp : Z;
  frequency : float;
  amplitude : float;
  phase : float;
  socket_open : bool;
  running : bool
}.

(** Attributes assigned once in [__init__] and never again. *)
Definition bytes_per_sample : Z := 2.
Definition version : Z := 2.
Definition padding : Z := 0.
Definition extension : Z := 0.
Definition cc : Z := 0.
Definition marker : Z := 0.
Definition ssrc : Z := 0x12345678.

Definition payload_type (v : variant) : Z :=
  match v with
  | RtpSend => 96
  | RtpSendSap => 10
  end.

(** [RTPAudioGenerator.__init__] *)
Definition init (ip : string) (port rate chans bufsz : Z) : RTPAudioGenerator :=
  {| target_ip := ip;
     target_port := port;
     sample_rate := rate;
     channels := chans;
     buffer_size := bufsz;
     sequence_number := 0;
     timestamp := 0;
     frequency := 440%float;
     amplitude := 0x1.3333333333333p-2%float;   (* 0.3 *)
     phase := 0%float;
     socket_open := true;
     running := false |}.

(** The default arguments of [__init__]. *)
Definition default_generator : RTPAudioGenerator :=
  init "127.0.0.1" 5004 48000 2 64.

Definition set_sequence_number (n : Z) (g : RTPAudioGenerator) :=
  mkGen (target_ip g) (target_port g) (sample_rate g) (channels g) (buffer_size g)
        n (timestamp g) (frequency g) (amplitude g) (phase g)
        (socket_open g) (running g).

Definition set_timestamp (n : Z) (g : RTPAudioGenerator) :=
  mkGen (target_ip g) (target_port g) (sample_rate g) (channels g) (buffer_size g)
        (sequence_number g) n (frequency g) (amplitude g) (phase g)
        (socket_open g) (running g).

Definition set_phase (p : float) (g : RTPAudioGenerator) :=
  mkGen (target_ip g) (target_port g) (sample_rate g) (channels g) (buffer_size g)
        (sequence_number g) (timestamp g) (frequency g) (amplitude g) p
        (socket_open g) (running g).

Definition set_socket_open (b : bool) (g : RTPAudioGenerator) :=
  mkGen (target_ip g) (target_port g) (sample_rate g) (channels g) (buffer_size g)
        (sequence_number g) (timestamp g) (frequency g) (amplitude g) (phase g)
        b (running g).

Definition set_running (b : bool) (g : RTPAudioGenerator) :=
  mkGen (target_ip g) (target_port g) (sample_rate g) (channels g) (buffer_size g)
        (sequence_number g) (timestamp g) (frequency g) (amplitude g) (phase g)
        (socket_open g) b.

(** ** [create_rtp_header] *)

Definition first_byte : Z :=
  Z.lor (Z.lor (Z.lor (Z.shiftl version 6) (Z.shiftl padding 5))
               (Z.shiftl extension 4)) cc.

Definition second_byte (v : variant) : Z :=
  Z.lor (Z.shiftl marker 7) (payload_type v).

Definition create_rtp_header (v : variant) (g : RTPAudioGenerator)
  : res (list byte) :=
  struct_pack_BBHII first_byte (second_byte v)
                    (Z.land (sequence_number g) 0xFFFF)
                    (Z.land (timestamp g) 0xFFFFFFFF)
                    ssrc.

(** [set_frequency]; the printed line is left out. *)
Definition set_frequency (freq : float) (g : RTPAudioGenerator) :=
  mkGen (target_ip g) (target_port g) (sample_rate g) (channels g) (buffer_size g)
        (sequence_number g) (timestamp g) freq (amplitude g) (phase g)
        (socket_open g) (running g).

(** Python's [min(a, b)] and [max(a, b)] on floats: the first argument
    unless the second is strictly smaller (larger). *)
Definition py_min (a b : float) : float := if (b <? a)%float then b else a.
Definition py_max (a b : float) : float := if (a <? b)%float then b else a.

(** [set_amplitude]: [self.amplitude = max(0.0, min(1.0, amp))] *)
Definition set_amplitude (amp : float) (g : RTPAudioGenerator) :=
  mkGen (target_ip g) (target_port g) (sample_rate g) (channels g) (buffer_size g)
        (sequence_number g) (timestamp g) (frequency g)
        (py_max 0 (py_min 1 amp)) (phase g)
        (socket_open g) (running g).

(** ** Numbers of numpy and of Python *)

(** [np.pi], the binary64 value nearest to pi. *)
Definition np_pi : float := 0x1.921fb54442d18p+1%float.

(** 0.7 as Python reads the literal. *)
Definition f0_7 : float := 0x1.6666666666666p-1%float.

(** An integer as a float, rounded to nearest even when it has more than
    53 significant bits (Python's [float(n)], numpy's conversion of an
    [int64]). *)
Definition float_of_Z (z : Z) : float :=
  SF2Prim (binary_normalize prec emax z 0 false).

(** [np.arange(n)]: 0, 1, ..., n-1; empty when [n <= 0]. *)
Definition np_arange (n : Z) : list Z :=
  map Z.of_nat (seq 0 (Z.to_nat n)).

(** Python's [a / b] on integers.  The quotient of the two conversions is
    the correctly rounded quotient CPython computes whenever both
    integers are below 2^53 in magnitude, as every sample rate and block
    size is. *)
Definition py_truediv (a b : Z) : res float :=
  if b =? 0 then Raise ZeroDivisionError
  else Ret (float_of_Z a / float_of_Z b)%float.

(** Truncation toward zero of a float, [None] for an infinity or a NaN. *)
Definition trunc_SF (x : spec_float) : option Z :=
  match x with
  | S754_zero _ => Some 0
  | S754_finite s m e => Some (cond_Zopp s (Z.shiftl (Zpos m) e))
  | S754_infinity _ => None
  | S754_nan => None
  end.

Definition trunc_float (x : float) : option Z := trunc_SF (Prim2SF x).

Definition int16_min : Z := -32768.
Definition int16_max : Z := 32767.

Definition in_int16 (z : Z) : bool := (int16_min <=? z) && (z <=? int16_max).

(** Two's-complement reduction to sixteen bits. *)
Definition wrap_int16 (z : Z) : Z := (z + 32768) mod 65536 - 32768.

(** [ndarray.tobytes()] of one [int16] on a little-endian host. *)
Definition s16le (z : Z) : list byte :=
  [byte_of_Z z; byte_of_Z (Z.shiftr z 8)].

(** The signed value of two little-endian bytes. *)
Definition s16le_value (lo hi : byte) : Z :=
  wrap_int16 (Z_of_byte lo + 256 * Z_of_byte hi).

(** [np.zeros((n, 2))], as the list of its rows. *)
Definition np_zeros2 (n : Z) : res (list (list float)) :=
  if n <? 0 then Raise ValueError
  else Ret (repeat [0%float; 0%float] (Z.to_nat n)).

Fixpoint list_set {A : Type} (j : nat) (x : A) (l : list A) : list A :=
  match l, j with
  | [], _ => []
  | _ :: t, O => x :: t
  | h :: t, S k => h :: list_set k x t
  end.

(** [a[:, j] = col] on a two-dimensional array given by its rows.  Both
    uses below assign a column of as many entries as there are rows. *)
Fixpoint assign_column (j : nat) (col : list float) (rows : list (list float))
  : list (list float) :=
  match rows, col with
  | r :: rows', c :: col' => list_set j c r :: assign_column j col' rows'
  | _, _ => rows
  end.

(** [ndarray.flatten()], row-major. *)
Definition flatten (rows : list (list float)) : list float := List.concat rows.

(** ** [generate_audio_buffer] *)

Section Audio.

(** [np.sin] on one [float64]: numpy's, not this repository's. *)
Variable np_sin : float -> float.

(** What [astype(np.int16)] yields for a float whose truncation is not
    an [int16], or that is an infinity or a NaN: C leaves that
    conversion undefined and numpy returns what the platform does. *)
Variable cast_undefined : float -> Z.

(** [x.astype(np.int16)] on one element: truncation toward zero. *)
Definition astype_int16 (x : float) : Z :=
  match trunc_float x with
  | Some z => if in_int16 z then z else wrap_int16 (cast_undefined x)
  | None => wrap_int16 (cast_undefined x)
  end.

(** [t = np.arange(samples_per_buffer) / self.sample_rate + self.phase] *)
Definition sample_times (g : RTPAudioGenerator) : list float :=
  map (fun i => (float_of_Z i / float_of_Z (sample_rate g) + phase g)%float)
      (np_arange (buffer_size g)).

(** [audio = self.amplitude * np.sin(2 * np.pi * self.frequency * t)] *)
Definition sine_wave (g : RTPAudioGenerator) : list float :=
  map (fun t => (amplitude g * np_sin (2 * np_pi * frequency g * t))%float)
      (sample_times g).

(** The [if self.channels == 2:] block. *)
Definition to_stereo (g : RTPAudioGenerator) (audio : list float)
  : res (list float) :=
  stereo_audio <- np_zeros2 (buffer_size g) ;;
  let stereo_audio := assign_column 0 audio stereo_audio in
  let stereo_audio :=
    assign_column 1 (map (fun a => (a * f0_7)%float) audio) stereo_audio in
  Ret (flatten stereo_audio).

(** [(audio * 32767).astype(np.int16)] *)
Definition to_int16 (audio : list float) : list Z :=
  map (fun a => astype_int16 (a * 32767)%float) audio.

(** [audio_int16.tobytes()] *)
Definition tobytes (xs : list Z) : list byte := flat_map s16le xs.

(** The phase update that ends [generate_audio_buffer]. *)
Definition advance_phase (g : RTPAudioGenerator) : res float :=
  d <- py_truediv (buffer_size g) (sample_rate g) ;;
  let p := (phase g + d)%float in
  Ret (if (1 <? p)%float then (p - 1)%float else p).

Definition generate_audio_buffer (g : RTPAudioGenerator)
  : res (list byte * RTPAudioGenerator) :=
  let audio := sine_wave g in
  audio <- (if channels g =? 2 then to_stereo g audio else Ret audio) ;;
  let audio_int16 := to_int16 audio in
  let audio_bytes := tobytes audio_int16 in
  p <- advance_phase g ;;
  Ret (audio_bytes, set_phase p g).

End Audio.

(** ** Effects *)

Inductive sock : Type :=
| StreamSocket   (* self.socket *)
| SapSocket.     (* the local sap_socket of send_sap_announcement *)

(** The lines the program prints, by kind, with the values they show. *)
Inductive message : Type :=
| MsgBanner                                   (* the four opening lines *)
| MsgPacketInfo (seq size ts : Z)             (* "Sending packet #..." *)
| MsgHeader (V P X CC M PT SEQ TS SSRC : Z)   (* "RTP Header: ..." *)
| MsgBytesSent (n : Z) (ip : string) (port : Z)
| MsgSendError                                (* "Error sending RTP packet: ..." *)
| MsgSapSent                                  (* "SAP announcement sent" *)
| MsgSapFailed                                (* "Failed to send SAP announcement: ..." *)
| MsgDrift                                    (* "Warning: Timing drift detected ..." *)
| MsgStopping                                 (* "Stopping RTP stream..." *)
| MsgSentCount (n : Z).                       (* "Sent n RTP packets" *)

Inductive event : Type :=
| EvSocket (s : sock)                         (* socket.socket(...) returned *)
| EvSendto (s : sock) (data : list byte) (ip : string) (port : Z) (ok : bool)
| EvClose (s : sock)
| EvSleep
| EvPrint (m : message).

(** ** [debug_rtp_header] (rtp_send_sap.py) *)

Definition debug_rtp_header (header : list byte) : list event :=
  if (12 <=? Z.of_nat (List.length header))
  then
    let '(first_byte, second_byte, seq, ts, ssrc) := struct_unpack_BBHII header in
    let version := Z.land (Z.shiftr first_byte 6) 0x3 in
    let padding := Z.land (Z.shiftr first_byte 5) 0x1 in
    let extension := Z.land (Z.shiftr first_byte 4) 0x1 in
    let cc := Z.land first_byte 0xF in
    let marker := Z.land (Z.shiftr second_byte 7) 0x1 in
    let pt := Z.land second_byte 0x7F in
    [EvPrint (MsgHeader version padding extension cc marker pt seq ts ssrc)]
  else [].

(** ** [send_rtp_packet] *)

(** What one successful send adds to [self.timestamp]. *)
Definition timestamp_increment (v : variant) (g : RTPAudioGenerator) : Z :=
  match v with
  | RtpSend => buffer_size g * channels g
  | RtpSendSap => buffer_size g
  end.

Section Sender.

Variable np_sin : float -> float.
Variable cast_undefined : float -> Z.

(** [send_ok] says whether the network accepts the datagram; on a
    closed socket [sendto] raises whatever the network would do.  The
    result is the method's return value, the object afterwards and the
    events of the call. *)
Definition send_rtp_packet (v : variant) (send_ok : bool) (g : RTPAudioGenerator)
  : res (bool * RTPAudioGenerator * list event) :=
  rtp_header <- create_rtp_header v g ;;
  r <- generate_audio_buffer np_sin cast_undefined g ;;
  let '(audio_payload, g) := r in
  let rtp_packet := rtp_header ++ audio_payload in
  let every_100th :=
    match v with
    | RtpSend => false
    | RtpSendSap => sequence_number g mod 100 =? 0
    end in
  let before :=
    if every_100th
    then EvPrint (MsgPacketInfo (sequence_number g)
                                (Z.of_nat (List.length rtp_packet)) (timestamp g))
         :: debug_rtp_header rtp_header
    else [] in
  let ok := socket_open g && send_ok in
  let call := EvSendto StreamSocket rtp_packet (target_ip g) (target_port g) ok in
  if ok
  then
    let after :=
      if every_100th
      then [EvPrint (MsgBytesSent (Z.of_nat (List.length rtp_packet))
                                  (target_ip g) (target_port g))]
      else [] in
    let g := set_sequence_number (sequence_number g + 1) g in
    let g := set_timestamp (timestamp g + timestamp_increment v g) g in
    Ret (true, g, before ++ [call] ++ after)
  else
    Ret (false, g, before ++ [call; EvPrint MsgSendError]).

End Sender.

(** ** [send_sap_announcement] (rtp_send_sap.py) *)

(** [struct.pack('!BBH', b0, b1, h)] *)
Definition struct_pack_BBH (b0 b1 h : Z) : res (list byte) :=
  f0 <- pack_uint 1 b0 ;;
  f1 <- pack_uint 1 b1 ;;
  f2 <- pack_uint 2 h ;;
  Ret (f0 ++ f1 ++ f2).

Definition newline : string := String (ascii_of_nat 10) EmptyString.

(** The text of the f-string; it has no replacement field. *)
Definition sdp_text : string :=
  ("v=0" ++ newline ++
   "o=- 123456789 123456789 IN IP4 127.0.0.1" ++ newline ++
   "s=Python RTP Stream" ++ newline ++
   "c=IN IP4 127.0.0.1" ++ newline ++
   "t=0 0" ++ newline ++
   "m=audio 5004 RTP/AVP 96" ++ newline ++
   "a=rtpmap:96 L16/48000/2" ++ newline)%string.

(** [sdp_text.encode('utf-8')]: the text is ASCII. *)
Definition sdp_payload : list byte := list_byte_of_string sdp_text.

Definition sap_address : string := "224.0.0.56".
Definition sap_port : Z := 9875.

(** [socket_ok]: [socket.socket] returns a socket; [send_ok]: its
    [sendto] returns.  Otherwise the call raises and control goes to the
    [except] clause. *)
Definition send_sap_announcement (socket_ok send_ok : bool) (g : RTPAudioGenerator)
  : res (list event) :=
  sap_header <- struct_pack_BBH 0x20 0x00 0x0000 ;;
  let sap_packet := sap_header ++ sdp_payload in
  if socket_ok
  then
    if send_ok
    then Ret [EvSocket SapSocket;
              EvSendto SapSocket sap_packet sap_address sap_port true;
              EvClose SapSocket;
              EvPrint MsgSapSent]
    else Ret [EvSocket SapSocket;
              EvSendto SapSocket sap_packet sap_address sap_port false;
              EvPrint MsgSapFailed]
  else Ret [EvPrint MsgSapFailed].

(** Whether socket [s] is open after the events [evs], given whether it
    was open before them. *)
Fixpoint open_after (s : sock) (was_open : bool) (evs : list event) : bool :=
  match evs with
  | [] => was_open
  | EvSocket s' :: evs' =>
      open_after s (match s, s' with
                    | StreamSocket, StreamSocket => true
                    | SapSocket, SapSocket => true
                    | _, _ => was_open
                    end) evs'
  | EvClose s' :: evs' =>
      open_after s (match s, s' with
                    | StreamSocket, StreamSocket => false
                    | SapSocket, SapSocket => false
                    | _, _ => was_open
                    end) evs'
  | _ :: evs' => open_after s was_open evs'
  end.

(** ** [start_streaming] *)

(** How the deadline of an iteration compares with the clock:
    [sleep_time > 0], [-0.001 <= sleep_time <= 0] or [sleep_time < -0.001]. *)
Inductive pace : Type :=
| Early
| OnTime
| Behind.

(** When a [KeyboardInterrupt] reaches the loop during an iteration. *)
Inductive interrupt : Type :=
| NoInterrupt
| BeforeSend     (* before the call of send_rtp_packet *)
| DuringSleep.   (* in time.sleep, after the packet was counted *)

(** What the environment decides during one iteration of the loop:
    the outcome of [sendto], the clock at the pacing step, whether
    [duration and (time.time() - start_time) >= duration] holds, and an
    interrupt if the operator sends one. *)
Record tick : Type := mkTick {
  tick_interrupt : interrupt;
  tick_send_ok : bool;
  tick_pace : pace;
  tick_expired : bool
}.

(** How the [while] loop was left.  [Pending] is not an exit: the ticks
    given ran out with the loop still running. *)
Inductive loop_exit : Type :=
| Broke                (* a break, or self.running became false *)
| Interrupted          (* KeyboardInterrupt *)
| Raised (e : exn)     (* another exception left send_rtp_packet *)
| Pending.

Record loop_state : Type := mkLoop {
  loop_exit_of : loop_exit;
  loop_gen : RTPAudioGenerator;
  loop_count : Z;                 (* packet_count *)
  loop_events : list event
}.

Definition pace_events (p : pace) : list event :=
  match p with
  | Early => [EvSleep]
  | OnTime => []
  | Behind => [EvPrint MsgDrift]
  end.

Definition more_events (evs : list event) (s : loop_state) : loop_state :=
  mkLoop (loop_exit_of s) (loop_gen s) (loop_count s) (evs ++ loop_events s).

Section Streaming.

Variable np_sin : float -> float.
Variable cast_undefined : float -> Z.

(** The [while self.running:] loop, one [tick] per iteration. *)
Fixpoint streaming_loop (v : variant) (env : list tick)
         (g : RTPAudioGenerator) (packet_count : Z) : loop_state :=
  match env with
  | [] => mkLoop Pending g packet_count []
  | t :: env' =>
      if negb (running g) then mkLoop Broke g packet_count []
      else
        match tick_interrupt t with
        | BeforeSend => mkLoop Interrupted g packet_count []
        | _ =>
            match send_rtp_packet np_sin cast_undefined v (tick_send_ok t) g with
            | Raise e => mkLoop (Raised e) g packet_count []
            | Ret (false, g, evs) => mkLoop Broke g packet_count evs
            | Ret (true, g, evs) =>
                let packet_count := packet_count + 1 in
                match tick_interrupt t with
                | DuringSleep => mkLoop Interrupted g packet_count (evs ++ [EvSleep])
                | _ =>
                    let evs := evs ++ pace_events (tick_pace t) in
                    if tick_expired t
                    then mkLoop Broke g packet_count evs
                    else more_events evs (streaming_loop v env' g packet_count)
                end
            end
        end
  end.

(** The result of a call of [start_streaming]: the exception that left
    it if one did, the object afterwards, the packet count it printed
    and its events.  [run_finished] is false when the ticks given ran
    out before the loop ended. *)
Record run : Type := mkRun {
  run_raised : option exn;
  run_finished : bool;
  run_gen : RTPAudioGenerator;
  run_count : Z;
  run_events : list event
}.

(** [sap_socket_ok] and [sap_send_ok] are the environment's answers to
    the announcement, which only rtp_send_sap.py sends. *)
Definition start_streaming (v : variant) (sap_socket_ok sap_send_ok : bool)
           (env : list tick) (g : RTPAudioGenerator) : run :=
  let announce :=
    match v with
    | RtpSend => Ret []
    | RtpSendSap => send_sap_announcement sap_socket_ok sap_send_ok g
    end in
  match announce with
  | Raise e => mkRun (Some e) true g 0 [EvPrint MsgBanner]
  | Ret sap_events =>
      let opening := EvPrint MsgBanner :: sap_events in
      let g := set_running true g in
      match py_truediv (buffer_size g) (sample_rate g) with
      | Raise e => mkRun (Some e) true g 0 opening
      | Ret packet_interval =>
          let s := streaming_loop v env g 0 in
          match loop_exit_of s with
          | Pending =>
              mkRun None false (loop_gen s) (loop_count s)
                    (opening ++ loop_events s)
          | ex =>
              (* except KeyboardInterrupt: ... finally: ... *)
              let handler :=
                match ex with
                | Interrupted => [EvPrint MsgStopping]
                | _ => []
                end in
              let g := set_running false (loop_gen s) in
              let g := set_socket_open false g in
              mkRun (match ex with Raised e => Some e | _ => None end)
                    true g (loop_count s)
                    (opening ++ loop_events s ++ handler ++
                     [EvClose StreamSocket; EvPrint (MsgSentCount (loop_count s))])
          end
      end
  end.

End Streaming.

(** Counting on event lists. *)

Definition is_delivery (e : event) : bool :=
  match e with
  | EvSendto StreamSocket _ _ _ true => true
  | _ => false
  end.

Definition is_send_attempt (e : event) : bool :=
  match e with
  | EvSendto StreamSocket _ _ _ _ => true
  | _ => false
  end.

Definition is_send_error (e : event) : bool :=
  match e with
  | EvPrint MsgSendError => true
  | _ => false
  end.

Definition is_stream_close (e : event) : bool :=
  match e with
  | EvClose StreamSocket => true
  | _ => false
  end.

Definition count_events (p : event -> bool) (evs : list event) : nat :=
  List.length (filter p evs).

(** ** Reading a session description

    What a receiver reads from the announced text: its lines, the fields
    of the media line [m=<media> <port> <proto> <fmt>] and of the
    attribute line [a=rtpmap:<fmt> <encoding>/<rate>/<channels>]. *)

Fixpoint split_on (c : ascii) (s : string) : list string :=
  match s with
  | EmptyString => [EmptyString]
  | String a s' =>
      if Ascii.eqb a c then EmptyString :: split_on c s'
      else match split_on c s' with
           | [] => [String a EmptyString]
           | w :: ws => String a w :: ws
           end
  end.

Definition digit_of_ascii (a : ascii) : option Z :=
  let n := Z.of_nat (nat_of_ascii a) in
  if (48 <=? n) && (n <=? 57) then Some (n - 48) else None.

Fixpoint parse_decimal_from (acc : Z) (s : string) : option Z :=
  match s with
  | EmptyString => Some acc
  | String a s' =>
      match digit_of_ascii a with
      | Some d => parse_decimal_from (acc * 10 + d) s'
      | None => None
      end
  end.

Definition parse_decimal (s : string) : option Z :=
  match s with
  | EmptyString => None
  | _ => parse_decimal_from 0 s
  end.

(** The rest of the first line that starts with [p]. *)
Definition line_after (p : string) (text : string) : option string :=
  match filter (String.prefix p) (split_on (ascii_of_nat 10) text) with
  | l :: _ => Some (substring (String.length p) (String.length l - String.length p) l)
  | [] => None
  end.

Record media_description : Type := mkMedia {
  media_kind : string;
  media_port : Z;
  media_proto : string;
  media_fmt : Z
}.

Definition sdp_media (text : string) : option media_description :=
  match line_after "m=" text with
  | Some l =>
      match split_on " " l with
      | [k; p; proto; f] =>
          match parse_decimal p, parse_decimal f with
          | Some p, Some f => Some (mkMedia k p proto f)
          | _, _ => None
          end
      | _ => None
      end
  | None => None
  end.

Record rtpmap : Type := mkRtpmap {
  rtpmap_fmt : Z;
  rtpmap_encoding : string;
  rtpmap_rate : Z;
  rtpmap_channels : Z
}.

Definition sdp_rtpmap (text : string) : option rtpmap :=
  match line_after "a=rtpmap:" text with
  | Some l =>
      match split_on " " l with
      | [f; enc] =>
          match split_on "/" enc with
          | [name; rate; chans] =>
              match parse_decimal f, parse_decimal rate, parse_decimal chans with
              | Some f, Some rate, Some chans => Some (mkRtpmap f name rate chans)
              | _, _, _ => None
              end
          | _ => None
          end
      | _ => None
      end
  | None => None
  end.

(** The payload type a data packet carries: the low seven bits of its
    second byte. *)
Definition packet_payload_type (packet : list byte) : Z :=
  Z.land (be_value (firstn 1 (skipn 1 packet))) 0x7F.

(** The fields of a packet's RTP header. *)
Definition packet_sequence_number (packet : list byte) : Z :=
  be_value (firstn 2 (skipn 2 packet)).

Definition packet_timestamp (packet : list byte) : Z :=
  be_value (firstn 4 (skipn 4 packet)).

Definition packet_ssrc (packet : list byte) : Z :=
  be_value (firstn 4 (skipn 8 packet)).

Definition packet_payload (packet : list byte) : list byte := skipn 12 packet.

(** ** [debug_rtp_header] on any buffer (rtp_send_sap.py)

    [send_rtp_packet] hands [debug_rtp_header] the twelve bytes
    [create_rtp_header] returned.  Called with other [bytes], the method
    tests [len(header) >= 12] and then unpacks, and [struct.unpack]
    raises [struct.error] unless the buffer has exactly the size of the
    format, which is twelve bytes for ['!BBHII']. *)

Definition struct_unpack_BBHII_sized (buffer : list byte)
  : res (Z * Z * Z * Z * Z) :=
  if (Z.of_nat (List.length buffer) =? 12)
  then Ret (struct_unpack_BBHII buffer)
  else Raise StructError.

Definition debug_rtp_header_any (header : list byte) : res (list event) :=
  if (12 <=? Z.of_nat (List.length header))
  then
    data <- struct_unpack_BBHII_sized header ;;
    let '(first_byte, second_byte, seq, ts, ssrc) := data in
    let version := Z.land (Z.shiftr first_byte 6) 0x3 in
    let padding := Z.land (Z.shiftr first_byte 5) 0x1 in
    let extension := Z.land (Z.shiftr first_byte 4) 0x1 in
    let cc := Z.land first_byte 0xF in
    let marker := Z.land (Z.shiftr second_byte 7) 0x1 in
    let pt := Z.land second_byte 0x7F in
    Ret [EvPrint (MsgHeader version padding extension cc marker pt seq ts ssrc)]
  else Ret [].

(** ** [main] *)

(** What [parser.parse_args()] returns: every option with its default
    filled in, [args_duration] being [None] when --duration is absent. *)
Record arguments : Type := mkArgs {
  args_ip : string;
  args_port : Z;
  args_rate : Z;
  args_channels : Z;
  args_buffer : Z;
  args_freq : float;
  args_duration : option float
}.

(** The defaults of the options. *)
Definition default_arguments : arguments :=
  mkArgs "127.0.0.1" 5004 48000 2 64 440%float None.

(** Python's truth value of [duration] in [if duration and ...]: [None]
    is false and so is a zero. *)
Definition duration_given (duration : option float) : bool :=
  match duration with
  | None => false
  | Some d => negb (d =? 0)%float
  end.

(** [duration and (time.time() - start_time) >= duration]: what the
    clock says counts only when [duration] is true. *)
Definition with_duration (duration : option float) (t : tick) : tick :=
  mkTick (tick_interrupt t) (tick_send_ok t) (tick_pace t)
         (duration_given duration && tick_expired t).

Section Main.

Variable np_sin : float -> float.
Variable cast_undefined : float -> Z.

(** [main], from the parsed arguments on.  In [env] the field
    [tick_expired] is the comparison of the clock with [duration] alone.
    The line [set_frequency] prints is left out, as it is there. *)
Definition main (v : variant) (args : arguments) (sap_socket_ok sap_send_ok : bool)
           (env : list tick) : run :=
  let generator :=
    init (args_ip args) (args_port args) (args_rate args) (args_channels args)
         (args_buffer args) in
  let generator := set_frequency (args_freq args) generator in
  start_streaming np_sin cast_undefined v sap_socket_ok sap_send_ok
                  (map (with_duration (args_duration args)) env) generator.

End Main.

(** * Notions the statements use *)

(** ** The real value of a binary64 float *)

Definition bpow (e : Z) : R := powerRZ 2 e.

Definition F2R (m e : Z) : R := (IZR m * bpow e)%R.

Definition SF2R (x : spec_float) : R :=
  match x with
  | S754_finite s m e => F2R (cond_Zopp s (Zpos m)) e
  | _ => 0%R
  end.

Definition is_finite_SF (x : spec_float) : bool :=
  match x with
  | S754_zero _ | S754_finite _ _ _ => true
  | _ => false
  end.

Definition float_val (x : float) : R := SF2R (Prim2SF x).

Definition float_finite (x : float) : Prop := is_finite_SF (Prim2SF x) = true.

(** [0 <= x <= 1] and [-1 <= x <= 1], as a program would test them. *)
Definition in_unit (x : float) : bool := ((0 <=? x) && (x <=? 1))%float.

Definition in_sym_unit (x : float) : bool := ((-1 <=? x) && (x <=? 1))%float.

(** [z] is [x] with its fraction dropped: the integer nearest to [x]
    among those between zero and [x]. *)
Definition is_truncation (z : Z) (x : R) : Prop :=
  ((0 <= x)%R -> (IZR z <= x < IZR z + 1)%R) /\
  ((x <= 0)%R -> (IZR z - 1 < x <= IZR z)%R).

(** Whether a bit was lost by the right shifts so far. *)
Definition shr_inexact (mrs : shr_record) : bool := shr_r mrs || shr_s mrs.

(** [r] is finite, has the sign [s] or is zero, and its magnitude is at
    most [b]. *)
Definition signed_within (s : bool) (b : R) (r : spec_float) : Prop :=
  is_finite_SF r = true /\
  if s then (- b <= SF2R r <= 0)%R else (0 <= SF2R r <= b)%R.

(** [r] is a finite float of magnitude at most [b] whose sign does not
    contradict the sign of the exact result [x]. *)
Definition rounds_within (x b : R) (r : spec_float) : Prop :=
  is_finite_SF r = true /\
  (Rabs (SF2R r) <= b)%R /\
  ((0 <= x)%R -> (0 <= SF2R r)%R) /\
  ((x <= 0)%R -> (SF2R r <= 0)%R).

(** The comparison [c] of two floats says what the order of their values
    [a] and [b] is. *)
Definition agrees (c : option comparison) (a b : R) : Prop :=
  match c with
  | Some Lt => (a < b)%R
  | Some Eq => a = b
  | Some Gt => (b < a)%R
  | None => False
  end.

(** Rounding to the nearest integer, ties to even, as Python's [round]
    does: the conversion the specification words as
    [round(sample * 32767)], to compare with [astype_int16]. *)
Definition spec_round_SF (x : spec_float) : option Z :=
  match x with
  | S754_zero _ => Some 0
  | S754_finite s m e =>
      if 0 <=? e then Some (cond_Zopp s (Zpos m * 2 ^ e))
      else
        let q := Zpos m / 2 ^ (- e) in
        let r := Zpos m mod 2 ^ (- e) in
        let up :=
          match Z.compare (2 * r) (2 ^ (- e)) with
          | Lt => false
          | Gt => true
          | Eq => Z.odd q
          end in
        Some (cond_Zopp s (if up then q + 1 else q))
  | S754_infinity _ => None
  | S754_nan => None
  end.

Definition spec_round (x : float) : option Z := spec_round_SF (Prim2SF x).

(** ** Blocks *)

(** No exception leaves [generate_audio_buffer]: the sample rate is not
    zero, and a stereo block has no negative size. *)
Definition can_generate (g : RTPAudioGenerator) : bool :=
  negb (sample_rate g =? 0) && (negb (channels g =? 2) || (0 <=? buffer_size g)).

(** The duration of a block, as the phase update computes it, is between
    0 and 1 second. *)
Definition block_within_second (g : RTPAudioGenerator) : bool :=
  match py_truediv (buffer_size g) (sample_rate g) with
  | Ret d => in_unit d
  | Raise _ => false
  end.

(** The phase [generate_audio_buffer] stores when it returns. *)
Definition next_phase (g : RTPAudioGenerator) : float :=
  let p := (phase g + float_of_Z (buffer_size g) / float_of_Z (sample_rate g))%float in
  if (1 <? p)%float then (p - 1)%float else p.

(** The value of the sine wave at sample [i] of the coming block. *)
Definition sample_value (np_sin : float -> float) (g : RTPAudioGenerator) (i : Z)
  : float :=
  (amplitude g *
   np_sin (2 * np_pi * frequency g *
           (float_of_Z i / float_of_Z (sample_rate g) + phase g)))%float.

(** The 16-bit integer emitted for the sample value [x]. *)
Definition pcm16 (cast_undefined : float -> Z) (x : float) : Z :=
  astype_int16 cast_undefined (x * 32767)%float.

(** Left and right sample of every frame, in order L, R, L, R, ...:
    what the stereo block is to hold, to compare with [to_stereo]. *)
Definition interleaved (audio : list float) : list float :=
  flat_map (fun a => [a; (a * f0_7)%float]) audio.

(** The float samples of the coming block in payload order. *)
Definition block_samples (np_sin : float -> float) (g : RTPAudioGenerator)
  : list float :=
  if channels g =? 2 then interleaved (sine_wave np_sin g) else sine_wave np_sin g.

(** [n] calls of [generate_audio_buffer] in a row: the payloads in
    order and the object after the last call. *)
Fixpoint generate_blocks (np_sin : float -> float) (cast_undefined : float -> Z)
         (n : nat) (g : RTPAudioGenerator)
  : res (list (list byte) * RTPAudioGenerator) :=
  match n with
  | O => Ret ([], g)
  | S k =>
      r <- generate_audio_buffer np_sin cast_undefined g ;;
      let '(payload, g1) := r in
      rest <- generate_blocks np_sin cast_undefined k g1 ;;
      let '(payloads, g2) := rest in
      Ret (payload :: payloads, g2)
  end.

(** ** Packets and runs *)

(** The object after a successful call of [send_rtp_packet]. *)
Definition after_delivery (v : variant) (g : RTPAudioGenerator) : RTPAudioGenerator :=
  mkGen (target_ip g) (target_port g) (sample_rate g) (channels g) (buffer_size g)
        (sequence_number g + 1) (timestamp g + timestamp_increment v g)
        (frequency g) (amplitude g) (next_phase g) (socket_open g) (running g).

(** The object after [n] delivered packets in a row. *)
Fixpoint deliveries (v : variant) (n : nat) (g : RTPAudioGenerator)
  : RTPAudioGenerator :=
  match n with
  | O => g
  | S k => deliveries v k (after_delivery v g)
  end.

(** The datagram [send_rtp_packet] hands to [sendto]. *)
Definition rtp_packet_of (np_sin : float -> float) (cast_undefined : float -> Z)
           (v : variant) (g : RTPAudioGenerator) : list byte :=
  (be_bytes 1 first_byte ++ be_bytes 1 (second_byte v) ++
   be_bytes 2 (sequence_number g mod 65536) ++
   be_bytes 4 (timestamp g mod 4294967296) ++
   be_bytes 4 ssrc) ++
  tobytes (map (pcm16 cast_undefined) (block_samples np_sin g)).

(** The datagrams handed to [sendto] on the stream socket, delivered or
    not, in order. *)
Definition stream_datagrams (evs : list event) : list (list byte) :=
  flat_map (fun e => match e with
                     | EvSendto StreamSocket data _ _ _ => [data]
                     | _ => []
                     end) evs.

(** Printed lines other than the send error. *)
Definition is_notice (e : event) : bool :=
  match e with
  | EvPrint MsgSendError => false
  | EvPrint _ => true
  | _ => false
  end.

(** Events that are neither a call on the stream socket nor the send
    error. *)
Definition is_aside (e : event) : bool :=
  negb (is_send_attempt e) && negb (is_send_error e) && negb (is_stream_close e).

(** The four counts of a list of events. *)
Definition tally (evs : list event) : nat * nat * nat * nat :=
  (count_events is_delivery evs, count_events is_send_attempt evs,
   count_events is_send_error evs, count_events is_stream_close evs).

(** An iteration in which the operator does not interrupt, the datagram
    is accepted and the duration has not elapsed. *)
Definition delivers (t : tick) : bool :=
  match tick_interrupt t with
  | NoInterrupt => tick_send_ok t && negb (tick_expired t)
  | _ => false
  end.

(** An iteration whose [sendto] raises. *)
Definition send_fails (t : tick) : bool :=
  match tick_interrupt t with
  | BeforeSend => false
  | _ => negb (tick_send_ok t)
  end.

(** Stand-ins for concrete runs: a sine source stuck at one value, and a
    platform whose undefined casts give zero. *)
Definition constant_signal (c : float) : float -> float := fun _ => c.

Definition cast_zero : float -> Z := fun _ => 0.

(** ** Notions the further statements use *)

(** The fields a header line shows are within the widths of the header. *)
Definition header_line_in_range (e : event) : bool :=
  match e with
  | EvPrint (MsgHeader V P X CC M PT SEQ TS SSRC) =>
      (0 <=? V) && (V <? 4) && (0 <=? P) && (P <? 2) && (0 <=? X) && (X <? 2) &&
      (0 <=? CC) && (CC <? 16) && (0 <=? M) && (M <? 2) && (0 <=? PT) && (PT <? 128) &&
      (0 <=? SEQ) && (SEQ <? 65536) && (0 <=? TS) && (TS <? 4294967296) &&
      (0 <=? SSRC) && (SSRC <? 4294967296)
  | _ => false
  end.

(** The twelve bytes a header line stands for. *)
Definition bytes_of_header_line (e : event) : list byte :=
  match e with
  | EvPrint (MsgHeader V P X CC M PT SEQ TS SSRC) =>
      be_bytes 1 (Z.lor (Z.lor (Z.lor (Z.shiftl V 6) (Z.shiftl P 5)) (Z.shiftl X 4)) CC) ++
      be_bytes 1 (Z.lor (Z.shiftl M 7) PT) ++
      be_bytes 2 SEQ ++ be_bytes 4 TS ++ be_bytes 4 SSRC
  | _ => []
  end.

(** Sleeping and the drift warning: what the pacing of the loop adds to
    the events. *)
Definition is_pacing (e : event) : bool :=
  match e with
  | EvSleep => true
  | EvPrint MsgDrift => true
  | _ => false
  end.

Definition without_pacing (evs : list event) : list event :=
  filter (fun e => negb (is_pacing e)) evs.

(** A tick with another answer of the clock at the pacing step. *)
Definition with_pace (p : pace) (t : tick) : tick :=
  mkTick (tick_interrupt t) (tick_send_ok t) p (tick_expired t).

(** The line "Stopping RTP stream...". *)
Definition is_stopping (e : event) : bool :=
  match e with
  | EvPrint MsgStopping => true
  | _ => false
  end.

(** An iteration during which the operator interrupts: before the send,
    or in the sleep after a send that succeeded. *)
Definition interrupts (t : tick) : bool :=
  match tick_interrupt t with
  | NoInterrupt => false
  | BeforeSend => true
  | DuringSleep => tick_send_ok t
  end.

(** The packets counted in the iteration that is interrupted. *)
Definition counted_when_interrupted (t : tick) : Z :=
  match tick_interrupt t with
  | DuringSleep => 1
  | _ => 0
  end.

(** An iteration whose send succeeds and after which the duration has
    elapsed. *)
Definition expires (t : tick) : bool :=
  match tick_interrupt t with
  | NoInterrupt => tick_send_ok t && tick_expired t
  | _ => false
  end.

(** An iteration in which the operator does not interrupt and the
    datagram is accepted. *)
Definition accepted (t : tick) : bool :=
  match tick_interrupt t with
  | NoInterrupt => tick_send_ok t
  | _ => false
  end.

(** The amplitude [__init__] sets, 0.3. *)
Definition initial_amplitude : float := amplitude default_generator.

(** The object [main] builds and starts. *)
Definition generator_of (args : arguments) : RTPAudioGenerator :=
  set_frequency (args_freq args)
                (init (args_ip args) (args_port args) (args_rate args)
                      (args_channels args) (args_buffer args)).

(** The sine values of the coming block are in [-1, 1]. *)
Definition sine_in_range (np_sin : float -> float) (g : RTPAudioGenerator) : bool :=
  forallb (fun t => in_sym_unit (np_sin (2 * np_pi * frequency g * t)%float))
          (sample_times g).

(** What the loop of [start_streaming] adds to the events of an object
    that sends to [ip] and [port]: calls of [sendto] on the stream
    socket for that address, the lines of [send_rtp_packet], sleeping
    and the drift warning. *)
Definition is_loop_event (ip : string) (port : Z) (e : event) : bool :=
  match e with
  | EvSendto StreamSocket _ ip' port' _ => String.eqb ip' ip && (port' =? port)
  | EvSleep => true
  | EvPrint (MsgPacketInfo _ _ _) => true
  | EvPrint (MsgHeader _ _ _ _ _ _ _ _ _) => true
  | EvPrint (MsgBytesSent _ _ _) => true
  | EvPrint MsgSendError => true
  | EvPrint MsgDrift => true
  | _ => false
  end.

(** The number of samples of a block, both channels counted. *)
Definition samples_per_block (g : RTPAudioGenerator) : nat :=
  if channels g =? 2 then (2 * Z.to_nat (buffer_size g))%nat
  else Z.to_nat (buffer_size g).

(** [0 <= x <= 2], as a program would test it. *)
Definition in_two (x : float) : bool := ((0 <=? x) && (x <=? 2))%float.

(** Proof search: the constants of the program are finite floats. *)
Create HintDb floats.

(** * Binary64 arithmetic

    Rounding to nearest keeps a result on the side of zero the exact
    value is on, and within any bound that is itself a float; a product
    is within two units in the last place of such a bound of its exact
    value.  This is proved from the specification of the primitive
    operations and used for the phase, for the range of the samples and
    for the level of the right channel. *)

(** ** Powers of two *)

Lemma bpow_pos e : (0 < bpow e)%R.
Proof. apply powerRZ_lt; lra. Qed.

Lemma bpow_add a b : bpow (a + b) = (bpow a * bpow b)%R.
Proof. apply powerRZ_add; lra. Qed.

Lemma bpow_IZR n : 0 <= n -> bpow n = IZR (2 ^ n).
Proof.
  intros Hn. unfold bpow.
  rewrite <- (Z2Nat.id n) by assumption.
  rewrite <- pow_powerRZ, pow_IZR. reflexivity.
Qed.

Lemma bpow_ge_1 n : 0 <= n -> (1 <= bpow n)%R.
Proof.
  intros Hn. rewrite bpow_IZR by assumption.
  apply IZR_le. assert (0 < 2 ^ n) by (apply Z.pow_pos_nonneg; lia). lia.
Qed.

Lemma bpow_le a b : a <= b -> (bpow a <= bpow b)%R.
Proof.
  intros H. replace b with (a + (b - a)) by ring. rewrite bpow_add.
  pose proof (bpow_pos a). pose proof (bpow_ge_1 (b - a) ltac:(lia)). nra.
Qed.

Lemma bpow_lt a b : a < b -> (bpow a < bpow b)%R.
Proof.
  intros H. replace b with (a + (b - a)) by ring. rewrite bpow_add.
  pose proof (bpow_pos a).
  assert (2 <= bpow (b - a))%R.
  { rewrite bpow_IZR by lia. apply IZR_le.
    replace (b - a) with (1 + (b - a - 1)) by ring.
    rewrite Z.pow_add_r by lia.
    assert (0 < 2 ^ (b - a - 1)) by (apply Z.pow_pos_nonneg; lia). lia. }
  nra.
Qed.

Lemma bpow_lt_inv a b : (bpow a < bpow b)%R -> a < b.
Proof.
  intros H. destruct (Z_lt_le_dec a b) as [|Hle]; [assumption|].
  apply bpow_le in Hle. lra.
Qed.

Lemma F2R_shift m e k : 0 <= k -> F2R (m * 2 ^ k) (e - k) = F2R m e.
Proof.
  intros Hk. unfold F2R. rewrite mult_IZR, <- bpow_IZR by assumption.
  replace e with ((e - k) + k) at 2 by ring. rewrite (bpow_add (e - k) k). ring.
Qed.

Lemma F2R_le_inv m1 m2 e : (F2R m1 e <= F2R m2 e)%R -> m1 <= m2.
Proof.
  unfold F2R. intros H. apply le_IZR. pose proof (bpow_pos e). nra.
Qed.

Lemma F2R_le m1 m2 e : m1 <= m2 -> (F2R m1 e <= F2R m2 e)%R.
Proof.
  unfold F2R. intros H. apply IZR_le in H. pose proof (bpow_pos e). nra.
Qed.

(** ** Number of bits *)

Lemma digits2_size m : digits2_pos m = Pos.size m.
Proof. induction m; simpl; congruence. Qed.

Lemma digits2_bounds m :
  2 ^ (Zpos (digits2_pos m) - 1) <= Zpos m < 2 ^ Zpos (digits2_pos m).
Proof.
  rewrite digits2_size. split.
  - pose proof (Pos.size_le m) as H.
    assert (Hz : 2 ^ Zpos (Pos.size m) <= 2 * Zpos m).
    { change (2 * Zpos m) with (Zpos m~0). rewrite <- Pos2Z.inj_pow. apply Pos2Z.pos_le_pos. exact H. }
    replace (Zpos (Pos.size m)) with (1 + (Zpos (Pos.size m) - 1)) in Hz by ring.
    rewrite Z.pow_add_r in Hz by lia. lia.
  - pose proof (Pos.size_gt m) as H.
    rewrite <- Pos2Z.inj_pow. apply Pos2Z.pos_lt_pos. exact H.
Qed.

Lemma F2R_digits m e :
  (bpow (Zpos (digits2_pos m) - 1 + e) <= F2R (Zpos m) e < bpow (Zpos (digits2_pos m) + e))%R.
Proof.
  destruct (digits2_bounds m) as [H1 H2].
  rewrite !bpow_add. unfold F2R. pose proof (bpow_pos e) as He.
  rewrite (bpow_IZR (Zpos (digits2_pos m) - 1)) by lia.
  rewrite (bpow_IZR (Zpos (digits2_pos m))) by lia.
  apply IZR_le in H1. apply IZR_lt in H2.
  split.
  - apply Rmult_le_compat_r; lra.
  - apply Rmult_lt_compat_r; lra.
Qed.

(** ** Right shifts and rounding of the mantissa *)

Lemma shr_1_spec mrs :
  0 <= shr_m mrs ->
  shr_m (shr_1 mrs) = shr_m mrs / 2 /\
  (shr_inexact (shr_1 mrs) = false <->
   shr_inexact mrs = false /\ shr_m mrs mod 2 = 0).
Proof.
  destruct mrs as [m r s]. unfold shr_inexact. simpl. intros Hm.
  destruct m as [|p|p]; [| |lia].
  - simpl. split; [reflexivity|]. destruct r, s; simpl; intuition congruence.
  - destruct p as [p|p|]; simpl shr_m; simpl shr_r; simpl shr_s.
    + split.
      * rewrite Pos2Z.inj_xI. apply Z.div_unique with 1; lia.
      * rewrite Pos2Z.inj_xI.
        replace ((2 * Z.pos p + 1) mod 2) with 1
          by (apply Z.mod_unique with (Z.pos p); lia).
        simpl. intuition congruence.
    + split.
      * rewrite Pos2Z.inj_xO. apply Z.div_unique with 0; lia.
      * rewrite Pos2Z.inj_xO.
        replace ((2 * Z.pos p) mod 2) with 0
          by (apply Z.mod_unique with (Z.pos p); lia).
        destruct r, s; simpl; intuition congruence.
    + split; [reflexivity|].
      split; [intros H; discriminate H | intros [_ H]; vm_compute in H; discriminate H].
Qed.

Lemma mod_mul_zero m a b :
  0 < a -> 0 < b ->
  (m mod (a * b) = 0 <-> m mod a = 0 /\ (m / a) mod b = 0).
Proof.
  intros Ha Hb. rewrite Z.rem_mul_r by lia.
  pose proof (Z.mod_pos_bound m a Ha). pose proof (Z.mod_pos_bound (m / a) b Hb).
  split; [intros; split; nia | intros [-> ->]; lia].
Qed.

Lemma iter_shr_spec p : forall mrs,
  0 <= shr_m mrs ->
  shr_m (SpecFloat.iter_pos shr_1 p mrs) = shr_m mrs / 2 ^ Zpos p /\
  (shr_inexact (SpecFloat.iter_pos shr_1 p mrs) = false <->
   shr_inexact mrs = false /\ shr_m mrs mod 2 ^ Zpos p = 0).
Proof.
  induction p as [p IH|p IH|]; intros mrs Hm; simpl SpecFloat.iter_pos.
  - destruct (shr_1_spec mrs Hm) as [E1 I1].
    assert (H1 : 0 <= shr_m (shr_1 mrs)) by (rewrite E1; apply Z.div_pos; lia).
    destruct (IH _ H1) as [E2 I2].
    assert (P : 0 < 2 ^ Zpos p) by (apply Z.pow_pos_nonneg; lia).
    assert (H2 : 0 <= shr_m (SpecFloat.iter_pos shr_1 p (shr_1 mrs)))
      by (rewrite E2; apply Z.div_pos; lia).
    destruct (IH _ H2) as [E3 I3].
    rewrite (Pos2Z.inj_xI p).
    replace (2 * Z.pos p + 1) with (1 + Z.pos p + Z.pos p) by ring.
    rewrite !Z.pow_add_r by lia. change (2 ^ 1) with 2.
    split.
    + rewrite E3, E2, E1, !Z.div_div by lia. f_equal; ring.
    + rewrite I3, I2, I1, E2, E1.
      rewrite (mod_mul_zero (shr_m mrs) (2 * 2 ^ Zpos p)) by lia.
      rewrite (mod_mul_zero (shr_m mrs) 2) by lia.
      rewrite <- Z.div_div by lia. tauto.
  - destruct (IH _ Hm) as [E2 I2].
    assert (P : 0 < 2 ^ Zpos p) by (apply Z.pow_pos_nonneg; lia).
    assert (H2 : 0 <= shr_m (SpecFloat.iter_pos shr_1 p mrs))
      by (rewrite E2; apply Z.div_pos; lia).
    destruct (IH _ H2) as [E3 I3].
    rewrite (Pos2Z.inj_xO p).
    replace (2 * Z.pos p) with (Z.pos p + Z.pos p) by ring.
    rewrite !Z.pow_add_r by lia.
    split.
    + rewrite E3, E2, !Z.div_div by lia. f_equal; ring.
    + rewrite I3, I2, E2.
      rewrite (mod_mul_zero (shr_m mrs) (2 ^ Zpos p)) by lia. tauto.
  - change (2 ^ 1) with 2. apply shr_1_spec. assumption.
Qed.

(** Shifting right by [k >= 0] bits from an exact record. *)
Lemma shr_spec m e k :
  0 <= m -> 0 <= k ->
  let '(mrs, e') := shr (Build_shr_record m false false) e k in
  e' = e + k /\ shr_m mrs = m / 2 ^ k /\
  (shr_inexact mrs = false <-> m mod 2 ^ k = 0).
Proof.
  intros Hm Hk. unfold shr. destruct k as [|p|p]; [| |lia].
  - simpl. rewrite Z.div_1_r, Z.mod_1_r, Z.add_0_r. unfold shr_inexact. simpl. tauto.
  - destruct (iter_shr_spec p (Build_shr_record m false false) Hm) as [E I].
    simpl in E, I. repeat split; try assumption.
    + intros H. apply I in H. tauto.
    + intros H. apply I. unfold shr_inexact. simpl. tauto.
Qed.

Lemma round_nearest_even_bounds mrs :
  shr_m mrs <= round_nearest_even (shr_m mrs) (loc_of_shr_record mrs) <= shr_m mrs + 1 /\
  (shr_inexact mrs = false ->
   round_nearest_even (shr_m mrs) (loc_of_shr_record mrs) = shr_m mrs).
Proof.
  destruct mrs as [m [|] [|]]; unfold shr_inexact; simpl;
    try destruct (Z.even m); split; try lia; try discriminate; reflexivity.
Qed.

(** ** The rounding step of every operation *)

Lemma fexp_mono a b : a <= b -> fexp prec emax a <= fexp prec emax b.
Proof. unfold fexp. lia. Qed.

Lemma fexp_ge_emin a : -1074 <= fexp prec emax a.
Proof. unfold fexp, SpecFloat.emin, prec, emax. lia. Qed.

Lemma bounded_inv m e :
  SpecFloat.bounded prec emax m e = true ->
  fexp prec emax (Zpos (digits2_pos m) + e) = e /\ e <= emax - prec.
Proof.
  unfold SpecFloat.bounded, canonical_mantissa. intros H.
  apply andb_true_iff in H. destruct H as [H1 H2].
  apply Z.eqb_eq in H1. apply Z.leb_le in H2. auto.
Qed.

Lemma shr_nonpos mrs e k : k <= 0 -> shr mrs e k = (mrs, e).
Proof. destruct k; [reflexivity|lia|reflexivity]. Qed.

Lemma F2R_pos m e : 0 < m -> (0 < F2R m e)%R.
Proof.
  intros H. unfold F2R. apply Rmult_lt_0_compat; [apply IZR_lt; assumption | apply bpow_pos].
Qed.

Lemma F2R_opp m e : F2R (- m) e = (- F2R m e)%R.
Proof. unfold F2R. rewrite opp_IZR. ring. Qed.

(** Comparing the positions of the leading bits of two positive values. *)
Lemma digits_le_of_F2R_le m e mB eB :
  (F2R (Zpos m) e <= F2R (Zpos mB) eB)%R ->
  Zpos (digits2_pos m) + e <= Zpos (digits2_pos mB) + eB.
Proof.
  intros H.
  destruct (F2R_digits m e) as [L _]. destruct (F2R_digits mB eB) as [_ U].
  assert (Hlt : (bpow (Zpos (digits2_pos m) - 1 + e) < bpow (Zpos (digits2_pos mB) + eB))%R) by lra.
  apply bpow_lt_inv in Hlt. lia.
Qed.

Lemma shr_record_of_loc_spec m l :
  shr_m (shr_record_of_loc m l) = m /\
  (shr_inexact (shr_record_of_loc m l) = false <-> l = loc_Exact).
Proof.
  destruct l as [|[| |]]; unfold shr_inexact; simpl; split; try reflexivity;
    split; intros; try reflexivity; discriminate.
Qed.

(** Shifting right by [k >= 0] bits from the record of a location. *)
Lemma shr_loc_spec m l e k :
  0 <= m -> 0 <= k ->
  let '(mrs, e') := shr (shr_record_of_loc m l) e k in
  e' = e + k /\ shr_m mrs = m / 2 ^ k /\
  (shr_inexact mrs = false <-> l = loc_Exact /\ m mod 2 ^ k = 0).
Proof.
  intros Hm Hk. destruct (shr_record_of_loc_spec m l) as [Em El].
  unfold shr. destruct k as [|p|p]; [| |lia].
  - rewrite Z.div_1_r, Z.mod_1_r, Z.add_0_r, Em, El. tauto.
  - destruct (iter_shr_spec p (shr_record_of_loc m l)) as [E I]; [rewrite Em; exact Hm|].
    rewrite Em in E, I. rewrite El in I. auto.
Qed.

(** The rounding step, from a mantissa [m] that stands for a value
    between [m * 2^e] and [(m + 1) * 2^e], strictly above the first when
    the location is not exact. *)
Lemma binary_round_aux_bound_loc s m e l mB eB :
  0 < m ->
  e <= fexp prec emax (Zdigits2 m + e) ->
  SpecFloat.bounded prec emax mB eB = true ->
  (F2R m e <= F2R (Zpos mB) eB)%R ->
  (l <> loc_Exact -> (F2R m e < F2R (Zpos mB) eB)%R) ->
  signed_within s (F2R (Zpos mB) eB) (binary_round_aux prec emax s m e l).
Proof.
  intros Hm Hal HB Hle Hlt.
  destruct m as [|p|p]; try lia. clear Hm.
  destruct (bounded_inv _ _ HB) as [HcB HeB].
  set (B := F2R (Zpos mB) eB) in *.
  assert (HBpos : (0 < B)%R) by (apply F2R_pos; lia).
  simpl Zdigits2 in Hal.
  set (f := fexp prec emax (Zpos (digits2_pos p) + e)) in *.
  assert (Hf : f <= eB).
  { rewrite <- HcB. apply fexp_mono. apply digits_le_of_F2R_le. exact Hle. }
  unfold binary_round_aux, shr_fexp. simpl Zdigits2. fold f.
  pose proof (shr_loc_spec (Zpos p) l e (f - e) ltac:(lia) ltac:(lia)) as S1.
  destruct (shr (shr_record_of_loc (Zpos p) l) e (f - e)) as [mrs e'].
  destruct S1 as (-> & Em1 & Ex1).
  replace (e + (f - e)) with f by ring.
  destruct (round_nearest_even_bounds mrs) as [[Lo Hi] Exact].
  set (m2 := round_nearest_even (shr_m mrs) (loc_of_shr_record mrs)) in *.
  assert (P1 : 0 < 2 ^ (f - e)) by (apply Z.pow_pos_nonneg; lia).
  assert (Hm1 : 0 <= shr_m mrs) by (rewrite Em1; apply Z.div_pos; lia).
  set (MB := Zpos mB * 2 ^ (eB - f)).
  assert (HBf : B = F2R MB f).
  { unfold B, MB. rewrite <- (F2R_shift (Zpos mB) eB (eB - f)) by lia.
    f_equal. ring. }
  assert (HBe : F2R (MB * 2 ^ (f - e)) e = B).
  { rewrite HBf. rewrite <- (F2R_shift MB f (f - e)) by lia. f_equal. ring. }
  assert (HmZ : Zpos p <= MB * 2 ^ (f - e)).
  { apply (F2R_le_inv _ _ e). rewrite HBe. exact Hle. }
  assert (Hm2 : m2 <= MB).
  { pose proof (Z.div_mod (Zpos p) (2 ^ (f - e)) ltac:(lia)) as DM.
    pose proof (Z.mod_pos_bound (Zpos p) (2 ^ (f - e)) P1) as MBd.
    rewrite <- Em1 in DM.
    destruct l as [|c] eqn:El.
    - destruct (Z.eq_dec (Zpos p mod 2 ^ (f - e)) 0) as [Z0|NZ].
      + rewrite (Exact (proj2 Ex1 (conj eq_refl Z0))). nia.
      + assert (shr_m mrs < MB) by nia. lia.
    - assert (Hs : Zpos p < MB * 2 ^ (f - e)).
      { destruct (Z_lt_le_dec (Zpos p) (MB * 2 ^ (f - e))) as [L|G]; [exact L|].
        apply (F2R_le _ _ e) in G. rewrite HBe in G.
        assert ((F2R (Zpos p) e < B)%R) by (apply Hlt; discriminate). lra. }
      assert (shr_m mrs < MB) by nia. lia. }
  assert (Hm2R : (F2R m2 f <= B)%R) by (rewrite HBf; apply F2R_le; exact Hm2).
  simpl shr_record_of_loc.
  set (k2 := fexp prec emax (Zdigits2 m2 + f) - f).
  destruct (Z_le_gt_dec k2 0) as [K|K].
  - rewrite shr_nonpos by exact K. simpl shr_m.
    destruct m2 as [|q|q] eqn:Eq2; try lia.
    + split; [reflexivity|]. simpl. destruct s; lra.
    + replace (f <=? emax - prec) with true by (symmetry; apply Z.leb_le; lia).
      split; [reflexivity|]. simpl SF2R.
      pose proof (F2R_pos (Zpos q) f ltac:(lia)).
      destruct s; simpl cond_Zopp; [rewrite (F2R_opp (Zpos q))|]; lra.
  - pose proof (shr_spec m2 f k2 ltac:(lia) ltac:(lia)) as S2.
    destruct (shr {| shr_m := m2; shr_r := false; shr_s := false |} f k2) as [mrs2 e2].
    destruct S2 as (-> & Em3 & _).
    assert (P2 : 0 < 2 ^ k2) by (apply Z.pow_pos_nonneg; lia).
    assert (Hm3 : 0 <= shr_m mrs2) by (rewrite Em3; apply Z.div_pos; lia).
    destruct (shr_m mrs2) as [|q|q] eqn:Eq3; try lia.
    + split; [reflexivity|]. simpl. destruct s; lra.
    + assert (Hq : Zpos q * 2 ^ k2 <= m2).
      { rewrite Em3. rewrite Z.mul_comm. apply Z.mul_div_le. lia. }
      assert (Hm2pos : 0 < m2) by nia.
      destruct m2 as [|q2|q2] eqn:Eq2; try lia.
      assert (He2 : f + k2 <= eB).
      { unfold k2. simpl Zdigits2.
        replace (f + (fexp prec emax (Z.pos (digits2_pos q2) + f) - f))
          with (fexp prec emax (Z.pos (digits2_pos q2) + f)) by ring.
        rewrite <- HcB. apply fexp_mono. apply digits_le_of_F2R_le. exact Hm2R. }
      replace (f + k2 <=? emax - prec) with true by (symmetry; apply Z.leb_le; lia).
      split; [reflexivity|]. simpl SF2R.
      assert (HqR : (F2R (Zpos q) (f + k2) <= B)%R).
      { replace (F2R (Zpos q) (f + k2)) with (F2R (Zpos q * 2 ^ k2) f).
        - apply Rle_trans with (F2R (Zpos q2) f); [apply F2R_le; exact Hq | exact Hm2R].
        - rewrite <- (F2R_shift (Zpos q) (f + k2) k2) by lia. f_equal. ring. }
      pose proof (F2R_pos (Zpos q) (f + k2) ltac:(lia)).
      destruct s; simpl cond_Zopp; [rewrite (F2R_opp (Zpos q))|]; lra.
Qed.

Lemma binary_round_aux_bound s m e mB eB :
  0 < m ->
  e <= fexp prec emax (Zdigits2 m + e) ->
  SpecFloat.bounded prec emax mB eB = true ->
  (F2R m e <= F2R (Zpos mB) eB)%R ->
  signed_within s (F2R (Zpos mB) eB)
                (binary_round_aux prec emax s m e loc_Exact).
Proof.
  intros Hm Hal HB Hle. apply binary_round_aux_bound_loc; try assumption.
  intros H. contradiction H. reflexivity.
Qed.

(** ** Addition, subtraction and multiplication *)

Lemma signed_within_rounds s b x r :
  signed_within s b r ->
  (if s then (x < 0)%R else (0 < x)%R) ->
  rounds_within x b r.
Proof.
  unfold signed_within, rounds_within. intros [F H] Hs.
  split; [exact F|]. destruct s.
  - repeat split; try lra. rewrite Rabs_left1; lra.
  - repeat split; try lra. rewrite Rabs_pos_eq; lra.
Qed.

Lemma iter_xO_value d m : Zpos (Pos.iter xO m d) = Zpos m * 2 ^ Zpos d.
Proof.
  induction d as [|d IH] using Pos.peano_ind.
  - simpl. lia.
  - rewrite Pos.iter_succ, Pos2Z.inj_xO, IH, Pos2Z.inj_succ, Z.pow_succ_r by lia. ring.
Qed.

Lemma iter_xO_digits d m :
  Zpos (digits2_pos (Pos.iter xO m d)) = Zpos (digits2_pos m) + Zpos d.
Proof.
  induction d as [|d IH] using Pos.peano_ind.
  - simpl. lia.
  - rewrite Pos.iter_succ. simpl digits2_pos. rewrite Pos2Z.inj_succ, IH. lia.
Qed.

Lemma shl_align_spec m e e' :
  let '(mz, ez) := shl_align m e e' in
  F2R (Zpos mz) ez = F2R (Zpos m) e /\
  Zpos (digits2_pos mz) + ez = Zpos (digits2_pos m) + e /\
  ez <= e /\ (e' <= e -> ez = e') /\
  Zpos mz = Zpos m * 2 ^ (e - ez).
Proof.
  unfold shl_align. destruct (e' - e) as [|d|d] eqn:E.
  - repeat split; try lia. rewrite Z.sub_diag. simpl. lia.
  - repeat split; try lia. rewrite Z.sub_diag. simpl. lia.
  - assert (Hd : e - e' = Zpos d) by lia.
    repeat split; try lia.
    + rewrite iter_xO_value. rewrite <- (F2R_shift (Zpos m) e (Zpos d)) by lia.
      f_equal. lia.
    + rewrite iter_xO_digits. lia.
    + rewrite iter_xO_value, Hd. reflexivity.
Qed.

Lemma binary_round_bound s m e mB eB :
  SpecFloat.bounded prec emax mB eB = true ->
  (F2R (Zpos m) e <= F2R (Zpos mB) eB)%R ->
  signed_within s (F2R (Zpos mB) eB) (binary_round prec emax s m e).
Proof.
  intros HB Hle. unfold binary_round.
  pose proof (shl_align_spec m e (fexp prec emax (Zpos (digits2_pos m) + e))) as S.
  destruct (shl_align m e (fexp prec emax (Zpos (digits2_pos m) + e))) as [mz ez].
  destruct S as (V & D & L & A & _).
  apply binary_round_aux_bound; try assumption; try lia.
  - simpl Zdigits2. rewrite D.
    destruct (Z_le_gt_dec (fexp prec emax (Zpos (digits2_pos m) + e)) e); lia.
  - rewrite V. exact Hle.
Qed.

Lemma binary_normalize_bound m e mB eB :
  SpecFloat.bounded prec emax mB eB = true ->
  (Rabs (F2R m e) <= F2R (Zpos mB) eB)%R ->
  rounds_within (F2R m e) (F2R (Zpos mB) eB) (binary_normalize prec emax m e false).
Proof.
  intros HB Hle. destruct m as [|p|p]; simpl binary_normalize.
  - assert (0 < F2R (Zpos mB) eB)%R by (apply F2R_pos; lia).
    unfold rounds_within. simpl. rewrite Rabs_R0. repeat split; lra.
  - pose proof (F2R_pos (Zpos p) e ltac:(lia)) as P.
    rewrite Rabs_pos_eq in Hle by lra.
    apply signed_within_rounds with (s := false); [|exact P].
    apply binary_round_bound; assumption.
  - pose proof (F2R_pos (Zpos p) e ltac:(lia)) as P.
    change (Zneg p) with (- Zpos p) in *. rewrite F2R_opp in *.
    rewrite Rabs_Ropp, Rabs_pos_eq in Hle by lra.
    apply signed_within_rounds with (s := true); [|lra].
    apply binary_round_bound; assumption.
Qed.

Lemma F2R_add m1 m2 e : F2R (m1 + m2) e = (F2R m1 e + F2R m2 e)%R.
Proof. unfold F2R. rewrite plus_IZR. ring. Qed.

Lemma F2R_sub m1 m2 e : F2R (m1 - m2) e = (F2R m1 e - F2R m2 e)%R.
Proof. unfold F2R. rewrite minus_IZR. ring. Qed.

Lemma F2R_cond_Zopp s m e :
  F2R (cond_Zopp s m) e = if s then (- F2R m e)%R else F2R m e.
Proof. destruct s; simpl; [apply F2R_opp | reflexivity]. Qed.

(** The aligned mantissa of an operand of an addition carries its value. *)
Lemma aligned_value s m e ez :
  ez <= e ->
  F2R (cond_Zopp s (Zpos (fst (shl_align m e ez)))) ez = SF2R (S754_finite s m e).
Proof.
  intros H. pose proof (shl_align_spec m e ez) as S.
  destruct (shl_align m e ez) as [mz ez']. destruct S as (V & _ & _ & A & _).
  simpl fst. simpl SF2R. rewrite !F2R_cond_Zopp. rewrite (A H) in V. rewrite V. reflexivity.
Qed.

Lemma rounds_within_exact x b r :
  is_finite_SF r = true -> SF2R r = x -> (Rabs x <= b)%R -> rounds_within x b r.
Proof. intros F E H. unfold rounds_within. rewrite E. repeat split; auto. Qed.

Lemma SFadd_bound x y mB eB :
  is_finite_SF x = true -> is_finite_SF y = true ->
  SpecFloat.bounded prec emax mB eB = true ->
  (Rabs (SF2R x + SF2R y) <= F2R (Zpos mB) eB)%R ->
  rounds_within (SF2R x + SF2R y) (F2R (Zpos mB) eB) (SFadd prec emax x y).
Proof.
  intros Fx Fy HB Hle.
  destruct x as [sx|sx| |sx mx ex]; try discriminate;
  destruct y as [sy|sy| |sy my ey]; try discriminate.
  - assert (0 < F2R (Zpos mB) eB)%R by (apply F2R_pos; lia).
    apply rounds_within_exact; [destruct sx, sy; reflexivity| |exact Hle].
    destruct sx, sy; simpl; lra.
  - apply rounds_within_exact; [reflexivity| |exact Hle]. simpl. lra.
  - apply rounds_within_exact; [reflexivity| |exact Hle]. simpl. lra.
  - unfold SFadd.
    rewrite <- (aligned_value sx mx ex (Z.min ex ey)) in * by lia.
    rewrite <- (aligned_value sy my ey (Z.min ex ey)) in * by lia.
    rewrite <- F2R_add in *.
    apply binary_normalize_bound; assumption.
Qed.

Lemma SFsub_bound x y mB eB :
  is_finite_SF x = true -> is_finite_SF y = true ->
  SpecFloat.bounded prec emax mB eB = true ->
  (Rabs (SF2R x - SF2R y) <= F2R (Zpos mB) eB)%R ->
  rounds_within (SF2R x - SF2R y) (F2R (Zpos mB) eB) (SFsub prec emax x y).
Proof.
  intros Fx Fy HB Hle.
  destruct x as [sx|sx| |sx mx ex]; try discriminate;
  destruct y as [sy|sy| |sy my ey]; try discriminate.
  - assert (0 < F2R (Zpos mB) eB)%R by (apply F2R_pos; lia).
    apply rounds_within_exact; [destruct sx, sy; reflexivity| |exact Hle].
    destruct sx, sy; simpl; lra.
  - apply rounds_within_exact; [reflexivity| |exact Hle].
    simpl. rewrite !F2R_cond_Zopp. destruct sy; simpl; lra.
  - apply rounds_within_exact; [reflexivity| |exact Hle]. simpl. lra.
  - unfold SFsub.
    rewrite <- (aligned_value sx mx ex (Z.min ex ey)) in * by lia.
    rewrite <- (aligned_value sy my ey (Z.min ex ey)) in * by lia.
    rewrite <- F2R_sub in *.
    apply binary_normalize_bound; assumption.
Qed.

Lemma digits2_mul_ge m1 m2 :
  Zpos (digits2_pos m1) + Zpos (digits2_pos m2) - 1 <= Zpos (digits2_pos (m1 * m2)).
Proof.
  destruct (digits2_bounds m1) as [L1 _]. destruct (digits2_bounds m2) as [L2 _].
  destruct (digits2_bounds (m1 * m2)) as [_ U].
  rewrite Pos2Z.inj_mul in U.
  assert (H : 2 ^ (Zpos (digits2_pos m1) - 1 + (Zpos (digits2_pos m2) - 1))
              < 2 ^ Zpos (digits2_pos (m1 * m2))).
  { rewrite Z.pow_add_r by lia.
    assert (0 < 2 ^ (Zpos (digits2_pos m1) - 1)) by (apply Z.pow_pos_nonneg; lia).
    assert (0 < 2 ^ (Zpos (digits2_pos m2) - 1)) by (apply Z.pow_pos_nonneg; lia).
    nia. }
  apply Z.pow_lt_mono_r_iff in H; lia.
Qed.

Lemma F2R_mul m1 e1 m2 e2 : F2R (m1 * m2) (e1 + e2) = (F2R m1 e1 * F2R m2 e2)%R.
Proof. unfold F2R. rewrite mult_IZR, bpow_add. ring. Qed.

Lemma SF2R_finite_abs s m e : Rabs (SF2R (S754_finite s m e)) = F2R (Zpos m) e.
Proof.
  simpl. rewrite F2R_cond_Zopp. pose proof (F2R_pos (Zpos m) e ltac:(lia)).
  destruct s; [rewrite Rabs_Ropp|]; apply Rabs_pos_eq; lra.
Qed.

Lemma SFmul_bound x y mB eB :
  is_finite_SF x = true -> is_finite_SF y = true ->
  valid_binary x = true -> valid_binary y = true ->
  SpecFloat.bounded prec emax mB eB = true ->
  (Rabs (SF2R x * SF2R y) <= F2R (Zpos mB) eB)%R ->
  rounds_within (SF2R x * SF2R y) (F2R (Zpos mB) eB) (SFmul prec emax x y).
Proof.
  intros Fx Fy Vx Vy HB Hle.
  assert (HBpos : (0 < F2R (Zpos mB) eB)%R) by (apply F2R_pos; lia).
  destruct x as [sx|sx| |sx mx ex]; try discriminate;
  destruct y as [sy|sy| |sy my ey]; try discriminate;
  try (apply rounds_within_exact; [reflexivity| simpl; lra |exact Hle]).
  unfold SFmul.
  rewrite Rabs_mult, !SF2R_finite_abs, <- F2R_mul, <- Pos2Z.inj_mul in Hle.
  assert (Hs : if xorb sx sy
               then (SF2R (S754_finite sx mx ex) * SF2R (S754_finite sy my ey) < 0)%R
               else (0 < SF2R (S754_finite sx mx ex) * SF2R (S754_finite sy my ey))%R).
  { simpl SF2R. rewrite !F2R_cond_Zopp.
    pose proof (F2R_pos (Zpos mx) ex ltac:(lia)). pose proof (F2R_pos (Zpos my) ey ltac:(lia)).
    destruct sx, sy; simpl; nra. }
  apply signed_within_rounds with (s := xorb sx sy); [|exact Hs].
  apply binary_round_aux_bound; try assumption; try lia.
  simpl valid_binary in Vx, Vy.
  destruct (bounded_inv _ _ Vx) as [Cx _]. destruct (bounded_inv _ _ Vy) as [Cy _].
  simpl Zdigits2. pose proof (digits2_mul_ge mx my).
  revert Cx Cy. unfold fexp, SpecFloat.emin, prec, emax. lia.
Qed.

(** ** Comparison *)

Lemma canonical_lt m1 e1 m2 e2 :
  fexp prec emax (Zpos (digits2_pos m1) + e1) = e1 ->
  fexp prec emax (Zpos (digits2_pos m2) + e2) = e2 ->
  e1 < e2 -> (F2R (Zpos m1) e1 < F2R (Zpos m2) e2)%R.
Proof.
  intros C1 C2 H.
  assert (D : Zpos (digits2_pos m1) + e1 <= Zpos (digits2_pos m2) - 1 + e2).
  { destruct (Z_le_gt_dec (Zpos (digits2_pos m2) + e2) (Zpos (digits2_pos m1) + e1)) as [G|G]; [|lia].
    apply fexp_mono in G. lia. }
  destruct (F2R_digits m1 e1) as [_ U]. destruct (F2R_digits m2 e2) as [L _].
  apply bpow_le in D. lra.
Qed.

Lemma compare_pos m1 e1 m2 e2 :
  fexp prec emax (Zpos (digits2_pos m1) + e1) = e1 ->
  fexp prec emax (Zpos (digits2_pos m2) + e2) = e2 ->
  agrees (Some match Z.compare e1 e2 with
               | Lt => Lt
               | Gt => Gt
               | Eq => Pos.compare_cont Eq m1 m2
               end)
         (F2R (Zpos m1) e1) (F2R (Zpos m2) e2).
Proof.
  intros C1 C2. destruct (Z.compare_spec e1 e2) as [E|L|G].
  - subst e2. change (Pos.compare_cont Eq m1 m2) with (Pos.compare m1 m2).
    pose proof (bpow_pos e1) as P. unfold F2R.
    destruct (Pos.compare_spec m1 m2) as [E|L|G]; simpl.
    + subst. reflexivity.
    + apply Rmult_lt_compat_r; [exact P|]. apply IZR_lt. lia.
    + apply Rmult_lt_compat_r; [exact P|]. apply IZR_lt. lia.
  - simpl. apply canonical_lt; assumption.
  - simpl. apply canonical_lt; assumption || lia.
Qed.

Lemma SFcompare_spec x y :
  valid_binary x = true -> valid_binary y = true ->
  is_finite_SF x = true -> is_finite_SF y = true ->
  agrees (SFcompare x y) (SF2R x) (SF2R y).
Proof.
  intros Vx Vy Fx Fy.
  destruct x as [sx|sx| |sx mx ex]; try discriminate;
  destruct y as [sy|sy| |sy my ey]; try discriminate.
  - simpl. reflexivity.
  - simpl. rewrite F2R_cond_Zopp. pose proof (F2R_pos (Zpos my) ey ltac:(lia)).
    destruct sy; simpl; lra.
  - simpl. rewrite F2R_cond_Zopp. pose proof (F2R_pos (Zpos mx) ex ltac:(lia)).
    destruct sx; simpl; lra.
  - simpl valid_binary in Vx, Vy.
    destruct (bounded_inv _ _ Vx) as [Cx _]. destruct (bounded_inv _ _ Vy) as [Cy _].
    pose proof (F2R_pos (Zpos mx) ex ltac:(lia)). pose proof (F2R_pos (Zpos my) ey ltac:(lia)).
    pose proof (compare_pos mx ex my ey Cx Cy) as C.
    simpl SFcompare. simpl SF2R. rewrite !F2R_cond_Zopp.
    destruct sx, sy; simpl; try lra;
      destruct (ex ?= ey); simpl in *; try lra;
      destruct (Pos.compare_cont Eq mx my); simpl in *; lra.
Qed.

Lemma float_compare_spec x y :
  float_finite x -> float_finite y ->
  agrees (SFcompare (Prim2SF x) (Prim2SF y)) (float_val x) (float_val y).
Proof. intros; apply SFcompare_spec; auto using Prim2SF_valid. Qed.

Lemma leb_val x y :
  float_finite x -> float_finite y ->
  ((x <=? y)%float = true <-> (float_val x <= float_val y)%R).
Proof.
  intros Fx Fy. rewrite leb_spec. unfold SFleb.
  pose proof (float_compare_spec x y Fx Fy) as C.
  destruct (SFcompare (Prim2SF x) (Prim2SF y)) as [[| |]|]; simpl in C;
    split; intros; try reflexivity; try discriminate; try lra; contradiction.
Qed.

Lemma ltb_val x y :
  float_finite x -> float_finite y ->
  ((x <? y)%float = true <-> (float_val x < float_val y)%R).
Proof.
  intros Fx Fy. rewrite ltb_spec. unfold SFltb.
  pose proof (float_compare_spec x y Fx Fy) as C.
  destruct (SFcompare (Prim2SF x) (Prim2SF y)) as [[| |]|]; simpl in C;
    split; intros; try reflexivity; try discriminate; try lra; contradiction.
Qed.

(** A float between two finite floats is finite. *)
Lemma finite_between lo x hi :
  float_finite lo -> float_finite hi ->
  (lo <=? x)%float = true -> (x <=? hi)%float = true -> float_finite x.
Proof.
  unfold float_finite. rewrite !leb_spec. unfold SFleb.
  destruct (Prim2SF lo) as [sl|sl| |sl ml el]; try discriminate;
  destruct (Prim2SF hi) as [sh|sh| |sh mh eh]; try discriminate;
  destruct (Prim2SF x) as [s|[|]| |s m e]; simpl; intros; try reflexivity; try discriminate;
  try (destruct sl; discriminate); try (destruct sh; discriminate).
Qed.

(** ** The primitive operations *)

Lemma add_bound x y mB eB :
  float_finite x -> float_finite y ->
  SpecFloat.bounded prec emax mB eB = true ->
  (Rabs (float_val x + float_val y) <= F2R (Zpos mB) eB)%R ->
  float_finite (x + y)%float /\
  rounds_within (float_val x + float_val y) (F2R (Zpos mB) eB) (Prim2SF (x + y)%float).
Proof.
  intros Fx Fy HB H. rewrite add_spec.
  pose proof (SFadd_bound _ _ _ _ Fx Fy HB H) as R.
  split; [unfold float_finite; rewrite add_spec|]; [apply R | exact R].
Qed.

Lemma sub_bound x y mB eB :
  float_finite x -> float_finite y ->
  SpecFloat.bounded prec emax mB eB = true ->
  (Rabs (float_val x - float_val y) <= F2R (Zpos mB) eB)%R ->
  float_finite (x - y)%float /\
  rounds_within (float_val x - float_val y) (F2R (Zpos mB) eB) (Prim2SF (x - y)%float).
Proof.
  intros Fx Fy HB H. rewrite sub_spec.
  pose proof (SFsub_bound _ _ _ _ Fx Fy HB H) as R.
  split; [unfold float_finite; rewrite sub_spec|]; [apply R | exact R].
Qed.

Lemma mul_bound x y mB eB :
  float_finite x -> float_finite y ->
  SpecFloat.bounded prec emax mB eB = true ->
  (Rabs (float_val x * float_val y) <= F2R (Zpos mB) eB)%R ->
  float_finite (x * y)%float /\
  rounds_within (float_val x * float_val y) (F2R (Zpos mB) eB) (Prim2SF (x * y)%float).
Proof.
  intros Fx Fy HB H. rewrite mul_spec.
  pose proof (SFmul_bound _ _ _ _ Fx Fy (Prim2SF_valid x) (Prim2SF_valid y) HB H) as R.
  split; [unfold float_finite; rewrite mul_spec|]; [apply R | exact R].
Qed.

(** ** The error of a rounding *)

Lemma F2R_lt m1 m2 e : m1 < m2 -> (F2R m1 e < F2R m2 e)%R.
Proof.
  unfold F2R. intros H. apply IZR_lt in H. pose proof (bpow_pos e). nra.
Qed.

(** Dropping [k] bits of a mantissa loses less than one unit of the
    bits kept. *)
Lemma F2R_div m e k :
  0 <= m -> 0 <= k ->
  (F2R (m / 2 ^ k) (e + k) <= F2R m e < F2R (m / 2 ^ k) (e + k) + bpow (e + k))%R.
Proof.
  intros Hm Hk.
  assert (P : 0 < 2 ^ k) by (apply Z.pow_pos_nonneg; lia).
  pose proof (Z.div_mod m (2 ^ k) ltac:(lia)) as DM.
  pose proof (Z.mod_pos_bound m (2 ^ k) P) as MB.
  assert (S : forall q, F2R q (e + k) = F2R (q * 2 ^ k) e).
  { intros q. rewrite <- (F2R_shift q (e + k) k) by lia. f_equal. ring. }
  assert (U : bpow (e + k) = F2R 1 (e + k)) by (unfold F2R; lra).
  rewrite U, <- F2R_add, !S. split.
  - apply F2R_le. nia.
  - apply F2R_lt. nia.
Qed.

(** The rounding step from an exact mantissa: the result is within two
    units in the last place of any float that bounds the value. *)
Lemma binary_round_aux_near s m e mB eB :
  0 < m ->
  e <= fexp prec emax (Zdigits2 m + e) ->
  SpecFloat.bounded prec emax mB eB = true ->
  (F2R m e <= F2R (Zpos mB) eB)%R ->
  (Rabs (SF2R (binary_round_aux prec emax s m e loc_Exact) - F2R (cond_Zopp s m) e)
   <= 2 * bpow eB)%R.
Proof.
  intros Hm Hal HB Hle.
  destruct m as [|p|p]; try lia. clear Hm.
  destruct (bounded_inv _ _ HB) as [HcB HeB].
  set (B := F2R (Zpos mB) eB) in *.
  simpl Zdigits2 in Hal.
  set (f := fexp prec emax (Zpos (digits2_pos p) + e)) in *.
  assert (Hf : f <= eB).
  { rewrite <- HcB. apply fexp_mono. apply digits_le_of_F2R_le. exact Hle. }
  (* the value and the result, sign apart *)
  assert (G : forall r : R,
             (Rabs (r - F2R (Zpos p) e) <= 2 * bpow eB)%R ->
             (Rabs ((if s then - r else r) - F2R (cond_Zopp s (Zpos p)) e)
              <= 2 * bpow eB)%R).
  { intros r H. rewrite F2R_cond_Zopp. destruct s; [|exact H].
    replace (- r - - F2R (Zpos p) e)%R with (- (r - F2R (Zpos p) e))%R by ring.
    rewrite Rabs_Ropp. exact H. }
  unfold binary_round_aux, shr_fexp. simpl Zdigits2. fold f.
  pose proof (shr_loc_spec (Zpos p) loc_Exact e (f - e) ltac:(lia) ltac:(lia)) as S1.
  destruct (shr (shr_record_of_loc (Zpos p) loc_Exact) e (f - e)) as [mrs e'].
  destruct S1 as (-> & Em1 & Ex1).
  replace (e + (f - e)) with f by ring.
  destruct (round_nearest_even_bounds mrs) as [[Lo Hi] Exact].
  set (m2 := round_nearest_even (shr_m mrs) (loc_of_shr_record mrs)) in *.
  assert (P1 : 0 < 2 ^ (f - e)) by (apply Z.pow_pos_nonneg; lia).
  assert (Hm1 : 0 <= shr_m mrs) by (rewrite Em1; apply Z.div_pos; lia).
  pose proof (F2R_div (Zpos p) e (f - e) ltac:(lia) ltac:(lia)) as D1.
  replace (e + (f - e)) with f in D1 by ring. rewrite <- Em1 in D1.
  (* after the first shift and the rounding *)
  assert (N2 : (F2R (Zpos p) e - bpow f < F2R m2 f <= F2R (Zpos p) e + bpow f)%R).
  { assert (A : (F2R (shr_m mrs) f <= F2R m2 f)%R) by (apply F2R_le; lia).
    assert (C : (F2R m2 f <= F2R (shr_m mrs + 1) f)%R) by (apply F2R_le; lia).
    rewrite F2R_add in C. replace (F2R 1 f) with (bpow f) in C by (unfold F2R; lra).
    pose proof (bpow_pos f). lra. }
  assert (Hm2R : (F2R m2 f <= B)%R).
  { set (MB := Zpos mB * 2 ^ (eB - f)).
    assert (HBf : B = F2R MB f).
    { unfold B, MB. rewrite <- (F2R_shift (Zpos mB) eB (eB - f)) by lia.
      f_equal. ring. }
    assert (HBe : F2R (MB * 2 ^ (f - e)) e = B).
    { rewrite HBf. rewrite <- (F2R_shift MB f (f - e)) by lia. f_equal. ring. }
    assert (HmZ : Zpos p <= MB * 2 ^ (f - e)).
    { apply (F2R_le_inv _ _ e). rewrite HBe. exact Hle. }
    rewrite HBf. apply F2R_le.
    pose proof (Z.div_mod (Zpos p) (2 ^ (f - e)) ltac:(lia)) as DM.
    pose proof (Z.mod_pos_bound (Zpos p) (2 ^ (f - e)) P1) as MBd.
    rewrite <- Em1 in DM.
    destruct (Z.eq_dec (Zpos p mod 2 ^ (f - e)) 0) as [Z0|NZ].
    - rewrite (Exact (proj2 Ex1 (conj eq_refl Z0))). nia.
    - assert (shr_m mrs < MB) by nia. lia. }
  pose proof (bpow_le f eB Hf) as Bf. pose proof (bpow_pos f) as Pf.
  simpl shr_record_of_loc.
  set (k2 := fexp prec emax (Zdigits2 m2 + f) - f).
  destruct (Z_le_gt_dec k2 0) as [K|K].
  - rewrite shr_nonpos by exact K. simpl shr_m.
    destruct m2 as [|q|q] eqn:Eq2; try lia.
    + replace (SF2R (S754_zero s)) with (if s then (- 0)%R else 0%R)
        by (destruct s; simpl; lra).
      apply G. replace (F2R 0 f) with 0%R in N2 by (unfold F2R; lra).
      apply Rabs_le. lra.
    + replace (f <=? emax - prec) with true by (symmetry; apply Z.leb_le; lia).
      simpl SF2R. rewrite F2R_cond_Zopp.
      apply G. apply Rabs_le. lra.
  - pose proof (shr_spec m2 f k2 ltac:(lia) ltac:(lia)) as S2.
    destruct (shr {| shr_m := m2; shr_r := false; shr_s := false |} f k2) as [mrs2 e2].
    destruct S2 as (-> & Em3 & _).
    assert (P2 : 0 < 2 ^ k2) by (apply Z.pow_pos_nonneg; lia).
    assert (Hm3 : 0 <= shr_m mrs2) by (rewrite Em3; apply Z.div_pos; lia).
    pose proof (F2R_div m2 f k2 ltac:(lia) ltac:(lia)) as D2. rewrite <- Em3 in D2.
    assert (He2 : shr_m mrs2 <> 0 -> f + k2 <= eB).
    { intros NZ.
      assert (Hm2pos : 0 < m2).
      { destruct (Z_lt_le_dec 0 m2) as [L|L]; [exact L|].
        assert (m2 = 0) by lia. subst m2. rewrite H, Z.div_0_l in Em3 by lia. lia. }
      destruct m2 as [|q2|q2] eqn:Eq2; try lia.
      unfold k2. simpl Zdigits2.
      replace (f + (fexp prec emax (Z.pos (digits2_pos q2) + f) - f))
        with (fexp prec emax (Z.pos (digits2_pos q2) + f)) by ring.
      rewrite <- HcB. apply fexp_mono. apply digits_le_of_F2R_le. exact Hm2R. }
    destruct (shr_m mrs2) as [|q|q] eqn:Eq3; try lia.
    + (* the second shift leaves nothing: the mantissa was zero *)
      assert (Z2 : m2 = 0).
      { destruct (Z.eq_dec m2 0) as [E|NE]; [exact E|].
        exfalso.
        assert (Hm2pos : 0 < m2) by lia.
        destruct m2 as [|q2|q2] eqn:Eq2; try lia.
        (* a positive mantissa keeps its leading bit *)
        assert (Dg : k2 < Zpos (digits2_pos q2)).
        { unfold k2. simpl Zdigits2. unfold fexp, SpecFloat.emin, prec, emax.
          pose proof (fexp_ge_emin (Zpos (digits2_pos p) + e)) as Ge. fold f in Ge.
          lia. }
        destruct (digits2_bounds q2) as [L2 _].
        assert (2 ^ k2 <= 2 ^ (Zpos (digits2_pos q2) - 1))
          by (apply Z.pow_le_mono_r; lia).
        assert (1 <= Zpos q2 / 2 ^ k2).
        { apply Z.div_le_lower_bound; lia. }
        lia. }
      replace (SF2R (S754_zero s)) with (if s then (- 0)%R else 0%R)
        by (destruct s; simpl; lra).
      apply G. rewrite Z2 in N2. replace (F2R 0 f) with 0%R in N2 by (unfold F2R; lra).
      apply Rabs_le. lra.
    + assert (He : f + k2 <= eB) by (apply He2; lia).
      replace (f + k2 <=? emax - prec) with true by (symmetry; apply Z.leb_le; lia).
      simpl SF2R. rewrite F2R_cond_Zopp.
      apply G. pose proof (bpow_le (f + k2) eB He). pose proof (bpow_pos (f + k2)).
      apply Rabs_le. lra.
Qed.

Lemma SFmul_near x y mB eB :
  is_finite_SF x = true -> is_finite_SF y = true ->
  valid_binary x = true -> valid_binary y = true ->
  SpecFloat.bounded prec emax mB eB = true ->
  (Rabs (SF2R x * SF2R y) <= F2R (Zpos mB) eB)%R ->
  (Rabs (SF2R (SFmul prec emax x y) - SF2R x * SF2R y) <= 2 * bpow eB)%R.
Proof.
  intros Fx Fy Vx Vy HB Hle.
  pose proof (bpow_pos eB) as Pe.
  destruct x as [sx|sx| |sx mx ex]; try discriminate;
  destruct y as [sy|sy| |sy my ey]; try discriminate;
  try (simpl; rewrite ?Rmult_0_l, ?Rmult_0_r, Rminus_0_r, Rabs_R0; lra).
  unfold SFmul.
  rewrite Rabs_mult, !SF2R_finite_abs, <- F2R_mul, <- Pos2Z.inj_mul in Hle.
  replace (SF2R (S754_finite sx mx ex) * SF2R (S754_finite sy my ey))%R
    with (F2R (cond_Zopp (xorb sx sy) (Zpos (mx * my))) (ex + ey)).
  - apply (binary_round_aux_near _ _ _ mB eB); try assumption; try lia.
    simpl valid_binary in Vx, Vy.
    destruct (bounded_inv _ _ Vx) as [Cx _]. destruct (bounded_inv _ _ Vy) as [Cy _].
    simpl Zdigits2. pose proof (digits2_mul_ge mx my).
    revert Cx Cy. unfold fexp, SpecFloat.emin, prec, emax. lia.
  - simpl SF2R. rewrite !F2R_cond_Zopp, Pos2Z.inj_mul, F2R_mul.
    destruct sx, sy; simpl; ring.
Qed.

(** The product of two floats is within two units in the last place of a
    float that bounds it. *)
Lemma mul_near x y mB eB :
  float_finite x -> float_finite y ->
  SpecFloat.bounded prec emax mB eB = true ->
  (Rabs (float_val x * float_val y) <= F2R (Zpos mB) eB)%R ->
  (Rabs (float_val (x * y)%float - float_val x * float_val y) <= 2 * bpow eB)%R.
Proof.
  intros Fx Fy HB H. unfold float_val at 1. rewrite mul_spec.
  apply (SFmul_near _ _ mB eB); auto using Prim2SF_valid.
Qed.

(** ** Truncation *)

Lemma F2R_int m e : 0 <= e -> F2R m e = IZR (m * 2 ^ e).
Proof. intros H. unfold F2R. rewrite mult_IZR, bpow_IZR by assumption. reflexivity. Qed.

Lemma bpow_neg k : bpow (- k) = (/ bpow k)%R.
Proof.
  pose proof (bpow_pos k). pose proof (bpow_add (- k) k) as H1.
  replace (- k + k) with 0 in H1 by ring. change (bpow 0) with 1%R in H1.
  apply Rmult_eq_reg_r with (bpow k); [|lra]. rewrite <- H1. field. lra.
Qed.

(** [Z.shiftl m e] is the integer part of [m * 2^e]. *)
Lemma shiftl_trunc m e :
  (IZR (Z.shiftl (Zpos m) e) <= F2R (Zpos m) e < IZR (Z.shiftl (Zpos m) e) + 1)%R.
Proof.
  destruct (Z_le_gt_dec 0 e) as [H|H].
  - rewrite Z.shiftl_mul_pow2, F2R_int by assumption. lra.
  - set (k := - e). assert (Hk : 0 < k) by (unfold k; lia).
    assert (E : Z.shiftl (Zpos m) e = Zpos m / 2 ^ k).
    { replace e with (- k) by (unfold k; ring).
      rewrite <- Z.shiftr_opp_r, Z.opp_involutive. apply Z.shiftr_div_pow2. lia. }
    assert (P : 0 < 2 ^ k) by (apply Z.pow_pos_nonneg; lia).
    pose proof (Z.div_mod (Zpos m) (2 ^ k) ltac:(lia)) as DM.
    pose proof (Z.mod_pos_bound (Zpos m) (2 ^ k) P) as [M0 M1].
    rewrite E. unfold F2R. replace e with (- k) by (unfold k; ring).
    rewrite bpow_neg, bpow_IZR by lia.
    set (q := Zpos m / 2 ^ k) in *. set (r := Zpos m mod 2 ^ k) in *.
    rewrite DM. rewrite plus_IZR, mult_IZR.
    apply IZR_lt in P. apply IZR_le in M0. apply IZR_lt in M1.
    assert (IP : (0 < / IZR (2 ^ k))%R) by (apply Rinv_0_lt_compat; exact P).
    replace ((IZR (2 ^ k) * IZR q + IZR r) * / IZR (2 ^ k))%R
      with (IZR q + IZR r * / IZR (2 ^ k))%R by (field; lra).
    assert (0 <= IZR r * / IZR (2 ^ k))%R by (apply Rmult_le_pos; lra).
    assert (IZR r * / IZR (2 ^ k) < 1)%R.
    { rewrite <- (Rinv_r (IZR (2 ^ k))) by lra. apply Rmult_lt_compat_r; assumption. }
    split; lra.
Qed.

Lemma trunc_SF_spec x :
  is_finite_SF x = true ->
  exists z, trunc_SF x = Some z /\ is_truncation z (SF2R x).
Proof.
  destruct x as [s|s| |s m e]; try discriminate; intros _.
  - exists 0. split; [reflexivity|]. simpl. split; lra.
  - exists (cond_Zopp s (Z.shiftl (Zpos m) e)). split; [reflexivity|].
    simpl SF2R. rewrite F2R_cond_Zopp.
    pose proof (shiftl_trunc m e) as T. pose proof (F2R_pos (Zpos m) e ltac:(lia)) as P.
    unfold is_truncation. destruct s; simpl cond_Zopp; [rewrite opp_IZR|]; split; intros; lra.
Qed.

Lemma is_truncation_abs_le z x n :
  is_truncation z x -> (Rabs x <= IZR n)%R -> - n <= z <= n.
Proof.
  intros [Tp Tn] H. destruct (Rle_dec 0 x) as [P|N].
  - rewrite Rabs_pos_eq in H by assumption. destruct (Tp P) as [L U].
    assert (IZR z <= IZR n)%R by lra. assert (IZR (-1) < IZR z)%R by (simpl; lra).
    apply le_IZR in H0. apply lt_IZR in H1. lia.
  - assert (N' : (x <= 0)%R) by lra. rewrite Rabs_left1 in H by assumption.
    destruct (Tn N') as [L U].
    assert (IZR (- n) <= IZR z)%R by (rewrite opp_IZR; lra).
    assert (IZR z < IZR 1)%R by (simpl; lra).
    apply le_IZR in H0. apply lt_IZR in H1. lia.
Qed.

(** ** Intervals around zero *)

Lemma F2R_const a k : 0 <= k -> F2R (a * 2 ^ k) (- k) = IZR a.
Proof.
  intros H. replace (- k) with (0 - k) by ring. rewrite F2R_shift by assumption.
  unfold F2R. simpl. lra.
Qed.

Lemma val_0 : float_val 0 = 0%R.
Proof. reflexivity. Qed.

Lemma val_1 : float_val 1 = 1%R.
Proof. exact (F2R_const 1 52 ltac:(lia)). Qed.

Lemma val_m1 : float_val (-1) = (-1)%R.
Proof. exact (F2R_const (-1) 52 ltac:(lia)). Qed.

Lemma val_32767 : float_val 32767 = 32767%R.
Proof. exact (F2R_const 32767 38 ltac:(lia)). Qed.

Lemma bound_one : F2R (Zpos 4503599627370496) (-52) = 1%R.
Proof. exact (F2R_const 1 52 ltac:(lia)). Qed.

Lemma bound_two : F2R (Zpos 4503599627370496) (-51) = 2%R.
Proof. exact (F2R_const 2 51 ltac:(lia)). Qed.

Lemma bound_32767 : F2R (Zpos 9006924376834048) (-38) = 32767%R.
Proof. exact (F2R_const 32767 38 ltac:(lia)). Qed.

Lemma finite_0 : float_finite 0.
Proof. reflexivity. Qed.

Lemma finite_1 : float_finite 1.
Proof. reflexivity. Qed.

Lemma finite_m1 : float_finite (-1).
Proof. reflexivity. Qed.

Lemma finite_32767 : float_finite 32767.
Proof. reflexivity. Qed.

Lemma finite_0_7 : float_finite f0_7.
Proof. reflexivity. Qed.

#[local] Hint Resolve finite_0 finite_1 finite_m1 finite_32767 finite_0_7 : floats.

Lemma in_unit_val x :
  in_unit x = true <-> float_finite x /\ (0 <= float_val x <= 1)%R.
Proof.
  unfold in_unit. rewrite andb_true_iff. split.
  - intros [L U]. assert (F : float_finite x) by (apply (finite_between 0 x 1); auto with floats).
    apply leb_val in L; auto with floats. apply leb_val in U; auto with floats.
    rewrite val_0 in L. rewrite val_1 in U. auto.
  - intros [F [L U]]. split; apply leb_val; try solve [auto with floats];
      rewrite ?val_0, ?val_1; lra.
Qed.

Lemma Rabs_bound_inv a b : (Rabs a <= b)%R -> (- b <= a <= b)%R.
Proof.
  intros H. destruct (Rle_dec 0 a) as [P|N].
  - rewrite Rabs_pos_eq in H by exact P. lra.
  - rewrite Rabs_left1 in H by lra. lra.
Qed.

Lemma in_sym_unit_val x :
  in_sym_unit x = true <-> float_finite x /\ (Rabs (float_val x) <= 1)%R.
Proof.
  unfold in_sym_unit. rewrite andb_true_iff. split.
  - intros [L U]. assert (F : float_finite x) by (apply (finite_between (-1) x 1); auto with floats).
    apply leb_val in L; auto with floats. apply leb_val in U; auto with floats.
    rewrite val_m1 in L. rewrite val_1 in U. split; [exact F|]. apply Rabs_le. lra.
  - intros [F A]. apply Rabs_bound_inv in A.
    split; apply leb_val; try solve [auto with floats];
      rewrite ?val_m1, ?val_1; lra.
Qed.

Lemma in_unit_sym x : in_unit x = true -> in_sym_unit x = true.
Proof.
  rewrite in_unit_val, in_sym_unit_val. intros [F H]. split; [exact F|].
  rewrite Rabs_pos_eq; lra.
Qed.

(** The phase update keeps the phase in [0, 1] when the block lasts at
    most one second. *)
Lemma phase_step_in_unit p d :
  in_unit p = true -> in_unit d = true ->
  in_unit (if (1 <? p + d)%float then (p + d - 1)%float else (p + d)%float) = true.
Proof.
  intros Hp Hd. apply in_unit_val in Hp. apply in_unit_val in Hd.
  destruct Hp as [Fp Vp]. destruct Hd as [Fd Vd].
  destruct (add_bound p d 4503599627370496 (-51) Fp Fd eq_refl) as [Fs (_ & As & Ps & _)].
  { rewrite bound_two. rewrite Rabs_pos_eq; lra. }
  rewrite bound_two in As. fold (float_val (p + d)) in As, Ps.
  assert (Ps' : (0 <= float_val (p + d))%R) by (apply Ps; lra).
  rewrite Rabs_pos_eq in As by exact Ps'.
  destruct (1 <? p + d)%float eqn:W.
  - apply ltb_val in W; auto with floats. rewrite val_1 in W.
    destruct (sub_bound (p + d) 1 4503599627370496 (-52) Fs finite_1 eq_refl)
      as [Fr (_ & Ar & Pr & _)].
    { rewrite bound_one, val_1. rewrite Rabs_pos_eq; lra. }
    rewrite bound_one in Ar. rewrite val_1 in Pr. fold (float_val (p + d - 1)) in Ar, Pr.
    apply in_unit_val. split; [exact Fr|].
    assert (0 <= float_val (p + d - 1))%R by (apply Pr; lra).
    rewrite Rabs_pos_eq in Ar by assumption. lra.
  - apply in_unit_val. split; [exact Fs|]. split; [exact Ps'|].
    destruct (Rle_dec (float_val (p + d)) 1) as [L|G]; [exact L|].
    assert (T : (1 <? p + d)%float = true).
    { apply ltb_val; auto with floats. rewrite val_1. lra. }
    congruence.
Qed.

Lemma mul_sym_unit x y :
  in_sym_unit x = true -> in_sym_unit y = true -> in_sym_unit (x * y)%float = true.
Proof.
  rewrite !in_sym_unit_val. intros [Fx Ax] [Fy Ay].
  destruct (mul_bound x y 4503599627370496 (-52) Fx Fy eq_refl) as [F (_ & A & _)].
  - rewrite bound_one, Rabs_mult. pose proof (Rabs_pos (float_val x)). pose proof (Rabs_pos (float_val y)). nra.
  - rewrite bound_one in A. auto.
Qed.

(** Scaling a sample of magnitude at most one by 32767 and truncating
    stays within sixteen bits. *)
Lemma scaled_sample_in_range x :
  in_sym_unit x = true ->
  exists z, trunc_float (x * 32767)%float = Some z /\
            is_truncation z (float_val (x * 32767)%float) /\
            -32767 <= z <= 32767.
Proof.
  rewrite in_sym_unit_val. intros [Fx Ax].
  destruct (mul_bound x 32767 9006924376834048 (-38) Fx finite_32767 eq_refl) as [F (_ & A & _)].
  - rewrite bound_32767, Rabs_mult, val_32767. rewrite (Rabs_pos_eq 32767) by lra. lra.
  - rewrite bound_32767 in A.
    destruct (trunc_SF_spec _ F) as [z [Tz Sz]].
    exists z. split; [exact Tz|]. split; [exact Sz|].
    apply (is_truncation_abs_le z _ 32767 Sz). exact A.
Qed.

Lemma ltb_leb x y : (x <? y)%float = true -> (x <=? y)%float = true.
Proof.
  rewrite ltb_spec, leb_spec. unfold SFltb, SFleb.
  destruct (SFcompare (Prim2SF x) (Prim2SF y)) as [[| |]|]; congruence.
Qed.

(** [set_amplitude] clamps: whatever is passed, the stored amplitude is
    in [0, 1]. *)
Lemma clamp_in_unit amp : in_unit (py_max 0 (py_min 1 amp)) = true.
Proof.
  unfold py_max, py_min.
  destruct (amp <? 1)%float eqn:U.
  - destruct (0 <? amp)%float eqn:L; [|reflexivity].
    unfold in_unit. rewrite (ltb_leb _ _ U), (ltb_leb _ _ L). reflexivity.
  - reflexivity.
Qed.

(** ** Conversion of integers and division *)

(** A mantissa that is already in canonical position is left alone. *)
Lemma binary_round_aux_canonical s m e :
  fexp prec emax (Zpos (digits2_pos m) + e) = e -> e <= emax - prec ->
  binary_round_aux prec emax s (Zpos m) e loc_Exact = S754_finite s m e.
Proof.
  intros C B. unfold binary_round_aux, shr_fexp. simpl Zdigits2.
  rewrite C, Z.sub_diag. simpl shr. cbv iota zeta beta.
  cbn [shr_m loc_of_shr_record round_nearest_even Zdigits2 shr_record_of_loc].
  rewrite C, Z.sub_diag. simpl shr. cbv iota zeta beta. cbn [shr_m].
  apply Z.leb_le in B. rewrite B. reflexivity.
Qed.

(** A positive integer below 2^53 is a float: its conversion is exact
    and normal. *)
Lemma float_of_Z_exact z :
  0 < z < 2 ^ 53 ->
  exists m e,
    Prim2SF (float_of_Z z) = S754_finite false m e /\
    F2R (Zpos m) e = IZR z /\
    Zpos (digits2_pos m) = 53 /\ -52 <= e <= 0.
Proof.
  intros [Hz Hu]. destruct z as [|p|p]; try lia.
  destruct (digits2_bounds p) as [L U].
  assert (Hd : Zpos (digits2_pos p) <= 53).
  { destruct (Z_le_gt_dec (Zpos (digits2_pos p)) 53) as [H|H]; [exact H|].
    assert (2 ^ 53 <= 2 ^ (Zpos (digits2_pos p) - 1)) by (apply Z.pow_le_mono_r; lia). lia. }
  unfold float_of_Z. simpl binary_normalize. unfold binary_round.
  pose proof (shl_align_spec p 0 (fexp prec emax (Zpos (digits2_pos p) + 0))) as S.
  destruct (shl_align p 0 (fexp prec emax (Zpos (digits2_pos p) + 0))) as [mz ez].
  destruct S as (V & D & Le & A & _).
  assert (Ef : fexp prec emax (Zpos (digits2_pos p) + 0) = Zpos (digits2_pos p) - 53)
    by (unfold fexp, SpecFloat.emin, prec, emax; lia).
  rewrite Ef in A. assert (Ez : ez = Zpos (digits2_pos p) - 53) by (apply A; lia).
  assert (C : fexp prec emax (Zpos (digits2_pos mz) + ez) = ez)
    by (rewrite D; unfold fexp, SpecFloat.emin, prec, emax; lia).
  rewrite binary_round_aux_canonical by (try exact C; unfold prec, emax; lia).
  exists mz, ez. split.
  - apply Prim2SF_SF2Prim. simpl. unfold SpecFloat.bounded, canonical_mantissa.
    rewrite C, Z.eqb_refl. apply Z.leb_le. unfold prec, emax. lia.
  - split; [rewrite V; unfold F2R; simpl; lra|]. lia.
Qed.

Lemma new_location_exact n k : new_location n k = loc_Exact <-> k = 0.
Proof.
  unfold new_location, new_location_even, new_location_odd.
  destruct (Z.even n); destruct (Z.eqb_spec k 0); split; intros; try reflexivity;
    try assumption; try discriminate; contradiction.
Qed.

(** The quotient of two positive normal floats stays below any bound
    that is a float and that the exact quotient does not exceed. *)
Lemma SFdiv_bound_normal mx ex my ey mB eB :
  Zpos (digits2_pos mx) = 53 -> Zpos (digits2_pos my) = 53 ->
  -1021 <= ex - ey ->
  SpecFloat.bounded prec emax mB eB = true ->
  (F2R (Zpos mx) ex <= F2R (Zpos mB) eB * F2R (Zpos my) ey)%R ->
  signed_within false (F2R (Zpos mB) eB)
    (SFdiv prec emax (S754_finite false mx ex) (S754_finite false my ey)).
Proof.
  intros Dx Dy He HB Hle.
  unfold SFdiv, SFdiv_core_binary. simpl Zdigits2. rewrite Dx, Dy.
  assert (E : Z.min (fexp prec emax (53 + ex - (53 + ey))) (ex - ey) = ex - ey - 53)
    by (unfold fexp, SpecFloat.emin, prec, emax; lia).
  rewrite E. replace (ex - ey - (ex - ey - 53)) with 53 by ring. cbv iota.
  rewrite Z.shiftl_mul_pow2 by lia.
  set (m' := Zpos mx * 2 ^ 53).
  pose proof (Z_div_mod m' (Zpos my) ltac:(lia)) as DM.
  destruct (Z.div_eucl m' (Zpos my)) as [q r]. destruct DM as [DM Rr].
  destruct (digits2_bounds mx) as [Lx _]. destruct (digits2_bounds my) as [_ Uy].
  rewrite Dx in Lx. rewrite Dy in Uy.
  assert (Hq : 2 ^ 52 <= q).
  { assert (2 ^ 52 * 2 ^ 53 <= m') by (unfold m'; nia). nia. }
  assert (Hq0 : 0 < q) by lia.
  destruct q as [|pq|pq]; try lia.
  assert (Dq : 53 <= Zpos (digits2_pos pq)).
  { destruct (digits2_bounds pq) as [_ Uq].
    assert (2 ^ 52 < 2 ^ Zpos (digits2_pos pq)) by lia.
    apply Z.pow_lt_mono_r_iff in H; lia. }
  cbn [xorb].
  pose proof (bpow_pos (ex - ey - 53)) as Pe.
  pose proof (bpow_pos ey) as Py.
  assert (PY : (0 < IZR (Zpos my))%R) by (apply IZR_lt; lia).
  assert (Hn : (F2R m' (ex - ey - 53) <= F2R (Zpos mB) eB * IZR (Zpos my))%R).
  { unfold m'. rewrite (F2R_shift (Zpos mx) (ex - ey) 53) by lia.
    unfold F2R in Hle |- *. replace ex with ((ex - ey) + ey) in Hle at 1 by ring.
    rewrite bpow_add in Hle.
    apply Rmult_le_reg_r with (bpow ey); [exact Py|]. lra. }
  assert (Hm : (IZR m' = IZR (Zpos my) * IZR (Zpos pq) + IZR r)%R)
    by (rewrite DM, plus_IZR, mult_IZR; reflexivity).
  assert (R0 : (0 <= IZR r)%R) by (apply IZR_le; lia).
  unfold F2R in Hn. rewrite Hm in Hn.
  apply binary_round_aux_bound_loc; try assumption; try lia.
  - simpl Zdigits2. unfold fexp, SpecFloat.emin, prec, emax. lia.
  - unfold F2R.
    apply Rmult_le_reg_l with (IZR (Zpos my)); [exact PY|].
    assert (0 <= IZR r * bpow (ex - ey - 53))%R by (apply Rmult_le_pos; lra).
    rewrite Rmult_plus_distr_r in Hn. lra.
  - intros Hl. assert (Hr : r <> 0) by (intros ->; apply Hl, new_location_exact; reflexivity).
    assert (R1 : (0 < IZR r)%R) by (apply IZR_lt; lia).
    unfold F2R.
    apply Rmult_lt_reg_l with (IZR (Zpos my)); [exact PY|].
    assert (0 < IZR r * bpow (ex - ey - 53))%R by (apply Rmult_lt_0_compat; lra).
    rewrite Rmult_plus_distr_r in Hn. lra.
Qed.

(** Dividing a block size by a sample rate that is at least as large. *)
Lemma truediv_in_unit a b :
  0 <= a <= b -> 0 < b < 2 ^ 53 ->
  in_unit (float_of_Z a / float_of_Z b)%float = true.
Proof.
  intros [Ha Hab] Hb.
  destruct (float_of_Z_exact b Hb) as (my & ey & Ey & Vy & Dy & Ry).
  apply in_unit_val.
  destruct (Z.eq_dec a 0) as [->|Na].
  - assert (E : Prim2SF (float_of_Z 0 / float_of_Z b)%float = S754_zero false).
    { rewrite div_spec, Ey. reflexivity. }
    unfold float_finite, float_val. rewrite E. simpl. split; [reflexivity|lra].
  - destruct (float_of_Z_exact a ltac:(lia)) as (mx & ex & Ex & Vx & Dx & Rx).
    pose proof (SFdiv_bound_normal mx ex my ey 4503599627370496 (-52) Dx Dy
                  ltac:(lia) eq_refl) as S.
    rewrite bound_one in S. rewrite Vx, Vy, Rmult_1_l in S.
    specialize (S (IZR_le _ _ Hab)).
    unfold float_finite, float_val. rewrite div_spec, Ex, Ey.
    destruct S as [F V]. auto.
Qed.

(** * The sender

    What the methods return, store and send. *)

(** ** Bytes *)

Lemma Z_of_byte_of_Z z : Z_of_byte (byte_of_Z z) = z mod 256.
Proof.
  unfold Z_of_byte, byte_of_Z.
  pose proof (Z.mod_pos_bound z 256 ltac:(lia)) as B.
  destruct (Byte.of_N (Z.to_N (z mod 256))) as [b|] eqn:E.
  - apply Byte.to_of_N in E. rewrite E. apply Z2N.id. lia.
  - apply Byte.of_N_None_iff in E. lia.
Qed.

Lemma Z_of_byte_range b : 0 <= Z_of_byte b < 256.
Proof.
  unfold Z_of_byte. pose proof (Byte.to_N_bounded b). lia.
Qed.

Lemma be_bytes_length n v : List.length (be_bytes n v) = n.
Proof. induction n; simpl; congruence. Qed.

Lemma fold_be_bytes n : forall v acc,
  fold_left (fun a b => a * 256 + Z_of_byte b) (be_bytes n v) acc
  = acc * 2 ^ (8 * Z.of_nat n) + v mod 2 ^ (8 * Z.of_nat n).
Proof.
  induction n as [|k IH]; intros v acc.
  - simpl. rewrite Z.mod_1_r. lia.
  - cbn [be_bytes fold_left]. rewrite IH, Z_of_byte_of_Z.
    rewrite Z.shiftr_div_pow2 by lia.
    replace (8 * Z.of_nat (S k)) with (8 * Z.of_nat k + 8) by lia.
    rewrite Z.pow_add_r by lia. change (2 ^ 8) with 256.
    assert (P : 0 < 2 ^ (8 * Z.of_nat k)) by (apply Z.pow_pos_nonneg; lia).
    rewrite (Z.rem_mul_r v (2 ^ (8 * Z.of_nat k)) 256) by lia. ring.
Qed.

Lemma be_value_be_bytes n v : be_value (be_bytes n v) = v mod 2 ^ (8 * Z.of_nat n).
Proof. unfold be_value. rewrite fold_be_bytes. lia. Qed.

Lemma pack_uint_ok n v :
  0 <= v < 2 ^ (8 * Z.of_nat n) -> pack_uint n v = Ret (be_bytes n v).
Proof.
  intros [L U]. unfold pack_uint.
  apply Z.leb_le in L. apply Z.ltb_lt in U. rewrite L, U. reflexivity.
Qed.

Lemma land_ones_range a n : 0 <= n -> 0 <= Z.land a (Z.ones n) < 2 ^ n.
Proof.
  intros H. rewrite Z.land_ones by assumption. apply Z.mod_pos_bound.
  apply Z.pow_pos_nonneg; lia.
Qed.

(** ** The header *)

(** The twelve bytes of the header, field by field. *)
Lemma create_rtp_header_bytes v g :
  create_rtp_header v g =
  Ret (be_bytes 1 first_byte ++ be_bytes 1 (second_byte v) ++
       be_bytes 2 (sequence_number g mod 65536) ++
       be_bytes 4 (timestamp g mod 4294967296) ++
       be_bytes 4 ssrc).
Proof.
  unfold create_rtp_header, struct_pack_BBHII.
  change 0xFFFF with (Z.ones 16). change 0xFFFFFFFF with (Z.ones 32).
  rewrite !Z.land_ones by lia.
  change (2 ^ 16) with 65536. change (2 ^ 32) with 4294967296.
  pose proof (Z.mod_pos_bound (sequence_number g) 65536 ltac:(lia)).
  pose proof (Z.mod_pos_bound (timestamp g) 4294967296 ltac:(lia)).
  rewrite (pack_uint_ok 1 first_byte) by (vm_compute; split; congruence).
  rewrite (pack_uint_ok 1 (second_byte v)) by (destruct v; vm_compute; split; congruence).
  rewrite (pack_uint_ok 2) by (change (2 ^ (8 * Z.of_nat 2)) with 65536; lia).
  rewrite (pack_uint_ok 4 (timestamp g mod _))
    by (change (2 ^ (8 * Z.of_nat 4)) with 4294967296; lia).
  rewrite (pack_uint_ok 4 ssrc) by (vm_compute; split; congruence).
  reflexivity.
Qed.

(** Reading a header field back: the bytes under [be_value] in the goal
    are those [be_bytes n x] lays out. *)
Ltac read_field n x :=
  match goal with
  | |- context [be_value ?l] =>
      change l with (be_bytes n x); rewrite be_value_be_bytes
  end.

Lemma header_fields v g hdr payload :
  create_rtp_header v g = Ret hdr ->
  List.length hdr = 12%nat /\
  packet_payload (hdr ++ payload) = payload /\
  packet_sequence_number (hdr ++ payload) = sequence_number g mod 65536 /\
  packet_timestamp (hdr ++ payload) = timestamp g mod 4294967296 /\
  packet_ssrc (hdr ++ payload) = ssrc /\
  packet_payload_type (hdr ++ payload) = payload_type v.
Proof.
  rewrite create_rtp_header_bytes. intros E. injection E as <-.
  unfold packet_payload, packet_sequence_number, packet_timestamp, packet_ssrc,
    packet_payload_type.
  cbn [be_bytes app skipn firstn List.length].
  split; [reflexivity|]. split; [reflexivity|]. split; [|split; [|split]].
  - read_field 2%nat (sequence_number g mod 65536).
    change (2 ^ (8 * Z.of_nat 2)) with 65536. apply Z.mod_mod. lia.
  - read_field 4%nat (timestamp g mod 4294967296).
    change (2 ^ (8 * Z.of_nat 4)) with 4294967296. apply Z.mod_mod. lia.
  - read_field 4%nat ssrc. reflexivity.
  - read_field 1%nat (second_byte v). destruct v; reflexivity.
Qed.

(** ** The audio block *)

Lemma np_arange_length n : List.length (np_arange n) = Z.to_nat n.
Proof. unfold np_arange. rewrite length_map, length_seq. reflexivity. Qed.

Lemma np_arange_nth n i d :
  (i < Z.to_nat n)%nat -> nth i (np_arange n) d = Z.of_nat i.
Proof.
  intros H. unfold np_arange.
  rewrite (nth_indep _ d (Z.of_nat 0)) by (rewrite length_map, length_seq; exact H).
  rewrite map_nth, seq_nth by exact H. reflexivity.
Qed.

Lemma sine_wave_length np_sin g :
  List.length (sine_wave np_sin g) = Z.to_nat (buffer_size g).
Proof. unfold sine_wave, sample_times. rewrite !length_map. apply np_arange_length. Qed.

Lemma sine_wave_nth np_sin g i d :
  (i < Z.to_nat (buffer_size g))%nat ->
  nth i (sine_wave np_sin g) d = sample_value np_sin g (Z.of_nat i).
Proof.
  intros H. unfold sine_wave, sample_times. rewrite map_map.
  set (f := fun x : Z => _).
  rewrite (nth_indep _ d (f 0)) by (rewrite length_map, np_arange_length; exact H).
  rewrite map_nth, np_arange_nth by exact H. reflexivity.
Qed.

Lemma assign_columns_interleave (f : float -> float) audio :
  flatten (assign_column 1 (map f audio)
             (assign_column 0 audio (repeat [0%float; 0%float] (List.length audio))))
  = flat_map (fun a => [a; f a]) audio.
Proof.
  unfold flatten. induction audio as [|a audio IH]; [reflexivity|].
  simpl. f_equal. f_equal. exact IH.
Qed.

Lemma to_stereo_interleaves np_sin g :
  0 <= buffer_size g ->
  to_stereo g (sine_wave np_sin g) = Ret (interleaved (sine_wave np_sin g)).
Proof.
  intros H. unfold to_stereo, np_zeros2.
  replace (buffer_size g <? 0) with false by (symmetry; apply Z.ltb_ge; exact H).
  simpl bind. rewrite <- (sine_wave_length np_sin g).
  rewrite assign_columns_interleave. reflexivity.
Qed.

Lemma can_generate_inv g :
  can_generate g = true ->
  sample_rate g <> 0 /\ (channels g = 2 -> 0 <= buffer_size g).
Proof.
  unfold can_generate. rewrite andb_true_iff, orb_true_iff, !negb_true_iff.
  rewrite !Z.eqb_neq, Z.leb_le. intros [H1 [H2|H2]]; split; auto; intros; lia.
Qed.

Lemma advance_phase_ok g :
  sample_rate g <> 0 -> advance_phase g = Ret (next_phase g).
Proof.
  intros H. unfold advance_phase, py_truediv, next_phase.
  apply Z.eqb_neq in H. rewrite H. reflexivity.
Qed.

(** What [generate_audio_buffer] returns and stores when no exception
    leaves it. *)
Lemma generate_audio_buffer_ok np_sin cu g :
  can_generate g = true ->
  generate_audio_buffer np_sin cu g =
  Ret (tobytes (map (pcm16 cu) (block_samples np_sin g)), set_phase (next_phase g) g).
Proof.
  intros H. destruct (can_generate_inv g H) as [Hr Hs].
  unfold generate_audio_buffer, block_samples.
  destruct (channels g =? 2) eqn:C.
  - apply Z.eqb_eq in C. rewrite to_stereo_interleaves by auto.
    simpl bind. rewrite advance_phase_ok by exact Hr. reflexivity.
  - simpl bind. rewrite advance_phase_ok by exact Hr. reflexivity.
Qed.

Lemma tobytes_length xs : List.length (tobytes xs) = (2 * List.length xs)%nat.
Proof. unfold tobytes. induction xs; simpl; lia. Qed.

Lemma interleaved_length audio :
  List.length (interleaved audio) = (2 * List.length audio)%nat.
Proof. unfold interleaved. induction audio; simpl; lia. Qed.

Lemma interleaved_nth audio i d :
  (i < List.length audio)%nat ->
  nth (2 * i) (interleaved audio) d = nth i audio d /\
  nth (2 * i + 1) (interleaved audio) d = (nth i audio d * f0_7)%float.
Proof.
  unfold interleaved. revert i. induction audio as [|a audio IH]; intros i H.
  - simpl in H. lia.
  - destruct i as [|i].
    + simpl. auto.
    + replace (2 * S i)%nat with (S (S (2 * i))) by lia.
      replace (S (S (2 * i)) + 1)%nat with (S (S (2 * i + 1))) by lia.
      simpl in H. simpl. apply IH. lia.
Qed.

(** Bytes [2i] and [2i+1] of the payload hold sample [i]. *)
Lemma tobytes_frame xs i d :
  (i < List.length xs)%nat ->
  firstn 2 (skipn (2 * i) (tobytes xs)) = s16le (nth i xs d).
Proof.
  unfold tobytes. revert i. induction xs as [|x xs IH]; intros i H.
  - simpl in H. lia.
  - destruct i as [|i].
    + reflexivity.
    + replace (2 * S i)%nat with (S (S (2 * i))) by lia.
      simpl in H. simpl. apply IH. lia.
Qed.

(** The state a block leaves: only the phase changes. *)
Lemma set_phase_fields p g :
  sample_rate (set_phase p g) = sample_rate g /\
  channels (set_phase p g) = channels g /\
  buffer_size (set_phase p g) = buffer_size g /\
  sequence_number (set_phase p g) = sequence_number g /\
  timestamp (set_phase p g) = timestamp g /\
  socket_open (set_phase p g) = socket_open g /\
  running (set_phase p g) = running g /\
  phase (set_phase p g) = p.
Proof. repeat split. Qed.

(** ** One call of [send_rtp_packet] *)

Lemma debug_rtp_header_notices hdr : forallb is_notice (debug_rtp_header hdr) = true.
Proof.
  unfold debug_rtp_header. destruct (12 <=? Z.of_nat (List.length hdr)); [|reflexivity].
  destruct (struct_unpack_BBHII hdr) as [[[[a b] c] d] e]. reflexivity.
Qed.

(** A call whose [sendto] returns. *)
Lemma send_rtp_packet_delivers np_sin cu v g :
  can_generate g = true -> socket_open g = true ->
  exists before after,
    send_rtp_packet np_sin cu v true g =
    Ret (true, after_delivery v g,
         before ++ [EvSendto StreamSocket (rtp_packet_of np_sin cu v g)
                             (target_ip g) (target_port g) true] ++ after) /\
    forallb is_notice before = true /\ forallb is_notice after = true.
Proof.
  intros Hg Ho. unfold send_rtp_packet.
  rewrite create_rtp_header_bytes, (generate_audio_buffer_ok np_sin cu g Hg).
  cbn [bind]. cbn [socket_open set_phase]. rewrite Ho. cbn [andb].
  fold (rtp_packet_of np_sin cu v g).
  eexists _, _. split; [reflexivity|].
  split.
  - destruct v; [reflexivity|].
    destruct (_ =? 0); [|reflexivity].
    cbn [forallb is_notice andb]. apply debug_rtp_header_notices.
  - destruct v; [reflexivity|]. destruct (_ =? 0); reflexivity.
Qed.

(** A call whose [sendto] raises: the network refuses the datagram or
    the socket is closed. *)
Lemma send_rtp_packet_fails np_sin cu v ok g :
  can_generate g = true -> socket_open g && ok = false ->
  exists before,
    send_rtp_packet np_sin cu v ok g =
    Ret (false, set_phase (next_phase g) g,
         before ++ [EvSendto StreamSocket (rtp_packet_of np_sin cu v g)
                             (target_ip g) (target_port g) false;
                    EvPrint MsgSendError]) /\
    forallb is_notice before = true.
Proof.
  intros Hg Ho. unfold send_rtp_packet.
  rewrite create_rtp_header_bytes, (generate_audio_buffer_ok np_sin cu g Hg).
  cbn [bind]. cbn [socket_open set_phase]. rewrite Ho.
  fold (rtp_packet_of np_sin cu v g).
  eexists. split; [reflexivity|].
  destruct v; [reflexivity|].
  destruct (_ =? 0); [|reflexivity].
  cbn [forallb is_notice andb]. apply debug_rtp_header_notices.
Qed.

Lemma rtp_packet_of_fields np_sin cu v g :
  packet_sequence_number (rtp_packet_of np_sin cu v g) = sequence_number g mod 65536 /\
  packet_timestamp (rtp_packet_of np_sin cu v g) = timestamp g mod 4294967296 /\
  packet_ssrc (rtp_packet_of np_sin cu v g) = ssrc /\
  packet_payload_type (rtp_packet_of np_sin cu v g) = payload_type v /\
  packet_payload (rtp_packet_of np_sin cu v g)
  = tobytes (map (pcm16 cu) (block_samples np_sin g)).
Proof.
  destruct (header_fields v g _ (tobytes (map (pcm16 cu) (block_samples np_sin g)))
                          (create_rtp_header_bytes v g))
    as (_ & P & S & T & C & Y).
  unfold rtp_packet_of. auto.
Qed.

Lemma can_generate_after_delivery v g :
  can_generate (after_delivery v g) = can_generate g.
Proof. reflexivity. Qed.

Lemma can_generate_set_phase p g : can_generate (set_phase p g) = can_generate g.
Proof. reflexivity. Qed.

(** Counting through notices. *)

Lemma filter_notices (p : event -> bool) evs :
  (forall e, is_notice e = true -> p e = false) ->
  forallb is_notice evs = true -> filter p evs = [].
Proof.
  intros Hp. induction evs as [|e evs IH]; [reflexivity|].
  simpl. rewrite andb_true_iff. intros [He Hr].
  rewrite (Hp e He). auto.
Qed.

Lemma notice_not_delivery e : is_notice e = true -> is_delivery e = false.
Proof. destruct e as [| | | |m]; try discriminate. reflexivity. Qed.

Lemma notice_not_attempt e : is_notice e = true -> is_send_attempt e = false.
Proof. destruct e as [| | | |m]; try discriminate. reflexivity. Qed.

Lemma notice_not_error e : is_notice e = true -> is_send_error e = false.
Proof. destruct e as [| | | |m]; try discriminate. destruct m; try discriminate; reflexivity. Qed.

Lemma notice_not_close e : is_notice e = true -> is_stream_close e = false.
Proof. destruct e as [| | | |m]; try discriminate. reflexivity. Qed.

Lemma count_events_app p a b :
  count_events p (a ++ b) = (count_events p a + count_events p b)%nat.
Proof. unfold count_events. rewrite filter_app, length_app. reflexivity. Qed.

Lemma count_notices p evs :
  (forall e, is_notice e = true -> p e = false) ->
  forallb is_notice evs = true -> count_events p evs = 0%nat.
Proof. intros Hp H. unfold count_events. rewrite (filter_notices p evs Hp H). reflexivity. Qed.

(** ** Counters of the session *)

Lemma stream_datagrams_app a b :
  stream_datagrams (a ++ b) = stream_datagrams a ++ stream_datagrams b.
Proof. unfold stream_datagrams. apply flat_map_app. Qed.

Lemma stream_datagrams_notices evs :
  forallb is_notice evs = true -> stream_datagrams evs = [].
Proof.
  induction evs as [|e evs IH]; [reflexivity|].
  simpl. rewrite andb_true_iff. intros [He Hr]. rewrite (IH Hr).
  destruct e as [| | | |m]; try discriminate. reflexivity.
Qed.

(** The stream datagrams of one call: the packet built from the object
    before the call. *)
Lemma send_rtp_packet_datagram np_sin cu v ok g :
  can_generate g = true ->
  exists r g' evs,
    send_rtp_packet np_sin cu v ok g = Ret (r, g', evs) /\
    stream_datagrams evs = [rtp_packet_of np_sin cu v g] /\
    r = socket_open g && ok.
Proof.
  intros Hg. destruct (socket_open g && ok) eqn:E.
  - apply andb_true_iff in E. destruct E as [Ho ->].
    destruct (send_rtp_packet_delivers np_sin cu v g Hg Ho) as (b & a & S & Nb & Na).
    eexists _, _, _. split; [exact S|]. split; [|reflexivity].
    rewrite !stream_datagrams_app, (stream_datagrams_notices b Nb),
      (stream_datagrams_notices a Na). reflexivity.
  - destruct (send_rtp_packet_fails np_sin cu v ok g Hg E) as (b & S & Nb).
    eexists _, _, _. split; [exact S|]. split; [|reflexivity].
    rewrite stream_datagrams_app, (stream_datagrams_notices b Nb). reflexivity.
Qed.

(** C1 (the code as it stands).  In rtp_send.py a delivered packet
    advances the timestamp by [buffer_size * channels]: with the default
    two channels and 64 samples per block the timestamp goes from 0 to
    128, not to 64.  In rtp_send_sap.py it advances by [buffer_size],
    whatever the channel count. *)
Theorem timestamp_step_of_each_variant np_sin cu :
  (exists evs,
     send_rtp_packet np_sin cu RtpSend true default_generator
     = Ret (true, after_delivery RtpSend default_generator, evs)) /\
  buffer_size default_generator = 64 /\
  timestamp default_generator = 0 /\
  timestamp (after_delivery RtpSend default_generator) = 128 /\
  (forall g, timestamp (after_delivery RtpSend g)
             = timestamp g + buffer_size g * channels g) /\
  (forall g, timestamp (after_delivery RtpSendSap g) = timestamp g + buffer_size g).
Proof.
  split; [|repeat split].
  destruct (send_rtp_packet_delivers np_sin cu RtpSend default_generator eq_refl eq_refl)
    as (b & a & S & _).
  eexists. exact S.
Qed.

(** C2, as the claim states it, fails on the stored counter: after the
    packet numbered 65535 is delivered, the object holds 65536. *)
Lemma stored_sequence_number_passes_65535 :
  exists g' evs,
    send_rtp_packet (constant_signal 0) cast_zero RtpSend true
                    (set_sequence_number 65535 default_generator)
    = Ret (true, g', evs) /\
    sequence_number g' = 65536.
Proof.
  destruct (send_rtp_packet_delivers (constant_signal 0) cast_zero RtpSend
              (set_sequence_number 65535 default_generator) eq_refl eq_refl)
    as (b & a & S & _).
  eexists _, _. split; [exact S|reflexivity].
Qed.

(** C2, amended.  A delivered packet adds exactly 1 to the stored
    sequence number, which is an integer without bound.  The field at
    bytes 2-3 of the header is the stored number modulo 65536, so from
    one packet to the next the field steps by 1 modulo 65536 and the
    field after 65535 is 0. *)
Theorem sequence_number_steps np_sin cu v ok g :
  can_generate g = true -> socket_open g = true ->
  exists g' evs packet,
    send_rtp_packet np_sin cu v true g = Ret (true, g', evs) /\
    stream_datagrams evs = [packet] /\
    sequence_number g' = sequence_number g + 1 /\
    packet_sequence_number packet = sequence_number g mod 65536 /\
    exists r g'' evs' packet',
      send_rtp_packet np_sin cu v ok g' = Ret (r, g'', evs') /\
      stream_datagrams evs' = [packet'] /\
      packet_sequence_number packet' = (packet_sequence_number packet + 1) mod 65536 /\
      (packet_sequence_number packet = 65535 -> packet_sequence_number packet' = 0).
Proof.
  intros Hg Ho.
  destruct (send_rtp_packet_delivers np_sin cu v g Hg Ho) as (b & a & S & Nb & Na).
  destruct (rtp_packet_of_fields np_sin cu v g) as (Q & _).
  exists (after_delivery v g). eexists. exists (rtp_packet_of np_sin cu v g).
  split; [exact S|].
  split.
  { rewrite !stream_datagrams_app, (stream_datagrams_notices b Nb),
      (stream_datagrams_notices a Na). reflexivity. }
  split; [reflexivity|]. split; [exact Q|].
  destruct (send_rtp_packet_datagram np_sin cu v ok (after_delivery v g) Hg)
    as (r & g'' & evs' & S' & D' & _).
  destruct (rtp_packet_of_fields np_sin cu v (after_delivery v g)) as (Q' & _).
  exists r, g'', evs', (rtp_packet_of np_sin cu v (after_delivery v g)).
  split; [exact S'|]. split; [exact D'|].
  assert (Step : packet_sequence_number (rtp_packet_of np_sin cu v (after_delivery v g))
                 = (packet_sequence_number (rtp_packet_of np_sin cu v g) + 1) mod 65536).
  { rewrite Q', Q. cbn [after_delivery sequence_number].
    rewrite Z.add_mod_idemp_l by lia. reflexivity. }
  split; [exact Step|]. intros E. rewrite Step, E. reflexivity.
Qed.

Lemma sequence_number_steps_witness :
  can_generate default_generator = true /\
  socket_open default_generator = true /\
  exists g' evs packet,
    send_rtp_packet (constant_signal 0) cast_zero RtpSendSap true default_generator
    = Ret (true, g', evs) /\
    stream_datagrams evs = [packet] /\
    sequence_number g' = sequence_number default_generator + 1 /\
    packet_sequence_number packet = sequence_number default_generator mod 65536 /\
    exists r g'' evs' packet',
      send_rtp_packet (constant_signal 0) cast_zero RtpSendSap true g'
      = Ret (r, g'', evs') /\
      stream_datagrams evs' = [packet'] /\
      packet_sequence_number packet' = (packet_sequence_number packet + 1) mod 65536 /\
      (packet_sequence_number packet = 65535 -> packet_sequence_number packet' = 0).
Proof.
  split; [reflexivity|]. split; [reflexivity|].
  apply (sequence_number_steps (constant_signal 0) cast_zero RtpSendSap true
                               default_generator); reflexivity.
Defined.

(** C9.  When the UDP send raises, [send_rtp_packet] returns [False]
    with the sequence number and the timestamp as they were, and with
    the phase already moved on by the block that was built: the object
    is the one [generate_audio_buffer] left. *)
Theorem failed_send_keeps_counters np_sin cu v ok g :
  can_generate g = true -> socket_open g && ok = false ->
  exists payload g1 evs,
    generate_audio_buffer np_sin cu g = Ret (payload, g1) /\
    send_rtp_packet np_sin cu v ok g = Ret (false, g1, evs) /\
    sequence_number g1 = sequence_number g /\
    timestamp g1 = timestamp g /\
    phase g1 = next_phase g /\
    count_events is_send_error evs = 1%nat /\
    count_events is_delivery evs = 0%nat.
Proof.
  intros Hg Ho.
  destruct (send_rtp_packet_fails np_sin cu v ok g Hg Ho) as (b & S & Nb).
  eexists _, _, _. split; [apply generate_audio_buffer_ok; exact Hg|].
  split; [exact S|]. repeat split.
  - rewrite count_events_app, (count_notices _ b notice_not_error Nb). reflexivity.
  - rewrite count_events_app, (count_notices _ b notice_not_delivery Nb). reflexivity.
Qed.

Lemma failed_send_keeps_counters_witness :
  can_generate default_generator = true /\
  socket_open default_generator && false = false /\
  exists payload g1 evs,
    generate_audio_buffer (constant_signal 1) cast_zero default_generator
    = Ret (payload, g1) /\
    send_rtp_packet (constant_signal 1) cast_zero RtpSend false default_generator
    = Ret (false, g1, evs) /\
    sequence_number g1 = sequence_number default_generator /\
    timestamp g1 = timestamp default_generator /\
    phase g1 = next_phase default_generator /\
    count_events is_send_error evs = 1%nat /\
    count_events is_delivery evs = 0%nat.
Proof.
  split; [reflexivity|]. split; [reflexivity|].
  apply (failed_send_keeps_counters (constant_signal 1) cast_zero RtpSend false
                                    default_generator); reflexivity.
Defined.

(** ** Layout of the payload *)

Lemma can_generate_mono g :
  channels g <> 2 -> sample_rate g <> 0 -> can_generate g = true.
Proof.
  intros Hc Hr. unfold can_generate.
  apply Z.eqb_neq in Hc. apply Z.eqb_neq in Hr. rewrite Hc, Hr. reflexivity.
Qed.

Lemma can_generate_stereo g :
  channels g = 2 -> sample_rate g <> 0 -> 0 <= buffer_size g -> can_generate g = true.
Proof.
  intros Hc Hr Hb. unfold can_generate.
  apply Z.eqb_neq in Hr. apply Z.leb_le in Hb. rewrite Hr, Hb.
  rewrite orb_true_r. reflexivity.
Qed.

Lemma rtp_packet_of_length np_sin cu v g :
  List.length (rtp_packet_of np_sin cu v g)
  = (12 + 2 * List.length (block_samples np_sin g))%nat.
Proof.
  unfold rtp_packet_of. rewrite length_app, tobytes_length, length_map. reflexivity.
Qed.

(** C10.  With a channel count other than 2 the block is the mono one:
    [buffer_size] samples, sample [i] alone in bytes [2i] and [2i+1] of
    the payload, so the payload has [buffer_size * 2] bytes and the
    packet [12 + buffer_size * 2], whatever count was declared. *)
Theorem mono_path_for_other_channel_counts np_sin cu v ok g :
  channels g <> 2 -> sample_rate g <> 0 ->
  exists payload g',
    generate_audio_buffer np_sin cu g = Ret (payload, g') /\
    payload = tobytes (to_int16 cu (sine_wave np_sin g)) /\
    List.length payload = (2 * Z.to_nat (buffer_size g))%nat /\
    (forall i, (i < Z.to_nat (buffer_size g))%nat ->
       firstn 2 (skipn (2 * i) payload)
       = s16le (pcm16 cu (sample_value np_sin g (Z.of_nat i)))) /\
    exists r g'' evs packet,
      send_rtp_packet np_sin cu v ok g = Ret (r, g'', evs) /\
      stream_datagrams evs = [packet] /\
      packet_payload packet = payload /\
      List.length packet = (12 + 2 * Z.to_nat (buffer_size g))%nat.
Proof.
  intros Hc Hr. pose proof (can_generate_mono g Hc Hr) as Hg.
  pose proof (generate_audio_buffer_ok np_sin cu g Hg) as G.
  assert (B : block_samples np_sin g = sine_wave np_sin g).
  { unfold block_samples. apply Z.eqb_neq in Hc. rewrite Hc. reflexivity. }
  rewrite B in G.
  eexists _, _. split; [exact G|]. split; [reflexivity|].
  split; [rewrite tobytes_length, length_map, sine_wave_length; reflexivity|].
  split.
  - intros i Hi.
    rewrite (tobytes_frame _ i 0) by (rewrite length_map, sine_wave_length; exact Hi).
    f_equal. unfold to_int16. fold (pcm16 cu).
    rewrite (nth_indep _ 0 (pcm16 cu 0%float))
      by (rewrite length_map, sine_wave_length; exact Hi).
    rewrite map_nth, sine_wave_nth by exact Hi. reflexivity.
  - destruct (send_rtp_packet_datagram np_sin cu v ok g Hg) as (r & g'' & evs & S & D & _).
    exists r, g'', evs, (rtp_packet_of np_sin cu v g).
    split; [exact S|]. split; [exact D|].
    destruct (rtp_packet_of_fields np_sin cu v g) as (_ & _ & _ & _ & P).
    split; [rewrite P, B; reflexivity|].
    rewrite rtp_packet_of_length, B, sine_wave_length. reflexivity.
Qed.

Lemma mono_path_for_other_channel_counts_witness :
  channels (init "127.0.0.1" 5004 48000 6 64) <> 2 /\
  sample_rate (init "127.0.0.1" 5004 48000 6 64) <> 0 /\
  exists payload g',
    generate_audio_buffer (constant_signal 1) cast_zero (init "127.0.0.1" 5004 48000 6 64)
    = Ret (payload, g') /\
    List.length payload = 128%nat /\
    exists r g'' evs packet,
      send_rtp_packet (constant_signal 1) cast_zero RtpSend true
                      (init "127.0.0.1" 5004 48000 6 64)
      = Ret (r, g'', evs) /\
      stream_datagrams evs = [packet] /\
      List.length packet = 140%nat.
Proof.
  assert (Hc : channels (init "127.0.0.1" 5004 48000 6 64) <> 2) by (simpl; lia).
  assert (Hr : sample_rate (init "127.0.0.1" 5004 48000 6 64) <> 0) by (simpl; lia).
  split; [exact Hc|]. split; [exact Hr|].
  destruct (mono_path_for_other_channel_counts (constant_signal 1) cast_zero RtpSend true
              (init "127.0.0.1" 5004 48000 6 64) Hc Hr)
    as (payload & g' & G & _ & L & _ & r & g'' & evs & packet & S & D & _ & LP).
  exists payload, g'. split; [exact G|]. split; [exact L|].
  exists r, g'', evs, packet. split; [exact S|]. split; [exact D|exact LP].
Defined.

(** ** The phase accumulator *)

Lemma block_within_second_inv g :
  block_within_second g = true ->
  sample_rate g <> 0 /\
  in_unit (float_of_Z (buffer_size g) / float_of_Z (sample_rate g))%float = true.
Proof.
  unfold block_within_second, py_truediv.
  destruct (sample_rate g =? 0) eqn:E; [discriminate|].
  apply Z.eqb_neq in E. auto.
Qed.

Lemma next_phase_in_unit g :
  block_within_second g = true -> in_unit (phase g) = true ->
  in_unit (next_phase g) = true.
Proof.
  intros Hd Hp. destruct (block_within_second_inv g Hd) as [_ D].
  unfold next_phase. cbv zeta. apply phase_step_in_unit; assumption.
Qed.

(** C3, as the claim states it, fails: with blocks of one second (8000
    samples at 8000 Hz) the first call leaves the phase at exactly 1.0,
    which is not below 1.0: the test is [phase > 1.0]. *)
Lemma phase_reaches_one :
  exists payload g',
    generate_audio_buffer (constant_signal 0) cast_zero
                          (init "127.0.0.1" 5004 8000 1 8000)
    = Ret (payload, g') /\
    phase g' = 1%float /\
    (phase g' <? 1)%float = false.
Proof.
  eexists _, _. split; [apply generate_audio_buffer_ok; reflexivity|].
  split; reflexivity.
Qed.

(** Nor is the phase bounded when a block lasts two seconds or more: one
    subtraction of 1.0 per call does not bring it back. *)
Lemma phase_grows_with_long_blocks :
  exists payloads g',
    generate_blocks (constant_signal 0) cast_zero 2
                    (init "127.0.0.1" 5004 8 1 24)
    = Ret (payloads, g') /\
    phase g' = 4%float.
Proof. eexists _, _. split; reflexivity. Qed.

(** Over any number of calls, while the block's computed duration is
    in [0, 1]. *)
Lemma phase_in_unit_after_blocks np_sin cu n : forall g,
  can_generate g = true ->
  block_within_second g = true ->
  in_unit (phase g) = true ->
  exists payloads g',
    generate_blocks np_sin cu n g = Ret (payloads, g') /\
    List.length payloads = n /\
    in_unit (phase g') = true.
Proof.
  induction n as [|n IH]; intros g Hg Hd Hp.
  - exists [], g. repeat split; assumption.
  - cbn [generate_blocks]. rewrite (generate_audio_buffer_ok np_sin cu g Hg).
    cbn [bind].
    destruct (IH (set_phase (next_phase g) g) Hg Hd (next_phase_in_unit g Hd Hp))
      as (payloads & g' & E & L & P).
    rewrite E. cbn [bind]. eexists _, g'. split; [reflexivity|].
    split; [simpl; congruence|exact P].
Qed.

(** A block of at most [sample_rate] samples lasts at most one second. *)
Lemma block_within_second_of_sizes g :
  0 <= buffer_size g <= sample_rate g -> 0 < sample_rate g < 2 ^ 53 ->
  can_generate g = true /\ block_within_second g = true.
Proof.
  intros Hb Hr. split.
  - unfold can_generate. apply andb_true_iff. split.
    + apply negb_true_iff, Z.eqb_neq. lia.
    + apply orb_true_iff. right. apply Z.leb_le. lia.
  - unfold block_within_second, py_truediv.
    replace (sample_rate g =? 0) with false by (symmetry; apply Z.eqb_neq; lia).
    apply truediv_in_unit; assumption.
Qed.

(** C3, amended.  When a block lasts at most one second (at most
    [sample_rate] samples) the stored phase stays in the closed interval
    [0, 1] over any number of calls, starting from 0.0 or from any phase
    in the interval: each call adds the block's duration and subtracts
    1.0 once if the sum is strictly above 1.0. *)
Theorem phase_stays_in_unit_interval np_sin cu n g :
  0 <= buffer_size g <= sample_rate g ->
  0 < sample_rate g < 2 ^ 53 ->
  in_unit (phase g) = true ->
  exists payloads g',
    generate_blocks np_sin cu n g = Ret (payloads, g') /\
    List.length payloads = n /\
    in_unit (phase g') = true /\
    (forall payload g1,
       generate_audio_buffer np_sin cu g = Ret (payload, g1) ->
       phase g1 = next_phase g).
Proof.
  intros Hb Hr Hp. destruct (block_within_second_of_sizes g Hb Hr) as [Hg Hd].
  destruct (phase_in_unit_after_blocks np_sin cu n g Hg Hd Hp)
    as (payloads & g' & E & L & P).
  exists payloads, g'. split; [exact E|]. split; [exact L|]. split; [exact P|].
  intros payload g1 E1. rewrite generate_audio_buffer_ok in E1 by exact Hg.
  injection E1 as _ <-. reflexivity.
Qed.

Lemma phase_stays_in_unit_interval_witness :
  0 <= buffer_size default_generator <= sample_rate default_generator /\
  0 < sample_rate default_generator < 2 ^ 53 /\
  in_unit (phase default_generator) = true /\
  exists payloads g',
    generate_blocks (constant_signal 1) cast_zero 1000 default_generator
    = Ret (payloads, g') /\
    List.length payloads = 1000%nat /\
    in_unit (phase g') = true.
Proof.
  assert (Hb : 0 <= buffer_size default_generator <= sample_rate default_generator)
    by (simpl; lia).
  assert (Hr : 0 < sample_rate default_generator < 2 ^ 53) by (simpl; lia).
  split; [exact Hb|]. split; [exact Hr|]. split; [reflexivity|].
  destruct (phase_stays_in_unit_interval (constant_signal 1) cast_zero 1000
              default_generator Hb Hr eq_refl)
    as (payloads & g' & E & L & P & _).
  exists payloads, g'. split; [exact E|]. split; [exact L|exact P].
Defined.

(** ** Conversion to 16-bit samples *)

Lemma s16le_value_s16le z :
  -32768 <= z <= 32767 ->
  s16le_value (byte_of_Z z) (byte_of_Z (Z.shiftr z 8)) = z.
Proof.
  intros H. unfold s16le_value, wrap_int16.
  rewrite !Z_of_byte_of_Z, Z.shiftr_div_pow2 by lia. change (2 ^ 8) with 256.
  rewrite <- (Z.rem_mul_r z 256 256) by lia. change (256 * 256) with 65536.
  rewrite Z.add_mod_idemp_l by lia. rewrite Z.mod_small by lia. ring.
Qed.

Lemma in_sym_unit_0_7 : in_sym_unit f0_7 = true.
Proof. reflexivity. Qed.

(** A sample value of magnitude at most 1 is emitted as the truncation
    of its product with 32767, which fits sixteen bits. *)
Lemma pcm16_truncates cu x :
  in_sym_unit x = true ->
  is_truncation (pcm16 cu x) (float_val (x * 32767)%float) /\
  -32767 <= pcm16 cu x <= 32767.
Proof.
  intros H. destruct (scaled_sample_in_range x H) as (z & T & S & R).
  unfold pcm16, astype_int16. rewrite T.
  replace (in_int16 z) with true; [auto|].
  symmetry. unfold in_int16, int16_min, int16_max.
  apply andb_true_iff. split; apply Z.leb_le; lia.
Qed.

Lemma sine_wave_in_sym_unit np_sin g :
  in_unit (amplitude g) = true ->
  Forall (fun t => in_sym_unit (np_sin (2 * np_pi * frequency g * t)%float) = true)
         (sample_times g) ->
  Forall (fun a => in_sym_unit a = true) (sine_wave np_sin g).
Proof.
  intros Ha Hs. unfold sine_wave. apply Forall_map.
  eapply Forall_impl; [|exact Hs]. intros t Ht. cbv beta in Ht |- *.
  apply mul_sym_unit; [apply in_unit_sym; exact Ha | exact Ht].
Qed.

Lemma interleaved_in_sym_unit audio :
  Forall (fun a => in_sym_unit a = true) audio ->
  Forall (fun a => in_sym_unit a = true) (interleaved audio).
Proof.
  unfold interleaved. induction 1 as [|a audio Ha _ IH]; [constructor|].
  simpl. constructor; [exact Ha|].
  constructor; [apply mul_sym_unit; [exact Ha|exact in_sym_unit_0_7] | exact IH].
Qed.

(** C5, as the claim states it, fails: the conversion truncates.  The
    sample value 0.7 (a right-channel sample at full amplitude) times
    32767 is 22936.9, emitted as 22936, while rounding gives 22937. *)
Lemma truncation_differs_from_rounding :
  to_int16 cast_zero [f0_7] = [22936] /\
  spec_round (f0_7 * 32767)%float = Some 22937.
Proof. split; reflexivity. Qed.

(** C5, amended.  Every sample value [x] of a block is emitted as the
    truncation toward zero of [x * 32767], encoded in two bytes, signed
    and little-endian.  With the amplitude in [0, 1] and the sine values
    in [-1, 1] every emitted integer lies in [-32767, 32767], so none is
    outside the signed 16-bit range. *)
Theorem samples_truncated_within_int16 np_sin cu g :
  can_generate g = true ->
  in_unit (amplitude g) = true ->
  Forall (fun t => in_sym_unit (np_sin (2 * np_pi * frequency g * t)%float) = true)
         (sample_times g) ->
  exists payload g',
    generate_audio_buffer np_sin cu g = Ret (payload, g') /\
    payload = flat_map s16le (map (pcm16 cu) (block_samples np_sin g)) /\
    Forall (fun x =>
              is_truncation (pcm16 cu x) (float_val (x * 32767)%float) /\
              -32767 <= pcm16 cu x <= 32767 /\
              exists lo hi, s16le (pcm16 cu x) = [lo; hi] /\
                            s16le_value lo hi = pcm16 cu x)
           (block_samples np_sin g).
Proof.
  intros Hg Ha Hs.
  eexists _, _. split; [apply generate_audio_buffer_ok; exact Hg|].
  split; [reflexivity|].
  assert (U : Forall (fun a => in_sym_unit a = true) (block_samples np_sin g)).
  { unfold block_samples. destruct (channels g =? 2).
    - apply interleaved_in_sym_unit, sine_wave_in_sym_unit; assumption.
    - apply sine_wave_in_sym_unit; assumption. }
  eapply Forall_impl; [|exact U]. intros x Hx. cbv beta in Hx |- *.
  destruct (pcm16_truncates cu x Hx) as [T R].
  split; [exact T|]. split; [exact R|].
  eexists _, _. split; [reflexivity|]. apply s16le_value_s16le. lia.
Qed.

Lemma samples_truncated_within_int16_witness :
  can_generate (set_amplitude 1 default_generator) = true /\
  in_unit (amplitude (set_amplitude 1 default_generator)) = true /\
  exists payload g',
    generate_audio_buffer (constant_signal 1) cast_zero
                          (set_amplitude 1 default_generator)
    = Ret (payload, g') /\
    Forall (fun x => -32767 <= pcm16 cast_zero x <= 32767)
           (block_samples (constant_signal 1) (set_amplitude 1 default_generator)).
Proof.
  split; [reflexivity|]. split; [reflexivity|].
  assert (Hs : Forall (fun t => in_sym_unit
                         (constant_signal 1
                            (2 * np_pi * frequency (set_amplitude 1 default_generator) * t)%float)
                       = true)
                      (sample_times (set_amplitude 1 default_generator))).
  { apply Forall_forall. intros t _. reflexivity. }
  destruct (samples_truncated_within_int16 (constant_signal 1) cast_zero
              (set_amplitude 1 default_generator) eq_refl eq_refl Hs)
    as (payload & g' & G & _ & F).
  exists payload, g'. split; [exact G|].
  eapply Forall_impl; [|exact F]. intros x (_ & R & _). exact R.
Defined.

(** ** The right channel *)

(** 0.7 as a binary64 number: the float next below 7/10. *)
Lemma val_0_7 : float_val f0_7 = F2R 6305039478318694 (-53).
Proof. reflexivity. Qed.

Lemma bpow_inv k : 0 <= k -> (bpow (- k) * IZR (2 ^ k) = 1)%R.
Proof.
  intros H. rewrite bpow_neg, bpow_IZR by exact H.
  apply Rinv_l. apply not_0_IZR. assert (0 < 2 ^ k) by (apply Z.pow_pos_nonneg; lia). lia.
Qed.

Lemma val_0_7_near : (7 / 10 - bpow (-53) <= float_val f0_7 <= 7 / 10)%R.
Proof.
  rewrite val_0_7. unfold F2R.
  pose proof (bpow_inv 53 ltac:(lia)) as I. change (- (53)) with (-53) in I.
  change (2 ^ 53) with 9007199254740992 in I.
  pose proof (bpow_pos (-53)) as P. split; lra.
Qed.

(** The float product by 0.7 is 0.7 times the value, up to the last
    places. *)
Lemma scaled_by_0_7 a :
  in_sym_unit a = true ->
  in_sym_unit (a * f0_7)%float = true /\
  (Rabs (float_val (a * f0_7)%float - 7 / 10 * float_val a) <= bpow (-50))%R /\
  ((0 <= float_val a)%R -> (0 <= float_val (a * f0_7)%float)%R) /\
  ((float_val a <= 0)%R -> (float_val (a * f0_7)%float <= 0)%R).
Proof.
  intros Ha. pose proof (mul_sym_unit a f0_7 Ha in_sym_unit_0_7) as Hp.
  split; [exact Hp|].
  apply in_sym_unit_val in Ha. destruct Ha as [Fa Aa].
  pose proof val_0_7_near as [V1 V2].
  assert (Hb : (Rabs (float_val a * float_val f0_7) <= F2R (Zpos 4503599627370496) (-52))%R).
  { rewrite bound_one, Rabs_mult. pose proof (Rabs_pos (float_val a)).
    pose proof (bpow_pos (-53)).
    rewrite (Rabs_pos_eq (float_val f0_7)) by (rewrite val_0_7; apply Rlt_le, F2R_pos; lia).
    nra. }
  pose proof (mul_near a f0_7 4503599627370496 (-52) Fa finite_0_7 eq_refl Hb) as N.
  destruct (mul_bound a f0_7 4503599627370496 (-52) Fa finite_0_7 eq_refl Hb)
    as [_ (_ & _ & Sp & Sn)].
  fold (float_val (a * f0_7)) in Sp, Sn.
  pose proof (bpow_inv 53 ltac:(lia)) as I53. change (- (53)) with (-53) in I53.
  pose proof (bpow_inv 52 ltac:(lia)) as I52. change (- (52)) with (-52) in I52.
  pose proof (bpow_inv 50 ltac:(lia)) as I50. change (- (50)) with (-50) in I50.
  change (2 ^ 53) with 9007199254740992 in I53.
  change (2 ^ 52) with 4503599627370496 in I52.
  change (2 ^ 50) with 1125899906842624 in I50.
  apply Rabs_bound_inv in N. apply Rabs_bound_inv in Aa.
  assert (F7 : (0 <= float_val f0_7)%R) by lra.
  split.
  - apply Rabs_le.
    assert (D : (- bpow (-53) <= float_val a * (float_val f0_7 - 7 / 10) <= bpow (-53))%R)
      by (pose proof (bpow_pos (-53)); split; nra).
    lra.
  - split; intros H; [apply Sp|apply Sn]; nra.
Qed.

(** The value truncated for a sample is 32767 times the sample value, up
    to the last places, and on the same side of zero. *)
Lemma scaled_by_32767 x :
  in_sym_unit x = true ->
  (Rabs (float_val (x * 32767)%float - 32767 * float_val x) <= bpow (-37))%R /\
  ((0 <= float_val x)%R -> (0 <= float_val (x * 32767)%float)%R) /\
  ((float_val x <= 0)%R -> (float_val (x * 32767)%float <= 0)%R).
Proof.
  intros Hx. apply in_sym_unit_val in Hx. destruct Hx as [Fx Ax].
  assert (Hb : (Rabs (float_val x * float_val 32767) <= F2R (Zpos 9006924376834048) (-38))%R).
  { rewrite bound_32767, Rabs_mult, val_32767, (Rabs_pos_eq 32767) by lra. lra. }
  pose proof (mul_near x 32767 9006924376834048 (-38) Fx finite_32767 eq_refl Hb) as N.
  destruct (mul_bound x 32767 9006924376834048 (-38) Fx finite_32767 eq_refl Hb)
    as [_ (_ & _ & Sp & Sn)].
  fold (float_val (x * 32767)) in Sp, Sn. rewrite val_32767 in N, Sp, Sn.
  pose proof (bpow_inv 38 ltac:(lia)) as I38. change (- (38)) with (-38) in I38.
  pose proof (bpow_inv 37 ltac:(lia)) as I37. change (- (37)) with (-37) in I37.
  change (2 ^ 38) with 274877906944 in I38.
  change (2 ^ 37) with 137438953472 in I37.
  apply Rabs_bound_inv in N.
  split; [apply Rabs_le; lra|].
  split; intros H; [apply Sp|apply Sn]; lra.
Qed.

(** The two emitted samples of a frame: each is truncated on its own, so
    the right one is 0.7 times the left one up to one unit. *)
Lemma right_sample_near_scaled_left cu a :
  in_sym_unit a = true ->
  Z.abs (10 * pcm16 cu (a * f0_7)%float - 7 * pcm16 cu a) <= 10.
Proof.
  intros Ha.
  destruct (scaled_by_0_7 a Ha) as (Hr & N7 & P7 & M7).
  destruct (pcm16_truncates cu a Ha) as [[TLp TLn] _].
  destruct (pcm16_truncates cu (a * f0_7)%float Hr) as [[TRp TRn] _].
  destruct (scaled_by_32767 a Ha) as (NL & PL & ML).
  destruct (scaled_by_32767 (a * f0_7)%float Hr) as (NR & PR & MR).
  set (L := pcm16 cu a) in *. set (R := pcm16 cu (a * f0_7)%float) in *.
  set (vl := float_val (a * 32767)) in *.
  set (vr := float_val (a * f0_7 * 32767)) in *.
  set (x := float_val a) in *. set (y := float_val (a * f0_7)) in *.
  pose proof (bpow_inv 50 ltac:(lia)) as I50. change (- (50)) with (-50) in I50.
  pose proof (bpow_inv 37 ltac:(lia)) as I37. change (- (37)) with (-37) in I37.
  change (2 ^ 50) with 1125899906842624 in I50.
  change (2 ^ 37) with 137438953472 in I37.
  apply Rabs_bound_inv in N7. apply Rabs_bound_inv in NL. apply Rabs_bound_inv in NR.
  assert (B : (-11 < 10 * IZR R - 7 * IZR L < 11)%R).
  { destruct (Rle_dec 0 x) as [P|N].
    - specialize (TLp (PL P)). specialize (TRp (PR (P7 P))). lra.
    - assert (N' : (x <= 0)%R) by lra.
      specialize (TLn (ML N')). specialize (TRn (MR (M7 N'))). lra. }
  destruct B as [B1 B2].
  assert (C1 : (IZR (-11) < IZR (10 * R - 7 * L))%R)
    by (rewrite minus_IZR, !mult_IZR; exact B1).
  assert (C2 : (IZR (10 * R - 7 * L) < IZR 11)%R)
    by (rewrite minus_IZR, !mult_IZR; exact B2).
  apply lt_IZR in C1. apply lt_IZR in C2. lia.
Qed.




(** [set_amplitude] stores an amplitude in [0, 1] whatever it is given,
    a NaN included. *)
Lemma set_amplitude_in_unit amp g : in_unit (amplitude (set_amplitude amp g)) = true.
Proof. apply clamp_in_unit. Qed.

(** ** The announcement *)

(** C6 (the code as it stands).  [send_sap_announcement] closes its
    socket only on the path where [sendto] returns.  When [sendto]
    raises, control goes to the [except] clause and the method returns
    with the socket it created still open; when it returns, the socket
    is closed. *)
Theorem sap_socket_left_open_on_failure g :
  (exists evs,
     send_sap_announcement true false g = Ret evs /\
     open_after SapSocket false evs = true /\
     count_events (fun e => match e with EvClose SapSocket => true | _ => false end) evs
     = 0%nat) /\
  (exists evs,
     send_sap_announcement true true g = Ret evs /\
     open_after SapSocket false evs = false).
Proof. split; eexists; repeat split. Qed.

(** C8, as the claim states it, fails: the text announced is the same
    for every configuration.  For a stream sent to port 6000 at 44100 Hz
    with one channel it still names port 5004, 48000 Hz and two
    channels. *)
Lemma announcement_ignores_configuration :
  exists evs packet m a,
    send_sap_announcement true true (init "127.0.0.1" 6000 44100 1 64) = Ret evs /\
    nth 1 evs EvSleep = EvSendto SapSocket packet sap_address sap_port true /\
    skipn 4 packet = list_byte_of_string sdp_text /\
    sdp_media sdp_text = Some m /\ sdp_rtpmap sdp_text = Some a /\
    target_port (init "127.0.0.1" 6000 44100 1 64) = 6000 /\ media_port m = 5004 /\
    sample_rate (init "127.0.0.1" 6000 44100 1 64) = 44100 /\ rtpmap_rate a = 48000 /\
    channels (init "127.0.0.1" 6000 44100 1 64) = 1 /\ rtpmap_channels a = 2.
Proof. eexists _, _, _, _. repeat split. Qed.

(** C8, amended.  Whatever the configuration and whatever the outcome,
    the session description sent is one fixed text.  Its media line
    names audio on port 5004 over RTP/AVP and its attribute line names
    L16 at 48000 Hz with 2 channels; they name the stream's port, rate
    and channel count exactly when those are 5004, 48000 and 2. *)
Theorem announcement_is_fixed_text socket_ok send_ok g :
  exists evs m a,
    send_sap_announcement socket_ok send_ok g = Ret evs /\
    (forall s data ip port ok,
       In (EvSendto s data ip port ok) evs ->
       s = SapSocket /\ ip = sap_address /\ port = sap_port /\
       firstn 4 data = [x20; x00; x00; x00] /\
       skipn 4 data = list_byte_of_string sdp_text) /\
    sdp_media sdp_text = Some m /\
    sdp_rtpmap sdp_text = Some a /\
    media_kind m = "audio"%string /\ media_port m = 5004 /\
    media_proto m = "RTP/AVP"%string /\
    rtpmap_encoding a = "L16"%string /\ rtpmap_rate a = 48000 /\
    rtpmap_channels a = 2 /\
    (media_port m = target_port g <-> target_port g = 5004) /\
    (rtpmap_rate a = sample_rate g <-> sample_rate g = 48000) /\
    (rtpmap_channels a = channels g <-> channels g = 2).
Proof.
  destruct socket_ok, send_ok;
    (eexists _, _, _; split; [reflexivity|]; split;
     [ intros s data ip port ok H; simpl in H;
       repeat (destruct H as [H|H]; [try discriminate H; injection H as <- <- <- <- <-|]);
       try contradiction; repeat split
     | repeat split; intros; cbn in *; lia ]).
Qed.

(** ** The pacing loop *)

Lemma aside_counts p evs :
  (forall e, is_aside e = true -> p e = false) ->
  forallb is_aside evs = true -> count_events p evs = 0%nat.
Proof.
  intros Hp. unfold count_events. induction evs as [|e evs IH]; [reflexivity|].
  simpl. rewrite andb_true_iff. intros [He Hr]. rewrite (Hp e He). auto.
Qed.

Lemma aside_not_delivery e : is_aside e = true -> is_delivery e = false.
Proof.
  intros H. destruct e as [s|s d i p ok|s| |m]; try reflexivity.
  destruct s; [discriminate H|reflexivity].
Qed.

Lemma aside_not_attempt e : is_aside e = true -> is_send_attempt e = false.
Proof.
  unfold is_aside. rewrite !andb_true_iff, !negb_true_iff. tauto.
Qed.

Lemma aside_not_error e : is_aside e = true -> is_send_error e = false.
Proof.
  unfold is_aside. rewrite !andb_true_iff, !negb_true_iff. tauto.
Qed.

Lemma aside_not_close e : is_aside e = true -> is_stream_close e = false.
Proof.
  unfold is_aside. rewrite !andb_true_iff, !negb_true_iff. tauto.
Qed.

Lemma notices_are_asides evs : forallb is_notice evs = true -> forallb is_aside evs = true.
Proof.
  induction evs as [|e evs IH]; [reflexivity|].
  simpl. rewrite !andb_true_iff. intros [He Hr]. split; [|auto].
  destruct e as [| | | |m]; try discriminate. destruct m; try discriminate; reflexivity.
Qed.

Lemma pace_events_asides p : forallb is_aside (pace_events p) = true.
Proof. destruct p; reflexivity. Qed.

Lemma sap_events_asides socket_ok send_ok g :
  exists evs, send_sap_announcement socket_ok send_ok g = Ret evs /\
              forallb is_aside evs = true.
Proof. destruct socket_ok, send_ok; eexists; split; reflexivity. Qed.

Lemma tally_app a b :
  tally (a ++ b) =
  let '(d1, s1, e1, c1) := tally a in
  let '(d2, s2, e2, c2) := tally b in
  ((d1 + d2)%nat, (s1 + s2)%nat, (e1 + e2)%nat, (c1 + c2)%nat).
Proof. unfold tally. rewrite !count_events_app. reflexivity. Qed.

Lemma tally_asides evs : forallb is_aside evs = true -> tally evs = (0, 0, 0, 0)%nat.
Proof.
  intros H. unfold tally.
  rewrite (aside_counts _ evs aside_not_delivery H), (aside_counts _ evs aside_not_attempt H),
    (aside_counts _ evs aside_not_error H), (aside_counts _ evs aside_not_close H).
  reflexivity.
Qed.

Lemma deliveries_fields v n : forall g,
  can_generate (deliveries v n g) = can_generate g /\
  socket_open (deliveries v n g) = socket_open g /\
  running (deliveries v n g) = running g /\
  sequence_number (deliveries v n g) = sequence_number g + Z.of_nat n.
Proof.
  induction n as [|n IH]; intros g.
  - simpl. repeat split. lia.
  - cbn [deliveries]. destruct (IH (after_delivery v g)) as (A & B & C & D).
    rewrite A, B, C, D. cbn [after_delivery sequence_number]. repeat split. lia.
Qed.

Lemma delivers_inv t :
  delivers t = true ->
  tick_interrupt t = NoInterrupt /\ tick_send_ok t = true /\ tick_expired t = false.
Proof.
  unfold delivers. destruct (tick_interrupt t); try discriminate.
  rewrite andb_true_iff, negb_true_iff. tauto.
Qed.

(** The loop over iterations that all deliver. *)
Lemma streaming_loop_delivers np_sin cu v goods : forall rest g c,
  can_generate g = true -> socket_open g = true -> running g = true ->
  forallb delivers goods = true ->
  exists evs,
    streaming_loop np_sin cu v (goods ++ rest) g c
    = more_events evs
        (streaming_loop np_sin cu v rest (deliveries v (List.length goods) g)
                        (c + Z.of_nat (List.length goods))) /\
    tally evs = (List.length goods, List.length goods, 0, 0)%nat.
Proof.
  induction goods as [|t goods IH]; intros rest g c Hg Ho Hr Hd.
  - exists []. cbn [app List.length deliveries]. rewrite Z.add_0_r. split; [|reflexivity].
    destruct (streaming_loop np_sin cu v rest g c). reflexivity.
  - cbn [forallb] in Hd. apply andb_true_iff in Hd. destruct Hd as [Ht Hd].
    destruct (delivers_inv t Ht) as (I & Sok & X).
    destruct (send_rtp_packet_delivers np_sin cu v g Hg Ho) as (b & a & E & Nb & Na).
    destruct (IH rest (after_delivery v g) (c + 1) Hg Ho Hr Hd) as (evs & L & T).
    cbn [app streaming_loop]. rewrite Hr, I, Sok, E, X. cbn [negb].
    rewrite L.
    exists ((b ++ [EvSendto StreamSocket (rtp_packet_of np_sin cu v g)
                            (target_ip g) (target_port g) true] ++ a)
            ++ pace_events (tick_pace t) ++ evs).
    split.
    + cbn [List.length deliveries].
      replace (c + Z.of_nat (S (List.length goods)))
        with (c + 1 + Z.of_nat (List.length goods)) by lia.
      generalize (streaming_loop np_sin cu v rest
                    (deliveries v (List.length goods) (after_delivery v g))
                    (c + 1 + Z.of_nat (List.length goods))).
      intros s. unfold more_events.
      cbn [loop_exit_of loop_gen loop_count loop_events].
      rewrite <- !app_assoc. reflexivity.
    + rewrite !tally_app, T.
      rewrite (tally_asides b (notices_are_asides b Nb)),
        (tally_asides a (notices_are_asides a Na)),
        (tally_asides _ (pace_events_asides (tick_pace t))).
      cbn. reflexivity.
Qed.

Lemma send_fails_inv t :
  send_fails t = true -> tick_interrupt t <> BeforeSend /\ tick_send_ok t = false.
Proof.
  unfold send_fails. destruct (tick_interrupt t); try discriminate;
    rewrite negb_true_iff; intros; split; congruence.
Qed.

(** The iteration whose send fails ends the loop. *)
Lemma streaming_loop_breaks np_sin cu v t rest g c :
  can_generate g = true -> running g = true -> send_fails t = true ->
  exists evs,
    streaming_loop np_sin cu v (t :: rest) g c
    = mkLoop Broke (set_phase (next_phase g) g) c evs /\
    tally evs = (0, 1, 1, 0)%nat.
Proof.
  intros Hg Hr Ht. destruct (send_fails_inv t Ht) as (I & S).
  assert (F : socket_open g && tick_send_ok t = false) by (rewrite S; apply andb_false_r).
  destruct (send_rtp_packet_fails np_sin cu v (tick_send_ok t) g Hg F) as (b & E & Nb).
  eexists. cbn [streaming_loop]. rewrite Hr, E. cbn [negb].
  split.
  - destruct (tick_interrupt t); try reflexivity. congruence.
  - rewrite tally_app, (tally_asides b (notices_are_asides b Nb)). reflexivity.
Qed.

(** With the socket closed no iteration delivers. *)
Lemma closed_socket_loop np_sin cu v env g c :
  can_generate g = true -> socket_open g = false ->
  count_events is_delivery (loop_events (streaming_loop np_sin cu v env g c)) = 0%nat.
Proof.
  intros Hg Ho. destruct env as [|t env]; [reflexivity|].
  cbn [streaming_loop]. destruct (negb (running g)); [reflexivity|].
  assert (F : socket_open g && tick_send_ok t = false) by (rewrite Ho; reflexivity).
  destruct (send_rtp_packet_fails np_sin cu v (tick_send_ok t) g Hg F) as (b & E & Nb).
  rewrite E.
  destruct (tick_interrupt t); try reflexivity;
    cbn [loop_events]; rewrite count_events_app,
      (count_notices _ b notice_not_delivery Nb); reflexivity.
Qed.

Lemma closed_socket_run np_sin cu v sap1 sap2 env g :
  can_generate g = true -> socket_open g = false ->
  count_events is_delivery (run_events (start_streaming np_sin cu v sap1 sap2 env g))
  = 0%nat.
Proof.
  intros Hg Ho. destruct (can_generate_inv g Hg) as [Hr _].
  unfold start_streaming.
  assert (A : exists evs,
             match v with
             | RtpSend => Ret []
             | RtpSendSap => send_sap_announcement sap1 sap2 g
             end = Ret evs /\ forallb is_aside evs = true).
  { destruct v; [exists []; split; reflexivity | apply sap_events_asides]. }
  destruct A as (sap & -> & As).
  unfold py_truediv. cbn [buffer_size sample_rate set_running].
  apply Z.eqb_neq in Hr. rewrite Hr.
  pose proof (closed_socket_loop np_sin cu v env (set_running true g) 0 Hg Ho) as L.
  assert (O : count_events is_delivery (EvPrint MsgBanner :: sap) = 0%nat).
  { change (EvPrint MsgBanner :: sap) with ([EvPrint MsgBanner] ++ sap).
    rewrite count_events_app, (aside_counts _ sap aside_not_delivery As). reflexivity. }
  destruct (streaming_loop np_sin cu v env (set_running true g) 0) as [ex g1 c1 evs1].
  cbn [loop_events loop_exit_of loop_gen loop_count] in *.
  destruct ex; cbn [run_events]; rewrite ?count_events_app, O, L; reflexivity.
Qed.

Lemma last_after_two {A} (l : list A) a b d : last (l ++ [a; b]) d = b.
Proof.
  induction l as [|x l IH]; [reflexivity|].
  cbn [app]. rewrite <- IH at 2. destruct (l ++ [a; b]) eqn:E; [|reflexivity].
  destruct l; discriminate E.
Qed.

(** C7.  When the sends of the first [n] iterations succeed and the
    send of the next one fails, [start_streaming] ends there: it has
    counted and delivered exactly [n] packets, tried [n + 1], printed the
    send error once, closed the socket once and reported [n].  The
    object is left stopped with its socket closed, and no later run of
    it delivers a packet. *)
Theorem transmit_failure_is_fatal np_sin cu v sap_socket_ok sap_send_ok goods bad rest g :
  can_generate g = true ->
  socket_open g = true ->
  forallb delivers goods = true ->
  send_fails bad = true ->
  let n := List.length goods in
  let r := start_streaming np_sin cu v sap_socket_ok sap_send_ok
                           (goods ++ bad :: rest) g in
  run_raised r = None /\
  run_finished r = true /\
  run_count r = Z.of_nat n /\
  count_events is_delivery (run_events r) = n /\
  count_events is_send_attempt (run_events r) = S n /\
  count_events is_send_error (run_events r) = 1%nat /\
  count_events is_stream_close (run_events r) = 1%nat /\
  last (run_events r) EvSleep = EvPrint (MsgSentCount (Z.of_nat n)) /\
  running (run_gen r) = false /\
  socket_open (run_gen r) = false /\
  forall sap1 sap2 env,
    count_events is_delivery
      (run_events (start_streaming np_sin cu v sap1 sap2 env (run_gen r))) = 0%nat.
Proof.
  intros Hg Ho Hd Hb n r.
  destruct (can_generate_inv g Hg) as [Hr _].
  assert (A : exists evs,
             match v with
             | RtpSend => Ret []
             | RtpSendSap => send_sap_announcement sap_socket_ok sap_send_ok g
             end = Ret evs /\ forallb is_aside evs = true).
  { destruct v; [exists []; split; reflexivity | apply sap_events_asides]. }
  destruct A as (sap & Ea & As).
  destruct (streaming_loop_delivers np_sin cu v goods (bad :: rest)
              (set_running true g) 0 Hg Ho eq_refl Hd) as (evs1 & L1 & T1).
  destruct (deliveries_fields v n (set_running true g)) as (Dg & Do & Dr & _).
  fold n in L1, T1.
  destruct (streaming_loop_breaks np_sin cu v bad rest
              (deliveries v n (set_running true g)) (0 + Z.of_nat n))
    as (evs2 & L2 & T2); [rewrite Dg; exact Hg | rewrite Dr; reflexivity | exact Hb |].
  rewrite L2 in L1. unfold more_events in L1.
  cbn [loop_exit_of loop_gen loop_count loop_events] in L1.
  assert (R : r = mkRun None true
                    (set_socket_open false
                       (set_running false
                          (set_phase (next_phase (deliveries v n (set_running true g)))
                                     (deliveries v n (set_running true g)))))
                    (0 + Z.of_nat n)
                    ((EvPrint MsgBanner :: sap) ++ (evs1 ++ evs2) ++ [] ++
                     [EvClose StreamSocket; EvPrint (MsgSentCount (0 + Z.of_nat n))])).
  { unfold r, start_streaming. rewrite Ea. unfold py_truediv.
    cbn [buffer_size sample_rate set_running].
    apply Z.eqb_neq in Hr. rewrite Hr. rewrite L1. reflexivity. }
  assert (Tall : tally (run_events r) = (n, S n, 1, 1)%nat).
  { rewrite R. cbn [run_events].
    change (EvPrint MsgBanner :: sap) with ([EvPrint MsgBanner] ++ sap).
    rewrite !tally_app, T1, T2, (tally_asides sap As). cbn.
    repeat f_equal; lia. }
  unfold tally in Tall. injection Tall as C1 C2 C3 C4.
  rewrite C1, C2, C3, C4.
  assert (Gen : can_generate (run_gen r) = true /\ socket_open (run_gen r) = false /\
                running (run_gen r) = false).
  { rewrite R. cbn [run_gen]. repeat split. change (can_generate (deliveries v n (set_running true g)) = true).
    rewrite Dg. exact Hg. }
  destruct Gen as (G1 & G2 & G3).
  repeat split; try reflexivity; try assumption.
  - rewrite R. reflexivity.
  - rewrite R. reflexivity.
  - rewrite R. cbn [run_count]. lia.
  - rewrite R. cbn [run_events]. cbn [app]. rewrite app_comm_cons, app_assoc.
    apply last_after_two.
  - intros sap1 sap2 env. apply closed_socket_run; assumption.
Qed.

Lemma transmit_failure_is_fatal_witness :
  let goods := [mkTick NoInterrupt true Early false;
                mkTick NoInterrupt true Behind false;
                mkTick NoInterrupt true OnTime false] in
  let bad := mkTick NoInterrupt false Early false in
  let r := start_streaming (constant_signal 1) cast_zero RtpSend true true
                           (goods ++ bad :: [mkTick NoInterrupt true Early false])
                           default_generator in
  can_generate default_generator = true /\
  socket_open default_generator = true /\
  forallb delivers goods = true /\
  send_fails bad = true /\
  run_count r = 3 /\
  count_events is_delivery (run_events r) = 3%nat /\
  count_events is_send_error (run_events r) = 1%nat /\
  socket_open (run_gen r) = false.
Proof.
  intros goods bad r.
  destruct (transmit_failure_is_fatal (constant_signal 1) cast_zero RtpSend true true
              goods bad [mkTick NoInterrupt true Early false] default_generator
              eq_refl eq_refl eq_refl eq_refl)
    as (_ & _ & C & D & _ & E & _ & _ & _ & O & _).
  repeat split; assumption.
Defined.

(** * Further properties of the sender *)

(** ** Headers written and read back *)

Lemma byte_of_Z_of_byte b : byte_of_Z (Z_of_byte b) = b.
Proof.
  unfold byte_of_Z, Z_of_byte.
  pose proof (Byte.to_N_bounded b) as B.
  rewrite Z.mod_small by lia. rewrite N2Z.id, Byte.of_to_N. reflexivity.
Qed.

Lemma byte_of_Z_mod z : byte_of_Z (z mod 256) = byte_of_Z z.
Proof. unfold byte_of_Z. rewrite Z.mod_mod by lia. reflexivity. Qed.

Lemma be_value_snoc bs b : be_value (bs ++ [b]) = be_value bs * 256 + Z_of_byte b.
Proof. unfold be_value. rewrite fold_left_app. reflexivity. Qed.

Lemma be_value_range bs : 0 <= be_value bs < 2 ^ (8 * Z.of_nat (List.length bs)).
Proof.
  induction bs as [|b bs IH] using rev_ind.
  - change (0 <= 0 < 1). lia.
  - rewrite be_value_snoc, length_app. cbn [List.length].
    replace (8 * Z.of_nat (List.length bs + 1)) with (8 * Z.of_nat (List.length bs) + 8) by lia.
    rewrite Z.pow_add_r by lia. change (2 ^ 8) with 256.
    pose proof (Z_of_byte_range b).
    generalize dependent (2 ^ (8 * Z.of_nat (List.length bs))). intros P IH. lia.
Qed.

Lemma be_bytes_snoc n v : be_bytes (S n) v = be_bytes n (v / 256) ++ [byte_of_Z v].
Proof.
  revert v. induction n as [|n IH]; intros v.
  - cbn. reflexivity.
  - change (be_bytes (S (S n)) v)
      with (byte_of_Z (Z.shiftr v (8 * Z.of_nat (S n))) :: be_bytes (S n) v).
    rewrite IH. cbn [be_bytes app]. f_equal.
    rewrite !Z.shiftr_div_pow2 by lia.
    replace (8 * Z.of_nat (S n)) with (8 + 8 * Z.of_nat n) by lia.
    rewrite Z.pow_add_r by lia. change (2 ^ 8) with 256.
    rewrite Z.div_div by (try lia; apply Z.pow_pos_nonneg; lia). reflexivity.
Qed.

Lemma be_bytes_one v : be_bytes 1 v = [byte_of_Z v].
Proof.
  cbn [be_bytes]. change (8 * Z.of_nat 0) with 0. rewrite Z.shiftr_0_r. reflexivity.
Qed.

(** Writing the value of a byte string on as many bytes gives the
    string back. *)
Lemma be_bytes_be_value bs : be_bytes (List.length bs) (be_value bs) = bs.
Proof.
  induction bs as [|b bs IH] using rev_ind; [reflexivity|].
  rewrite length_app. cbn [List.length]. rewrite Nat.add_1_r.
  rewrite be_bytes_snoc, be_value_snoc.
  pose proof (Z_of_byte_range b) as R.
  replace ((be_value bs * 256 + Z_of_byte b) / 256) with (be_value bs)
    by (apply Z.div_unique with (Z_of_byte b); lia).
  rewrite IH. f_equal. f_equal.
  rewrite <- byte_of_Z_mod, Z.add_comm, Z.mod_add by lia.
  rewrite byte_of_Z_mod. apply byte_of_Z_of_byte.
Qed.

(** The flags [debug_rtp_header] takes out of the first byte put it
    together again. *)
Lemma first_byte_fields b :
  let B := Z_of_byte b in
  byte_of_Z (Z.lor (Z.lor (Z.lor (Z.shiftl (Z.land (Z.shiftr B 6) 3) 6)
                                 (Z.shiftl (Z.land (Z.shiftr B 5) 1) 5))
                          (Z.shiftl (Z.land (Z.shiftr B 4) 1) 4))
                   (Z.land B 15)) = b.
Proof. destruct b; vm_compute; reflexivity. Qed.

Lemma second_byte_fields b :
  let B := Z_of_byte b in
  byte_of_Z (Z.lor (Z.shiftl (Z.land (Z.shiftr B 7) 1) 7) (Z.land B 127)) = b.
Proof. destruct b; vm_compute; reflexivity. Qed.

Lemma land_mask_range a :
  0 <= Z.land a 3 < 4 /\ 0 <= Z.land a 1 < 2 /\
  0 <= Z.land a 15 < 16 /\ 0 <= Z.land a 127 < 128.
Proof.
  split; [exact (land_ones_range a 2 ltac:(lia))|].
  split; [exact (land_ones_range a 1 ltac:(lia))|].
  split; [exact (land_ones_range a 4 ltac:(lia))|exact (land_ones_range a 7 ltac:(lia))].
Qed.

(** The line [debug_rtp_header] prints for twelve bytes. *)
Lemma debug_rtp_header_twelve b0 b1 b2 b3 b4 b5 b6 b7 b8 b9 b10 b11 :
  let header := [b0; b1; b2; b3; b4; b5; b6; b7; b8; b9; b10; b11] in
  exists line,
    debug_rtp_header header = [line] /\
    header_line_in_range line = true /\
    bytes_of_header_line line = header.
Proof.
  intros header. unfold debug_rtp_header, struct_unpack_BBHII, header.
  cbn [List.length firstn skipn Z.of_nat Pos.of_succ_nat Pos.succ Z.leb Z.compare
       Pos.compare Pos.compare_cont].
  eexists. split; [reflexivity|]. split.
  - cbn [header_line_in_range].
    rewrite !andb_true_iff, !Z.leb_le, !Z.ltb_lt.
    pose proof (be_value_range [b2; b3]) as R2.
    pose proof (be_value_range [b4; b5; b6; b7]) as R4.
    pose proof (be_value_range [b8; b9; b10; b11]) as R8.
    change (2 ^ _) with 65536 in R2. change (2 ^ _) with 4294967296 in R4, R8.
    pose proof (land_mask_range (Z.shiftr (be_value [b0]) 6)) as (V & _).
    pose proof (land_mask_range (Z.shiftr (be_value [b0]) 5)) as (_ & P & _).
    pose proof (land_mask_range (Z.shiftr (be_value [b0]) 4)) as (_ & X & _).
    pose proof (land_mask_range (be_value [b0])) as (_ & _ & C & _).
    pose proof (land_mask_range (Z.shiftr (be_value [b1]) 7)) as (_ & M & _).
    pose proof (land_mask_range (be_value [b1])) as (_ & _ & _ & T).
    repeat split; lia.
  - cbn [bytes_of_header_line].
    rewrite (be_bytes_be_value [b2; b3] : be_bytes 2 _ = _),
      (be_bytes_be_value [b4; b5; b6; b7] : be_bytes 4 _ = _),
      (be_bytes_be_value [b8; b9; b10; b11] : be_bytes 4 _ = _).
    change (be_value [b0]) with (Z_of_byte b0). change (be_value [b1]) with (Z_of_byte b1).
    rewrite !be_bytes_one, (first_byte_fields b0), (second_byte_fields b1). reflexivity.
Qed.

(** What [struct.unpack] reads from the header of [g]. *)
Lemma struct_unpack_created_header v g :
  struct_unpack_BBHII
    (be_bytes 1 first_byte ++ be_bytes 1 (second_byte v) ++
     be_bytes 2 (sequence_number g mod 65536) ++
     be_bytes 4 (timestamp g mod 4294967296) ++ be_bytes 4 ssrc)
  = (128, payload_type v, sequence_number g mod 65536,
     timestamp g mod 4294967296, 0x12345678).
Proof.
  unfold struct_unpack_BBHII. cbn [be_bytes app skipn firstn].
  repeat f_equal.
  - read_field 1%nat (second_byte v). destruct v; reflexivity.
  - read_field 2%nat (sequence_number g mod 65536).
    change (2 ^ (8 * Z.of_nat 2)) with 65536. apply Z.mod_mod. lia.
  - read_field 4%nat (timestamp g mod 4294967296).
    change (2 ^ (8 * Z.of_nat 4)) with 4294967296. apply Z.mod_mod. lia.
Qed.

(** The line [debug_rtp_header] prints for the header of [g]. *)
Lemma debug_created_header v g :
  debug_rtp_header
    (be_bytes 1 first_byte ++ be_bytes 1 (second_byte v) ++
     be_bytes 2 (sequence_number g mod 65536) ++
     be_bytes 4 (timestamp g mod 4294967296) ++ be_bytes 4 ssrc)
  = [EvPrint (MsgHeader 2 0 0 0 0 (payload_type v) (sequence_number g mod 65536)
                        (timestamp g mod 4294967296) 0x12345678)].
Proof.
  unfold debug_rtp_header. rewrite struct_unpack_created_header.
  rewrite !length_app, !be_bytes_length. cbn [Nat.add Z.of_nat Pos.of_succ_nat Pos.succ].
  change (12 <=? 12) with true. cbv iota beta.
  destruct v; reflexivity.
Qed.

(** X1.  Whatever integers the counters hold, negative or beyond 32
    bits, [create_rtp_header] raises nothing and returns twelve bytes:
    0x80, the payload type, the sequence number modulo 65536 and the
    timestamp modulo 2^32 in network order, and the SSRC 12 34 56 78.
    Unpacking them gives these five values back. *)
Theorem rtp_header_round_trip v g :
  exists hdr,
    create_rtp_header v g = Ret hdr /\
    List.length hdr = 12%nat /\
    firstn 2 hdr = [x80; byte_of_Z (payload_type v)] /\
    firstn 2 (skipn 2 hdr) = be_bytes 2 (sequence_number g mod 65536) /\
    firstn 4 (skipn 4 hdr) = be_bytes 4 (timestamp g mod 4294967296) /\
    skipn 8 hdr = [x12; x34; x56; x78] /\
    struct_unpack_BBHII hdr
    = (128, payload_type v, sequence_number g mod 65536,
       timestamp g mod 4294967296, 0x12345678).
Proof.
  eexists. split; [apply create_rtp_header_bytes|].
  split; [reflexivity|].
  split; [destruct v; reflexivity|].
  split; [reflexivity|]. split; [reflexivity|]. split; [reflexivity|].
  apply struct_unpack_created_header.
Qed.

(** ** [debug_rtp_header] *)

Lemma twelve_bytes (l : list byte) :
  List.length l = 12%nat ->
  exists b0 b1 b2 b3 b4 b5 b6 b7 b8 b9 b10 b11,
    l = [b0; b1; b2; b3; b4; b5; b6; b7; b8; b9; b10; b11].
Proof.
  intros H.
  do 12 (destruct l as [|? l]; [discriminate H|]).
  destruct l; [|discriminate H].
  repeat eexists.
Qed.

(** X2.  [debug_rtp_header] by the length of its argument.  Fewer than
    twelve bytes, none included: nothing is printed and nothing raised.
    Exactly twelve: one line, whose fields are within the widths of the
    RTP header and stand for the very bytes passed.  More than twelve,
    as for a whole packet: the guard [len(header) >= 12] lets the buffer
    through and [struct.unpack] raises [struct.error]. *)
Theorem debug_rtp_header_by_length header :
  ((List.length header < 12)%nat -> debug_rtp_header_any header = Ret []) /\
  (List.length header = 12%nat ->
     exists line,
       debug_rtp_header_any header = Ret [line] /\
       debug_rtp_header header = [line] /\
       header_line_in_range line = true /\
       bytes_of_header_line line = header) /\
  ((12 < List.length header)%nat -> debug_rtp_header_any header = Raise StructError).
Proof.
  unfold debug_rtp_header_any, struct_unpack_BBHII_sized.
  split; [|split].
  - intros H. replace (12 <=? _) with false; [reflexivity|].
    symmetry. apply Z.leb_gt. lia.
  - intros H. destruct (twelve_bytes header H)
      as (b0 & b1 & b2 & b3 & b4 & b5 & b6 & b7 & b8 & b9 & b10 & b11 & ->).
    destruct (debug_rtp_header_twelve b0 b1 b2 b3 b4 b5 b6 b7 b8 b9 b10 b11)
      as (line & D & R & B).
    exists line. split; [|auto].
    rewrite <- D. reflexivity.
  - intros H. replace (12 <=? _) with true by (symmetry; apply Z.leb_le; lia).
    replace (_ =? 12) with false by (symmetry; apply Z.eqb_neq; lia).
    reflexivity.
Qed.

Lemma debug_rtp_header_by_length_witness :
  let header := [x80; x60; x00; x01; x00; x00; x00; x40; x12; x34; x56; x78] in
  debug_rtp_header_any [] = Ret [] /\
  debug_rtp_header_any (firstn 11 header) = Ret [] /\
  debug_rtp_header_any header
  = Ret [EvPrint (MsgHeader 2 0 0 0 0 96 1 64 0x12345678)] /\
  debug_rtp_header_any (header ++ [x00; x00]) = Raise StructError.
Proof.
  intros header.
  destruct (debug_rtp_header_by_length []) as (S0 & _).
  destruct (debug_rtp_header_by_length (firstn 11 header)) as (S1 & _).
  destruct (debug_rtp_header_by_length header) as (_ & E & _).
  destruct (debug_rtp_header_by_length (header ++ [x00; x00])) as (_ & _ & L).
  split; [apply S0; simpl; lia|].
  split; [apply S1; simpl; lia|].
  split; [|apply L; simpl; lia].
  destruct (E eq_refl) as (line & A & D & _).
  rewrite A. f_equal. rewrite <- D. reflexivity.
Defined.

(** ** What a delivered packet prints *)

(** X3.  A packet that is delivered.  rtp_send.py prints nothing: the
    call on the socket is the only event.  rtp_send_sap.py reports every
    packet whose stored sequence number is a multiple of 100 with three
    lines: the stored number, the size of the packet (twelve bytes and
    two per sample) and the stored timestamp; the header as read back
    from its bytes, V=2 P=0 X=0 CC=0 M=0 PT=10 with the sequence number
    modulo 65536 and the timestamp modulo 2^32; and, after the send, the
    number of bytes sent.  Other packets print nothing. *)
Theorem delivered_packet_report np_sin cu g :
  can_generate g = true -> socket_open g = true ->
  let call v :=
    EvSendto StreamSocket (rtp_packet_of np_sin cu v g) (target_ip g) (target_port g) true in
  let size := 12 + 2 * Z.of_nat (List.length (block_samples np_sin g)) in
  send_rtp_packet np_sin cu RtpSend true g
  = Ret (true, after_delivery RtpSend g, [call RtpSend]) /\
  send_rtp_packet np_sin cu RtpSendSap true g
  = Ret (true, after_delivery RtpSendSap g,
         if sequence_number g mod 100 =? 0
         then [EvPrint (MsgPacketInfo (sequence_number g) size (timestamp g));
               EvPrint (MsgHeader 2 0 0 0 0 10 (sequence_number g mod 65536)
                                  (timestamp g mod 4294967296) 0x12345678);
               call RtpSendSap;
               EvPrint (MsgBytesSent size (target_ip g) (target_port g))]
         else [call RtpSendSap]).
Proof.
  intros Hg Ho call size.
  assert (L : forall v, Z.of_nat (List.length (rtp_packet_of np_sin cu v g)) = size).
  { intros v. rewrite rtp_packet_of_length. unfold size. lia. }
  unfold send_rtp_packet.
  rewrite !create_rtp_header_bytes, (generate_audio_buffer_ok np_sin cu g Hg).
  cbn [bind]. cbn [socket_open set_phase sequence_number timestamp target_ip target_port].
  rewrite Ho. cbn [andb].
  fold (rtp_packet_of np_sin cu RtpSend g). fold (rtp_packet_of np_sin cu RtpSendSap g).
  split; [reflexivity|].
  rewrite debug_created_header, L.
  destruct (sequence_number g mod 100 =? 0); reflexivity.
Qed.

Lemma delivered_packet_report_witness :
  can_generate default_generator = true /\
  socket_open default_generator = true /\
  send_rtp_packet (constant_signal 1) cast_zero RtpSendSap true default_generator
  = Ret (true, after_delivery RtpSendSap default_generator,
         [EvPrint (MsgPacketInfo 0 268 0);
          EvPrint (MsgHeader 2 0 0 0 0 10 0 0 0x12345678);
          EvSendto StreamSocket
                   (rtp_packet_of (constant_signal 1) cast_zero RtpSendSap default_generator)
                   "127.0.0.1" 5004 true;
          EvPrint (MsgBytesSent 268 "127.0.0.1" 5004)]).
Proof.
  split; [reflexivity|]. split; [reflexivity|].
  exact (proj2 (delivered_packet_report (constant_signal 1) cast_zero default_generator
                  eq_refl eq_refl)).
Defined.

(** ** Exceptions that leave the methods *)

Lemma to_stereo_negative g audio :
  buffer_size g < 0 -> to_stereo g audio = Raise ValueError.
Proof.
  intros H. unfold to_stereo, np_zeros2.
  apply Z.ltb_lt in H. rewrite H. reflexivity.
Qed.

Lemma advance_phase_zero_rate g :
  sample_rate g = 0 -> advance_phase g = Raise ZeroDivisionError.
Proof. intros H. unfold advance_phase, py_truediv. rewrite H. reflexivity. Qed.

Lemma generate_audio_buffer_zero_rate np_sin cu g :
  sample_rate g = 0 -> (channels g = 2 -> 0 <= buffer_size g) ->
  generate_audio_buffer np_sin cu g = Raise ZeroDivisionError.
Proof.
  intros Hr Hb. unfold generate_audio_buffer.
  destruct (channels g =? 2) eqn:C.
  - apply Z.eqb_eq in C. rewrite to_stereo_interleaves by auto.
    cbn [bind]. rewrite advance_phase_zero_rate by exact Hr. reflexivity.
  - cbn [bind]. rewrite advance_phase_zero_rate by exact Hr. reflexivity.
Qed.

Lemma generate_audio_buffer_negative_stereo np_sin cu g :
  channels g = 2 -> buffer_size g < 0 ->
  generate_audio_buffer np_sin cu g = Raise ValueError.
Proof.
  intros Hc Hb. unfold generate_audio_buffer.
  apply Z.eqb_eq in Hc. rewrite Hc, to_stereo_negative by exact Hb. reflexivity.
Qed.

(** The announcement, when there is one, returns. *)
Lemma announce_returns v s1 s2 g :
  exists sap,
    match v with
    | RtpSend => Ret []
    | RtpSendSap => send_sap_announcement s1 s2 g
    end = Ret sap /\
    forallb is_aside sap = true /\
    stream_datagrams sap = [] /\
    (v = RtpSend -> sap = []).
Proof.
  destruct v.
  - exists []. repeat split.
  - destruct s1, s2; eexists; (split; [reflexivity|]); repeat split; discriminate.
Qed.

(** X4.  With a sample rate of zero, and a block size that is not
    negative when there are two channels (a negative stereo block
    raises [ValueError] earlier), [generate_audio_buffer] builds
    its block (numpy divides by zero without raising) and then raises
    [ZeroDivisionError] at the phase update; [send_rtp_packet] does not
    catch it, its [try] covering the call of [sendto] only, so it
    neither sends nor returns [False].  [start_streaming] does not get
    that far: after the banner (and the announcement, in
    rtp_send_sap.py) it has set [running] and raises on computing the
    packet interval, before its [try]: no packet is sent, the socket is
    not closed, no count is printed and the object is left marked as
    running. *)
Theorem zero_sample_rate_raises np_sin cu v ok sap_socket_ok sap_send_ok env g :
  sample_rate g = 0 ->
  (channels g = 2 -> 0 <= buffer_size g) ->
  let r := start_streaming np_sin cu v sap_socket_ok sap_send_ok env g in
  generate_audio_buffer np_sin cu g = Raise ZeroDivisionError /\
  send_rtp_packet np_sin cu v ok g = Raise ZeroDivisionError /\
  run_raised r = Some ZeroDivisionError /\
  stream_datagrams (run_events r) = [] /\
  count_events is_stream_close (run_events r) = 0%nat /\
  (forall n, ~ In (EvPrint (MsgSentCount n)) (run_events r)) /\
  socket_open (run_gen r) = socket_open g /\
  running (run_gen r) = true /\
  sequence_number (run_gen r) = sequence_number g /\
  phase (run_gen r) = phase g.
Proof.
  intros Hr Hb r.
  pose proof (generate_audio_buffer_zero_rate np_sin cu g Hr Hb) as G.
  split; [exact G|].
  split.
  { unfold send_rtp_packet. rewrite create_rtp_header_bytes, G. reflexivity. }
  destruct (announce_returns v sap_socket_ok sap_send_ok g) as (sap & Ea & As & Ds & _).
  assert (R : r = mkRun (Some ZeroDivisionError) true (set_running true g) 0
                        (EvPrint MsgBanner :: sap)).
  { unfold r, start_streaming. rewrite Ea. unfold py_truediv.
    cbn [buffer_size sample_rate set_running]. rewrite Hr. reflexivity. }
  rewrite R. cbn [run_raised run_events run_gen].
  split; [reflexivity|].
  split; [exact Ds|].
  split.
  { change (EvPrint MsgBanner :: sap) with ([EvPrint MsgBanner] ++ sap).
    rewrite count_events_app, (aside_counts _ sap aside_not_close As). reflexivity. }
  split; [|repeat split].
  intros n [H|H]; [discriminate H|].
  destruct v.
  - injection Ea as <-. exact H.
  - destruct sap_socket_ok, sap_send_ok; injection Ea as <-; simpl in H;
      repeat (destruct H as [H|H]; [discriminate H|]); exact H.
Qed.

Lemma zero_sample_rate_raises_witness :
  let g := init "127.0.0.1" 5004 0 2 64 in
  let r := start_streaming (constant_signal 1) cast_zero RtpSendSap true true
                           [mkTick NoInterrupt true OnTime false] g in
  sample_rate g = 0 /\
  (channels g = 2 -> 0 <= buffer_size g) /\
  send_rtp_packet (constant_signal 1) cast_zero RtpSendSap true g = Raise ZeroDivisionError /\
  run_raised r = Some ZeroDivisionError /\
  stream_datagrams (run_events r) = [] /\
  socket_open (run_gen r) = true /\
  running (run_gen r) = true.
Proof.
  intros g r.
  assert (Hb : channels g = 2 -> 0 <= buffer_size g) by (intros _; simpl; lia).
  split; [reflexivity|]. split; [exact Hb|].
  destruct (zero_sample_rate_raises (constant_signal 1) cast_zero RtpSendSap true true true
              [mkTick NoInterrupt true OnTime false] g eq_refl Hb)
    as (_ & S & R & D & _ & _ & O & U & _).
  repeat split; assumption.
Defined.

(** X5.  A stereo block of negative size, the sample rate not being
    zero: [np.zeros((n, 2))] raises [ValueError], which leaves
    [generate_audio_buffer] and [send_rtp_packet] with the phase and the
    counters untouched.  In [start_streaming], when the loop gets to its
    first send (there is an iteration and no interrupt comes before the
    send), it is no [KeyboardInterrupt], so only the
    [finally] clause runs: the socket is closed, [running] is cleared,
    "Sent 0 RTP packets" is printed last and the exception goes on to
    the caller; nothing was sent and "Stopping RTP stream..." is not
    printed. *)
Theorem negative_stereo_block_raises np_sin cu v ok sap_socket_ok sap_send_ok t env g :
  channels g = 2 -> buffer_size g < 0 -> sample_rate g <> 0 ->
  tick_interrupt t <> BeforeSend ->
  let r := start_streaming np_sin cu v sap_socket_ok sap_send_ok (t :: env) g in
  generate_audio_buffer np_sin cu g = Raise ValueError /\
  send_rtp_packet np_sin cu v ok g = Raise ValueError /\
  run_raised r = Some ValueError /\
  run_finished r = true /\
  run_count r = 0 /\
  stream_datagrams (run_events r) = [] /\
  count_events is_stream_close (run_events r) = 1%nat /\
  count_events is_stopping (run_events r) = 0%nat /\
  last (run_events r) EvSleep = EvPrint (MsgSentCount 0) /\
  running (run_gen r) = false /\
  socket_open (run_gen r) = false /\
  phase (run_gen r) = phase g /\
  sequence_number (run_gen r) = sequence_number g.
Proof.
  intros Hc Hb Hr Ht r.
  pose proof (generate_audio_buffer_negative_stereo np_sin cu g Hc Hb) as G.
  assert (S : forall ok', send_rtp_packet np_sin cu v ok' g = Raise ValueError).
  { intros ok'. unfold send_rtp_packet. rewrite create_rtp_header_bytes, G. reflexivity. }
  split; [exact G|]. split; [apply S|].
  destruct (announce_returns v sap_socket_ok sap_send_ok g) as (sap & Ea & As & Ds & _).
  assert (L : streaming_loop np_sin cu v (t :: env) (set_running true g) 0
              = mkLoop (Raised ValueError) (set_running true g) 0 []).
  { cbn [streaming_loop running set_running negb].
    assert (S' : send_rtp_packet np_sin cu v (tick_send_ok t) (set_running true g)
                 = Raise ValueError).
    { unfold send_rtp_packet. rewrite create_rtp_header_bytes.
      rewrite (generate_audio_buffer_negative_stereo np_sin cu (set_running true g) Hc Hb).
      reflexivity. }
    rewrite S'. destruct (tick_interrupt t); [reflexivity|congruence|reflexivity]. }
  assert (R : r = mkRun (Some ValueError) true
                        (set_socket_open false (set_running false (set_running true g))) 0
                        ((EvPrint MsgBanner :: sap) ++ [] ++ [] ++
                         [EvClose StreamSocket; EvPrint (MsgSentCount 0)])).
  { unfold r, start_streaming. rewrite Ea. unfold py_truediv.
    cbn [buffer_size sample_rate set_running].
    apply Z.eqb_neq in Hr. rewrite Hr. rewrite L. reflexivity. }
  rewrite R. cbn [run_raised run_finished run_count run_events run_gen app].
  assert (Cs : forall p, (forall e, is_aside e = true -> p e = false) ->
                 p (EvPrint MsgBanner) = false ->
                 count_events p (EvPrint MsgBanner :: sap) = 0%nat).
  { intros p Hp Hbn. change (EvPrint MsgBanner :: sap) with ([EvPrint MsgBanner] ++ sap).
    rewrite count_events_app, (aside_counts _ sap Hp As).
    unfold count_events. simpl. rewrite Hbn. reflexivity. }
  split; [reflexivity|]. split; [reflexivity|]. split; [reflexivity|].
  split.
  { change (EvPrint MsgBanner :: sap ++ [EvClose StreamSocket; EvPrint (MsgSentCount 0)])
      with ([EvPrint MsgBanner] ++ sap ++ [EvClose StreamSocket; EvPrint (MsgSentCount 0)]).
    rewrite !stream_datagrams_app, Ds. reflexivity. }
  split.
  { rewrite app_comm_cons, count_events_app, (Cs _ aside_not_close eq_refl). reflexivity. }
  split.
  { rewrite app_comm_cons, count_events_app.
    assert (Z0 : count_events is_stopping (EvPrint MsgBanner :: sap) = 0%nat).
    { destruct v.
      - destruct (announce_returns RtpSend sap_socket_ok sap_send_ok g) as (s' & E' & _ & _ & N).
        rewrite Ea in E'. injection E' as <-. rewrite (N eq_refl). reflexivity.
      - destruct sap_socket_ok, sap_send_ok; injection Ea as <-; reflexivity. }
    rewrite Z0. reflexivity. }
  split; [rewrite app_comm_cons; apply last_after_two|].
  repeat split.
Qed.

Lemma negative_stereo_block_raises_witness :
  let g := init "127.0.0.1" 5004 48000 2 (-64) in
  let t := mkTick NoInterrupt true OnTime false in
  let r := start_streaming (constant_signal 1) cast_zero RtpSend true true [t] g in
  channels g = 2 /\ buffer_size g < 0 /\ sample_rate g <> 0 /\
  tick_interrupt t <> BeforeSend /\
  send_rtp_packet (constant_signal 1) cast_zero RtpSend true g = Raise ValueError /\
  run_raised r = Some ValueError /\
  run_count r = 0 /\
  socket_open (run_gen r) = false.
Proof.
  intros g t r.
  assert (Hb : buffer_size g < 0) by (simpl; lia).
  assert (Hr : sample_rate g <> 0) by (simpl; lia).
  assert (Ht : tick_interrupt t <> BeforeSend) by discriminate.
  split; [reflexivity|]. split; [exact Hb|]. split; [exact Hr|]. split; [exact Ht|].
  destruct (negative_stereo_block_raises (constant_signal 1) cast_zero RtpSend true true true
              t [] g eq_refl Hb Hr Ht)
    as (_ & S & R & _ & C & _ & _ & _ & _ & _ & O & _).
  repeat split; assumption.
Defined.

(** ** Blocks without samples *)

Lemma np_arange_nonpositive n : n <= 0 -> np_arange n = [].
Proof.
  intros H. unfold np_arange. replace (Z.to_nat n) with 0%nat by lia. reflexivity.
Qed.

Lemma block_samples_empty np_sin g : buffer_size g <= 0 -> block_samples np_sin g = [].
Proof.
  intros H. unfold block_samples, sine_wave, sample_times.
  rewrite np_arange_nonpositive by exact H. destruct (channels g =? 2); reflexivity.
Qed.

(** X6.  A block size that is not positive gives a block without
    samples ([np.arange] of it is empty): with a sample rate that is
    not zero, for a size of zero, and for a negative one when the
    channel count is not 2, [generate_audio_buffer]
    returns no byte and [send_rtp_packet] sends the twelve bytes of the
    header alone.  With a size of zero a delivered packet leaves the
    timestamp where it was. *)
Theorem empty_block_is_bare_header np_sin cu v ok g :
  buffer_size g <= 0 -> sample_rate g <> 0 ->
  (channels g = 2 -> buffer_size g = 0) ->
  exists g1 hdr r g' evs,
    generate_audio_buffer np_sin cu g = Ret ([], g1) /\
    create_rtp_header v g = Ret hdr /\
    send_rtp_packet np_sin cu v ok g = Ret (r, g', evs) /\
    stream_datagrams evs = [hdr] /\
    List.length hdr = 12%nat /\
    r = socket_open g && ok /\
    (buffer_size g = 0 -> timestamp g' = timestamp g).
Proof.
  intros Hb Hr Hc.
  assert (Hg : can_generate g = true).
  { unfold can_generate. apply andb_true_iff. split.
    - apply negb_true_iff, Z.eqb_neq. exact Hr.
    - destruct (channels g =? 2) eqn:C; [|reflexivity].
      apply Z.eqb_eq in C. apply Z.leb_le. rewrite (Hc C). lia. }
  pose proof (block_samples_empty np_sin g Hb) as B.
  pose proof (generate_audio_buffer_ok np_sin cu g Hg) as G. rewrite B in G.
  assert (P : rtp_packet_of np_sin cu v g
              = be_bytes 1 first_byte ++ be_bytes 1 (second_byte v) ++
                be_bytes 2 (sequence_number g mod 65536) ++
                be_bytes 4 (timestamp g mod 4294967296) ++ be_bytes 4 ssrc).
  { unfold rtp_packet_of. rewrite B. cbn [map tobytes flat_map]. apply app_nil_r. }
  eexists _, _.
  destruct (socket_open g && ok) eqn:E.
  - apply andb_true_iff in E. destruct E as [Ho ->].
    destruct (send_rtp_packet_delivers np_sin cu v g Hg Ho) as (b & a & S & Nb & Na).
    eexists _, _, _. split; [exact G|]. split; [apply create_rtp_header_bytes|].
    split; [exact S|].
    split.
    { rewrite !stream_datagrams_app, (stream_datagrams_notices b Nb),
        (stream_datagrams_notices a Na). rewrite P. reflexivity. }
    split; [reflexivity|]. split; [reflexivity|].
    intros Z0. cbn [after_delivery timestamp]. unfold timestamp_increment.
    destruct v; rewrite Z0; lia.
  - destruct (send_rtp_packet_fails np_sin cu v ok g Hg E) as (b & S & Nb).
    eexists _, _, _. split; [exact G|]. split; [apply create_rtp_header_bytes|].
    split; [exact S|].
    split.
    { rewrite stream_datagrams_app, (stream_datagrams_notices b Nb). rewrite P.
      reflexivity. }
    split; [reflexivity|]. split; [reflexivity|].
    intros _. reflexivity.
Qed.

Lemma empty_block_is_bare_header_witness :
  let g := init "127.0.0.1" 5004 48000 1 (-5) in
  buffer_size g <= 0 /\ sample_rate g <> 0 /\ (channels g = 2 -> buffer_size g = 0) /\
  exists g1 hdr r g' evs,
    generate_audio_buffer (constant_signal 1) cast_zero g = Ret ([], g1) /\
    create_rtp_header RtpSend g = Ret hdr /\
    send_rtp_packet (constant_signal 1) cast_zero RtpSend true g = Ret (r, g', evs) /\
    stream_datagrams evs = [hdr].
Proof.
  intros g.
  assert (Hb : buffer_size g <= 0) by (simpl; lia).
  assert (Hr : sample_rate g <> 0) by (simpl; lia).
  assert (Hc : channels g = 2 -> buffer_size g = 0) by (simpl; lia).
  split; [exact Hb|]. split; [exact Hr|]. split; [exact Hc|].
  destruct (empty_block_is_bare_header (constant_signal 1) cast_zero RtpSend true g Hb Hr Hc)
    as (g1 & hdr & r & g' & evs & G & H & S & D & _).
  exists g1, hdr, r, g', evs. repeat split; assumption.
Defined.

(** ** The amplitude *)

Lemma SFcompare_refl x : x <> S754_nan -> SFcompare x x = Some Eq.
Proof.
  destruct x as [s|s| |s m e]; intros H; try contradiction.
  - reflexivity.
  - destruct s; reflexivity.
  - simpl. rewrite Z.compare_refl, Pos.compare_cont_refl. destruct s; reflexivity.
Qed.

(** A float that differs from itself is the NaN. *)
Lemma is_nan_inv x : is_nan x = true -> Prim2SF x = S754_nan.
Proof.
  unfold is_nan. rewrite negb_true_iff, eqb_spec. unfold SFeqb.
  destruct (Prim2SF x) as [s|s| |s m e] eqn:E; intros H; try reflexivity;
    rewrite SFcompare_refl in H by discriminate; discriminate H.
Qed.

Lemma nan_not_below x y : is_nan x = true -> (x <? y)%float = false.
Proof.
  intros H. rewrite ltb_spec, (is_nan_inv x H). reflexivity.
Qed.

(** The clamp on a finite argument, in real numbers. *)
Lemma clamp_val amp :
  float_finite amp ->
  float_val (py_max 0 (py_min 1 amp)) = Rmax 0 (Rmin 1 (float_val amp)).
Proof.
  intros F. unfold py_max, py_min.
  destruct (amp <? 1)%float eqn:U.
  - apply ltb_val in U; auto with floats. rewrite val_1 in U.
    rewrite (Rmin_right 1 (float_val amp)) by lra.
    destruct (0 <? amp)%float eqn:L.
    + apply ltb_val in L; auto with floats. rewrite val_0 in L.
      rewrite Rmax_right by lra. reflexivity.
    + rewrite val_0.
      destruct (Rlt_dec 0 (float_val amp)) as [P|N].
      * assert (T : (0 <? amp)%float = true)
          by (apply ltb_val; auto with floats; rewrite val_0; exact P).
        congruence.
      * rewrite Rmax_left by lra. reflexivity.
  - destruct (Rlt_dec (float_val amp) 1) as [P|N].
    + assert (T : (amp <? 1)%float = true)
        by (apply ltb_val; auto with floats; rewrite val_1; exact P).
      congruence.
    + rewrite (Rmin_left 1 (float_val amp)) by lra.
      change (0 <? 1)%float with true. cbv iota. rewrite val_1.
      rewrite Rmax_right by lra. reflexivity.
Qed.

(** X7.  [set_amplitude] stores [max(0.0, min(1.0, amp))] and changes
    nothing else.  What it stores is always a number in [0, 1]: for a
    finite argument its value cut to that interval, for a NaN and for
    plus infinity 1.0 (a NaN is not below 1.0, so [min] keeps 1.0), for
    minus infinity 0.0. *)
Theorem set_amplitude_clamps amp g :
  let g' := set_amplitude amp g in
  in_unit (amplitude g') = true /\
  (float_finite amp ->
     float_val (amplitude g') = Rmax 0 (Rmin 1 (float_val amp))) /\
  (is_nan amp = true -> amplitude g' = 1%float) /\
  (amp = infinity -> amplitude g' = 1%float) /\
  (amp = neg_infinity -> amplitude g' = 0%float) /\
  frequency g' = frequency g /\ phase g' = phase g /\
  sequence_number g' = sequence_number g /\ timestamp g' = timestamp g /\
  sample_rate g' = sample_rate g /\ channels g' = channels g /\
  buffer_size g' = buffer_size g /\
  socket_open g' = socket_open g /\ running g' = running g /\
  target_ip g' = target_ip g /\ target_port g' = target_port g.
Proof.
  intros g'. unfold g'. cbn [set_amplitude amplitude].
  split; [apply clamp_in_unit|].
  split; [apply clamp_val|].
  split.
  { intros N. unfold py_max, py_min. rewrite (nan_not_below amp 1 N). reflexivity. }
  split; [intros ->; reflexivity|].
  split; [intros ->; reflexivity|].
  repeat split.
Qed.

Lemma set_amplitude_clamps_witness :
  float_finite 0.5 /\
  float_val (amplitude (set_amplitude 0.5 default_generator))
  = Rmax 0 (Rmin 1 (float_val 0.5)) /\
  is_nan nan = true /\
  amplitude (set_amplitude nan default_generator) = 1%float /\
  in_unit (amplitude (set_amplitude (-3) default_generator)) = true.
Proof.
  destruct (set_amplitude_clamps 0.5 default_generator) as (_ & F & _).
  destruct (set_amplitude_clamps nan default_generator) as (_ & _ & N & _).
  destruct (set_amplitude_clamps (-3) default_generator) as (U & _).
  split; [reflexivity|]. split; [apply F; reflexivity|].
  split; [reflexivity|]. split; [apply N; reflexivity|exact U].
Defined.

(** ** Samples that stay clear of the undefined conversion *)

(** For a sample value of magnitude at most 1 the conversion to 16 bits
    does not depend on what the platform does on overflow. *)
Lemma pcm16_defined cu1 cu2 x :
  in_sym_unit x = true -> pcm16 cu1 x = pcm16 cu2 x.
Proof.
  intros H. destruct (scaled_sample_in_range x H) as (z & T & _ & R).
  unfold pcm16, astype_int16. rewrite T.
  replace (in_int16 z) with true; [reflexivity|].
  symmetry. unfold in_int16, int16_min, int16_max.
  apply andb_true_iff. split; apply Z.leb_le; lia.
Qed.

Lemma to_int16_defined cu1 cu2 audio :
  Forall (fun a => in_sym_unit a = true) audio ->
  to_int16 cu1 audio = to_int16 cu2 audio.
Proof.
  intros H. unfold to_int16. apply map_ext_Forall.
  eapply Forall_impl; [|exact H]. intros a Ha. apply (pcm16_defined cu1 cu2 a Ha).
Qed.

(** X8.  With the amplitude in [0, 1] (where [__init__] and
    [set_amplitude] put it) and the sine values in [-1, 1], a call of
    [generate_audio_buffer] never takes the float-to-int16 conversion
    outside the 16-bit range, where C leaves it undefined: its result,
    bytes and state or exception, is the same on every platform. *)
Theorem block_independent_of_overflow np_sin cu1 cu2 g :
  in_unit (amplitude g) = true ->
  Forall (fun t => in_sym_unit (np_sin (2 * np_pi * frequency g * t)%float) = true)
         (sample_times g) ->
  generate_audio_buffer np_sin cu1 g = generate_audio_buffer np_sin cu2 g.
Proof.
  intros Ha Hs.
  pose proof (sine_wave_in_sym_unit np_sin g Ha Hs) as U.
  unfold generate_audio_buffer.
  destruct (channels g =? 2).
  - destruct (Z_lt_le_dec (buffer_size g) 0) as [N|P].
    + rewrite to_stereo_negative by exact N. reflexivity.
    + rewrite to_stereo_interleaves by exact P. cbn [bind].
      rewrite (to_int16_defined cu1 cu2 _ (interleaved_in_sym_unit _ U)). reflexivity.
  - cbn [bind]. rewrite (to_int16_defined cu1 cu2 _ U). reflexivity.
Qed.

Lemma block_independent_of_overflow_witness :
  let g := set_amplitude 7 default_generator in
  in_unit (amplitude g) = true /\
  generate_audio_buffer (constant_signal (-1)) cast_zero g
  = generate_audio_buffer (constant_signal (-1)) (fun _ => 12345) g.
Proof.
  intros g. split; [reflexivity|].
  apply (block_independent_of_overflow (constant_signal (-1)) cast_zero (fun _ => 12345) g).
  - reflexivity.
  - apply Forall_forall. intros t _. reflexivity.
Defined.

(** ** The level of a generator that keeps its initial amplitude *)

(** 0.3 as a binary64 number, and a bound on 0.3 * 32767. *)
Lemma val_initial_amplitude :
  float_val initial_amplitude = F2R (Zpos 5404319552844595) (-54).
Proof. reflexivity. Qed.

Lemma finite_initial_amplitude : float_finite initial_amplitude.
Proof. reflexivity. Qed.

Lemma bound_9830_5 :
  (F2R (Zpos 5404319552844595) (-54) * 32767 <= F2R (Zpos 5404374528425984) (-39))%R /\
  (F2R (Zpos 5404374528425984) (-39) < 9831)%R.
Proof.
  assert (S : F2R (Zpos 5404374528425984) (-39) = F2R (19661 * 2 ^ 53) (-54)).
  { rewrite <- (F2R_shift 5404374528425984 (-39) 15) by lia. reflexivity. }
  assert (T : IZR 9831 = F2R (9831 * 2 ^ 54) (-54)) by (symmetry; apply F2R_const; lia).
  split.
  - rewrite S.
    replace (F2R (Zpos 5404319552844595) (-54) * 32767)%R
      with (F2R (5404319552844595 * 32767) (-54))
      by (unfold F2R; rewrite mult_IZR; ring).
    apply F2R_le. vm_compute. discriminate.
  - rewrite S, T. unfold F2R. apply Rmult_lt_compat_r; [apply bpow_pos|].
    apply IZR_lt. reflexivity.
Qed.

(** A value strictly within [n + 1] truncates to at most [n]. *)
Lemma is_truncation_abs_lt z x n :
  is_truncation z x -> (Rabs x < IZR n + 1)%R -> - n <= z <= n.
Proof.
  intros [Tp Tn] H. destruct (Rle_dec 0 x) as [P|N].
  - rewrite Rabs_pos_eq in H by assumption. destruct (Tp P) as [L U].
    assert (A : (IZR z < IZR (n + 1))%R) by (rewrite plus_IZR; lra).
    assert (B : (IZR (-1) < IZR z)%R) by (simpl; lra).
    apply lt_IZR in A. apply lt_IZR in B. lia.
  - assert (N' : (x <= 0)%R) by lra. rewrite Rabs_left1 in H by assumption.
    destruct (Tn N') as [L U].
    assert (A : (IZR (- (n + 1)) < IZR z)%R) by (rewrite opp_IZR, plus_IZR; lra).
    assert (B : (IZR z < IZR 1)%R) by (simpl; lra).
    apply lt_IZR in A. apply lt_IZR in B. lia.
Qed.

(** A sample value is quiet when its magnitude is at most 0.3. *)
Lemma quiet_product a s :
  float_finite a -> (Rabs (float_val a) <= float_val initial_amplitude)%R ->
  in_sym_unit s = true ->
  float_finite (a * s)%float /\
  (Rabs (float_val (a * s)%float) <= float_val initial_amplitude)%R.
Proof.
  intros Fa Aa Hs. apply in_sym_unit_val in Hs. destruct Hs as [Fs As].
  rewrite val_initial_amplitude in *.
  destruct (mul_bound a s 5404319552844595 (-54) Fa Fs eq_refl) as [F (_ & A & _)].
  - rewrite Rabs_mult. pose proof (Rabs_pos (float_val a)). pose proof (Rabs_pos (float_val s)).
    nra.
  - split; [exact F|exact A].
Qed.

Lemma quiet_sample cu x :
  float_finite x -> (Rabs (float_val x) <= float_val initial_amplitude)%R ->
  -9830 <= pcm16 cu x <= 9830.
Proof.
  intros Fx Ax. rewrite val_initial_amplitude in Ax.
  destruct bound_9830_5 as [B1 B2].
  destruct (mul_bound x 32767 5404374528425984 (-39) Fx finite_32767 eq_refl)
    as [F (_ & A & _)].
  - rewrite Rabs_mult, val_32767, (Rabs_pos_eq 32767) by lra.
    pose proof (Rabs_pos (float_val x)). nra.
  - destruct (trunc_SF_spec _ F) as [z [Tz Sz]].
    assert (R : -9830 <= z <= 9830).
    { apply (is_truncation_abs_lt z _ 9830 Sz).
      fold (float_val (x * 32767)) in A |- *.
      replace (IZR 9830 + 1)%R with 9831%R by lra. lra. }
    unfold pcm16, astype_int16, trunc_float. rewrite Tz.
    replace (in_int16 z) with true; [exact R|].
    symmetry. unfold in_int16, int16_min, int16_max.
    apply andb_true_iff. split; apply Z.leb_le; lia.
Qed.

Lemma deliveries_amplitude v n : forall g,
  amplitude (deliveries v n g) = amplitude g /\
  frequency (deliveries v n g) = frequency g.
Proof.
  induction n as [|n IH]; intros g; [split; reflexivity|].
  cbn [deliveries]. destruct (IH (after_delivery v g)) as [A F]. rewrite A, F.
  split; reflexivity.
Qed.

(** Every sample of a block of a generator that keeps the initial
    amplitude, on either channel. *)
Lemma quiet_block np_sin cu g :
  amplitude g = initial_amplitude ->
  sine_in_range np_sin g = true ->
  Forall (fun x => -9830 <= pcm16 cu x <= 9830) (block_samples np_sin g).
Proof.
  intros Ha Hs.
  assert (Hs' : Forall (fun t => in_sym_unit (np_sin (2 * np_pi * frequency g * t)%float)
                                 = true) (sample_times g)).
  { apply Forall_forall. unfold sine_in_range in Hs. rewrite forallb_forall in Hs. exact Hs. }
  assert (Q : Forall (fun a => float_finite a /\
                               (Rabs (float_val a) <= float_val initial_amplitude)%R)
                     (sine_wave np_sin g)).
  { unfold sine_wave. apply Forall_map.
    eapply Forall_impl; [|exact Hs']. intros t Ht. cbv beta in Ht |- *.
    rewrite Ha. apply quiet_product; [exact finite_initial_amplitude| |exact Ht].
    rewrite Rabs_pos_eq; [lra|]. rewrite val_initial_amplitude.
    apply Rlt_le, F2R_pos. lia. }
  assert (Q2 : Forall (fun a => float_finite a /\
                                (Rabs (float_val a) <= float_val initial_amplitude)%R)
                      (block_samples np_sin g)).
  { unfold block_samples. destruct (channels g =? 2); [|exact Q].
    unfold interleaved. induction Q as [|a audio [Fa Aa] _ IH]; [constructor|].
    cbn [flat_map app]. constructor; [split; assumption|].
    constructor; [|exact IH].
    apply quiet_product; [exact Fa|exact Aa|exact in_sym_unit_0_7]. }
  eapply Forall_impl; [|exact Q2]. intros x [Fx Ax]. apply quiet_sample; assumption.
Qed.

(** ** Every run of [start_streaming] *)

Lemma forallb_loop_event_count ip port p evs :
  (forall e, is_loop_event ip port e = true -> p e = false) ->
  forallb (is_loop_event ip port) evs = true -> count_events p evs = 0%nat.
Proof.
  intros Hp. unfold count_events. induction evs as [|e evs IH]; [reflexivity|].
  simpl. rewrite andb_true_iff. intros [He Hr]. rewrite (Hp e He). auto.
Qed.

Lemma loop_event_not_close ip port e :
  is_loop_event ip port e = true -> is_stream_close e = false.
Proof. destruct e as [s|s d i q ok|s| |m]; try reflexivity. destruct s; discriminate. Qed.

Lemma loop_event_not_stopping ip port e :
  is_loop_event ip port e = true -> is_stopping e = false.
Proof.
  destruct e as [s|s d i q ok|s| |m]; try reflexivity. destruct m; try reflexivity.
  discriminate.
Qed.

Lemma pace_events_loop ip port p : forallb (is_loop_event ip port) (pace_events p) = true.
Proof. destruct p; reflexivity. Qed.

Lemma pace_events_datagrams p : stream_datagrams (pace_events p) = [].
Proof. destruct p; reflexivity. Qed.

(** One call of [send_rtp_packet]: what it returns, stores and does. *)
Lemma send_rtp_packet_summary np_sin cu v ok g :
  can_generate g = true ->
  exists evs,
    send_rtp_packet np_sin cu v ok g
    = Ret (socket_open g && ok,
           (if socket_open g && ok then after_delivery v g
            else set_phase (next_phase g) g),
           evs) /\
    tally evs = (if socket_open g && ok then (1, 1, 0, 0) else (0, 1, 1, 0))%nat /\
    stream_datagrams evs = [rtp_packet_of np_sin cu v g] /\
    forallb (is_loop_event (target_ip g) (target_port g)) evs = true.
Proof.
  intros Hg. unfold send_rtp_packet.
  rewrite create_rtp_header_bytes, (generate_audio_buffer_ok np_sin cu g Hg).
  cbn [bind]. cbn [socket_open set_phase sequence_number timestamp target_ip target_port].
  fold (rtp_packet_of np_sin cu v g). rewrite debug_created_header.
  destruct (socket_open g && ok); destruct v;
    try destruct (sequence_number g mod 100 =? 0);
    (eexists; split; [reflexivity|]; split; [reflexivity|]; split; [reflexivity|]);
    cbn [forallb app is_loop_event andb]; rewrite String.eqb_refl, Z.eqb_refl; reflexivity.
Qed.

Lemma deliveries_config v n : forall g,
  target_ip (deliveries v n g) = target_ip g /\
  target_port (deliveries v n g) = target_port g /\
  sample_rate (deliveries v n g) = sample_rate g /\
  channels (deliveries v n g) = channels g /\
  buffer_size (deliveries v n g) = buffer_size g /\
  timestamp (deliveries v n g) = timestamp g + Z.of_nat n * timestamp_increment v g.
Proof.
  induction n as [|n IH]; intros g.
  - cbn [deliveries]. repeat split. lia.
  - cbn [deliveries]. destruct (IH (after_delivery v g)) as (A & B & C & D & E & F).
    rewrite A, B, C, D, E, F. repeat split.
    cbn [after_delivery timestamp].
    replace (timestamp_increment v (after_delivery v g)) with (timestamp_increment v g)
      by (destruct v; reflexivity).
    lia.
Qed.

Lemma deliveries_succ v n g :
  deliveries v (S n) g = after_delivery v (deliveries v n g).
Proof.
  revert g. induction n as [|n IH]; intros g; [reflexivity|].
  change (deliveries v (S (S n)) g) with (deliveries v (S n) (after_delivery v g)).
  rewrite IH. reflexivity.
Qed.

(** The loop on any ticks: [n] packets delivered out of [a] handed to
    [sendto], [a] being [n] or, when the last send failed, [n + 1]. *)
Lemma streaming_loop_account np_sin cu v env : forall g c,
  can_generate g = true ->
  exists n a : nat,
    (a = n \/ a = S n) /\
    tally (loop_events (streaming_loop np_sin cu v env g c)) = (n, a, (a - n)%nat, 0%nat) /\
    loop_count (streaming_loop np_sin cu v env g c) = c + Z.of_nat n /\
    loop_gen (streaming_loop np_sin cu v env g c)
    = (if (a =? n)%nat then deliveries v n g
       else set_phase (next_phase (deliveries v n g)) (deliveries v n g)) /\
    stream_datagrams (loop_events (streaming_loop np_sin cu v env g c))
    = map (fun k => rtp_packet_of np_sin cu v (deliveries v k g)) (seq 0 a) /\
    forallb (is_loop_event (target_ip g) (target_port g))
            (loop_events (streaming_loop np_sin cu v env g c)) = true /\
    match loop_exit_of (streaming_loop np_sin cu v env g c) with
    | Raised _ => False
    | Pending => a = n /\ n = List.length env
    | Interrupted => a = n
    | Broke => True
    end.
Proof.
  induction env as [|t env IH]; intros g c Hg.
  - exists 0%nat, 0%nat. cbn. repeat split; auto; lia.
  - cbn [streaming_loop].
    destruct (running g); cbn [negb];
      [|exists 0%nat, 0%nat; cbn; repeat split; auto; lia].
    destruct (send_rtp_packet_summary np_sin cu v (tick_send_ok t) g Hg)
      as (evs & E & T & D & L).
    destruct (tick_interrupt t) eqn:I;
      [| exists 0%nat, 0%nat; cbn; repeat split; auto; lia |].
    + (* no interrupt *)
      rewrite E. destruct (socket_open g && tick_send_ok t).
      * destruct (tick_expired t).
        -- exists 1%nat, 1%nat. cbn [loop_events loop_count loop_gen loop_exit_of].
           rewrite tally_app, T, (tally_asides _ (pace_events_asides (tick_pace t))).
           rewrite stream_datagrams_app, D, pace_events_datagrams.
           rewrite forallb_app, L, pace_events_loop.
           repeat split; auto.
        -- destruct (IH (after_delivery v g) (c + 1) Hg)
             as (n & a & Ha & T' & C' & G' & D' & L' & X').
           exists (S n), (S a).
           unfold more_events. cbn [loop_events loop_count loop_gen loop_exit_of].
           split; [lia|].
           split.
           { rewrite !tally_app, T, T',
               (tally_asides _ (pace_events_asides (tick_pace t))).
             cbn. reflexivity. }
           split; [rewrite C'; lia|].
           split.
           { rewrite G'. change (S a =? S n)%nat with (a =? n)%nat. reflexivity. }
           split.
           { rewrite !stream_datagrams_app, D, D', pace_events_datagrams.
             cbn [seq map app deliveries]. f_equal.
             rewrite <- seq_shift, map_map. reflexivity. }
           split.
           { rewrite !forallb_app, L, pace_events_loop. exact L'. }
           destruct (loop_exit_of (streaming_loop np_sin cu v env (after_delivery v g) (c + 1)));
             cbn [List.length]; try exact X'; lia.
      * exists 0%nat, 1%nat. cbn [loop_events loop_count loop_gen loop_exit_of].
        rewrite T, D, L. cbn. repeat split; auto. lia.
    + (* interrupted in the sleep *)
      rewrite E. destruct (socket_open g && tick_send_ok t).
      * exists 1%nat, 1%nat. cbn [loop_events loop_count loop_gen loop_exit_of].
        rewrite tally_app, T, stream_datagrams_app, D, forallb_app, L.
        cbn. repeat split; auto.
      * exists 0%nat, 1%nat. cbn [loop_events loop_count loop_gen loop_exit_of].
        rewrite T, D, L. cbn. repeat split; auto. lia.
Qed.

(** What a run is made of, when the sample rate is not zero. *)
Lemma start_streaming_unfold np_sin cu v s1 s2 env g sap :
  sample_rate g <> 0 ->
  match v with
  | RtpSend => Ret []
  | RtpSendSap => send_sap_announcement s1 s2 g
  end = Ret sap ->
  let s := streaming_loop np_sin cu v env (set_running true g) 0 in
  start_streaming np_sin cu v s1 s2 env g
  = match loop_exit_of s with
    | Pending =>
        mkRun None false (loop_gen s) (loop_count s)
              ((EvPrint MsgBanner :: sap) ++ loop_events s)
    | ex =>
        mkRun (match ex with Raised e => Some e | _ => None end) true
              (set_socket_open false (set_running false (loop_gen s))) (loop_count s)
              ((EvPrint MsgBanner :: sap) ++ loop_events s ++
               match ex with Interrupted => [EvPrint MsgStopping] | _ => [] end ++
               [EvClose StreamSocket; EvPrint (MsgSentCount (loop_count s))])
    end.
Proof.
  intros Hr Ea s. unfold start_streaming. rewrite Ea. unfold py_truediv.
  cbn [buffer_size sample_rate set_running].
  apply Z.eqb_neq in Hr. rewrite Hr. fold s. destruct (loop_exit_of s); reflexivity.
Qed.

Lemma tally_banner sap :
  forallb is_aside sap = true -> tally (EvPrint MsgBanner :: sap) = (0, 0, 0, 0)%nat.
Proof.
  intros H. change (EvPrint MsgBanner :: sap) with ([EvPrint MsgBanner] ++ sap).
  rewrite tally_app, (tally_asides sap H). reflexivity.
Qed.



(** X11.  The packets of a run, in the order they are handed to
    [sendto], delivered or not.  Packet number [k] (from 0) carries the
    stored sequence number plus [k] modulo 65536 and the stored
    timestamp plus [k] steps modulo 2^32, so both fields wrap to 0 in
    the header while the stored counters grow; the SSRC and the payload
    type never change; every packet has twelve bytes of header and two
    bytes per sample, and every one is addressed to the target the
    object was built with. *)
Theorem stream_packets_in_sequence np_sin cu v sap_socket_ok sap_send_ok env g :
  can_generate g = true ->
  let r := start_streaming np_sin cu v sap_socket_ok sap_send_ok env g in
  (forall k packet,
     nth_error (stream_datagrams (run_events r)) k = Some packet ->
     packet_sequence_number packet = (sequence_number g + Z.of_nat k) mod 65536 /\
     packet_timestamp packet
     = (timestamp g + Z.of_nat k * timestamp_increment v g) mod 4294967296 /\
     packet_ssrc packet = 0x12345678 /\
     packet_payload_type packet = payload_type v /\
     List.length packet = (12 + 2 * samples_per_block g)%nat) /\
  (forall data ip port ok,
     In (EvSendto StreamSocket data ip port ok) (run_events r) ->
     ip = target_ip g /\ port = target_port g).
Proof.
  intros Hg r.
  destruct (can_generate_inv g Hg) as [Hr _].
  destruct (announce_returns v sap_socket_ok sap_send_ok g) as (sap & Ea & As & Ds & _).
  pose proof (start_streaming_unfold np_sin cu v sap_socket_ok sap_send_ok env g sap Hr Ea)
    as R.
  cbv zeta in R. fold r in R.
  destruct (streaming_loop_account np_sin cu v env (set_running true g) 0 Hg)
    as (n & a & _ & _ & _ & _ & D & L & _).
  set (s := streaming_loop np_sin cu v env (set_running true g) 0) in *.
  cbn [target_ip target_port set_running] in L.
  split.
  - assert (Dr : stream_datagrams (run_events r)
                 = map (fun k => rtp_packet_of np_sin cu v (deliveries v k (set_running true g)))
                       (seq 0 a)).
    { rewrite R. destruct (loop_exit_of s); cbn [run_events];
        change (EvPrint MsgBanner :: sap) with ([EvPrint MsgBanner] ++ sap);
        rewrite !stream_datagrams_app, Ds, D; cbn [stream_datagrams flat_map app];
        rewrite ?app_nil_r; reflexivity. }
    intros k packet Hk. rewrite Dr in Hk.
    rewrite nth_error_map, nth_error_seq in Hk.
    destruct (k <? a)%nat; [|discriminate Hk].
    cbn [option_map Nat.add] in Hk. injection Hk as <-.
    destruct (rtp_packet_of_fields np_sin cu v (deliveries v k (set_running true g)))
      as (Q & T & S & P & _).
    destruct (deliveries_fields v k (set_running true g)) as (_ & _ & _ & Fs).
    destruct (deliveries_config v k (set_running true g)) as (_ & _ & _ & Fc & Fb & Ft).
    rewrite Q, T, S, P, Fs, Ft. repeat split.
    rewrite rtp_packet_of_length. f_equal. f_equal.
    unfold block_samples, samples_per_block. rewrite Fc. cbn [channels set_running].
    destruct (channels g =? 2).
    + rewrite interleaved_length, sine_wave_length, Fb. reflexivity.
    + rewrite sine_wave_length, Fb. reflexivity.
  - intros data ip port ok Hin.
    assert (Hl : In (EvSendto StreamSocket data ip port ok) (loop_events s)).
    { rewrite R in Hin. destruct (loop_exit_of s); cbn [run_events] in Hin;
        rewrite ?in_app_iff in Hin; cbn [In] in Hin;
        repeat (destruct Hin as [Hin|Hin]; try discriminate Hin; try contradiction);
        try exact Hin;
        try (exfalso; destruct v;
             [injection Ea as <-; exact Hin
             |destruct sap_socket_ok, sap_send_ok; injection Ea as <-; cbn [In] in Hin;
              repeat (destruct Hin as [Hin|Hin]; try discriminate Hin); exact Hin]). }
    rewrite forallb_forall in L. specialize (L _ Hl). cbn [is_loop_event] in L.
    apply andb_true_iff in L. destruct L as [L1 L2].
    apply String.eqb_eq in L1. apply Z.eqb_eq in L2. auto.
Qed.

Lemma stream_packets_in_sequence_witness :
  let g := set_timestamp 4294967295 (set_sequence_number 65535 default_generator) in
  let env := [mkTick NoInterrupt true Early false; mkTick NoInterrupt true Early true] in
  let r := start_streaming (constant_signal 1) cast_zero RtpSendSap true true env g in
  can_generate g = true /\
  exists p0 p1,
    stream_datagrams (run_events r) = [p0; p1] /\
    packet_sequence_number p0 = 65535 /\ packet_sequence_number p1 = 0 /\
    packet_timestamp p0 = 4294967295 /\ packet_timestamp p1 = 63 /\
    List.length p1 = 268%nat.
Proof.
  intros g env r. split; [reflexivity|].
  destruct (stream_packets_in_sequence (constant_signal 1) cast_zero RtpSendSap true true env g
              eq_refl) as [F _].
  fold r in F.
  assert (D : exists p0 p1, stream_datagrams (run_events r) = [p0; p1])
    by (eexists _, _; reflexivity).
  destruct D as (p0 & p1 & D). exists p0, p1. split; [exact D|].
  destruct (F 0%nat p0) as (S0 & T0 & _); [rewrite D; reflexivity|].
  destruct (F 1%nat p1) as (S1 & T1 & _ & _ & L1); [rewrite D; reflexivity|].
  repeat split; assumption.
Defined.

(** ** The level of the stream [main] sends *)

(** An object that cannot build its block sends nothing. *)
Lemma send_rtp_packet_raises np_sin cu v ok g :
  can_generate g = false -> exists e, send_rtp_packet np_sin cu v ok g = Raise e.
Proof.
  intros H. unfold send_rtp_packet. rewrite create_rtp_header_bytes. cbn [bind].
  unfold can_generate in H.
  destruct (Z.eq_dec (channels g) 2) as [C|C];
    destruct (Z_lt_le_dec (buffer_size g) 0) as [B|B].
  - rewrite (generate_audio_buffer_negative_stereo np_sin cu g C B). eexists; reflexivity.
  - destruct (Z.eq_dec (sample_rate g) 0) as [R|R].
    + rewrite (generate_audio_buffer_zero_rate np_sin cu g R) by (intros _; exact B).
      eexists; reflexivity.
    + apply Z.eqb_neq in R. apply Z.leb_le in B. rewrite R, B, orb_true_r in H.
      discriminate H.
  - destruct (Z.eq_dec (sample_rate g) 0) as [R|R].
    + rewrite (generate_audio_buffer_zero_rate np_sin cu g R) by (intros E; contradiction).
      eexists; reflexivity.
    + apply Z.eqb_neq in R. apply Z.eqb_neq in C. rewrite R, C in H. discriminate H.
  - destruct (Z.eq_dec (sample_rate g) 0) as [R|R].
    + rewrite (generate_audio_buffer_zero_rate np_sin cu g R) by (intros E; contradiction).
      eexists; reflexivity.
    + apply Z.eqb_neq in R. apply Z.eqb_neq in C. rewrite R, C in H. discriminate H.
Qed.

Lemma streaming_loop_silent np_sin cu v env g c :
  can_generate g = false -> loop_events (streaming_loop np_sin cu v env g c) = [].
Proof.
  intros H. destruct env as [|t env]; [reflexivity|]. cbn [streaming_loop].
  destruct (negb (running g)); [reflexivity|].
  destruct (send_rtp_packet_raises np_sin cu v (tick_send_ok t) g H) as [e E].
  rewrite E. destruct (tick_interrupt t); reflexivity.
Qed.

(** The datagrams of any run: one for each of the objects the
    deliveries lead through, as far as the run gets. *)
Lemma run_datagrams np_sin cu v s1 s2 env g :
  exists a,
    stream_datagrams (run_events (start_streaming np_sin cu v s1 s2 env g))
    = map (fun k => rtp_packet_of np_sin cu v (deliveries v k (set_running true g)))
          (seq 0 a) /\
    (can_generate g = false -> a = 0%nat).
Proof.
  destruct (announce_returns v s1 s2 g) as (sap & Ea & As & Ds & _).
  destruct (can_generate g) eqn:Hg.
  - destruct (can_generate_inv g Hg) as [Hr _].
    pose proof (start_streaming_unfold np_sin cu v s1 s2 env g sap Hr Ea) as R.
    cbv zeta in R.
    destruct (streaming_loop_account np_sin cu v env (set_running true g) 0 Hg)
      as (n & a & _ & _ & _ & _ & D & _ & _).
    exists a. split; [|discriminate].
    rewrite R.
    destruct (loop_exit_of (streaming_loop np_sin cu v env (set_running true g) 0));
      cbn [run_events];
      change (EvPrint MsgBanner :: sap) with ([EvPrint MsgBanner] ++ sap);
      rewrite !stream_datagrams_app, Ds, D; cbn [stream_datagrams flat_map app];
      rewrite ?app_nil_r; reflexivity.
  - exists 0%nat. split; [|reflexivity]. cbn [seq map].
    unfold start_streaming. rewrite Ea.
    assert (Ob : stream_datagrams (EvPrint MsgBanner :: sap) = []).
    { change (EvPrint MsgBanner :: sap) with ([EvPrint MsgBanner] ++ sap).
      rewrite stream_datagrams_app, Ds. reflexivity. }
    destruct (py_truediv (buffer_size (set_running true g)) (sample_rate (set_running true g)));
      [|exact Ob].
    pose proof (streaming_loop_silent np_sin cu v env (set_running true g) 0 Hg) as Sl.
    destruct (loop_exit_of (streaming_loop np_sin cu v env (set_running true g) 0));
      cbn [run_events]; rewrite !stream_datagrams_app, Ob, Sl; reflexivity.
Qed.

Lemma after_delivery_set_running v b g :
  after_delivery v (set_running b g) = set_running b (after_delivery v g).
Proof. destruct v; reflexivity. Qed.

Lemma deliveries_set_running v b n : forall g,
  deliveries v n (set_running b g) = set_running b (deliveries v n g).
Proof.
  induction n as [|n IH]; intros g; [reflexivity|].
  cbn [deliveries]. rewrite after_delivery_set_running. apply IH.
Qed.

Lemma block_samples_length np_sin g :
  List.length (block_samples np_sin g) = samples_per_block g.
Proof.
  unfold block_samples, samples_per_block. destruct (channels g =? 2).
  - rewrite interleaved_length, sine_wave_length. reflexivity.
  - apply sine_wave_length.
Qed.

(** Sample [k] of a payload, read back from its two bytes. *)
Lemma tobytes_sample xs k :
  (k < List.length xs)%nat -> -32768 <= nth k xs 0 <= 32767 ->
  exists lo hi,
    firstn 2 (skipn (2 * k) (tobytes xs)) = [lo; hi] /\
    s16le_value lo hi = nth k xs 0.
Proof.
  intros Hk Hr. rewrite (tobytes_frame xs k 0 Hk). unfold s16le.
  eexists _, _. split; [reflexivity|]. apply s16le_value_s16le. exact Hr.
Qed.

(** X9.  [main] sets the frequency and never the amplitude, so the
    object it starts keeps the amplitude [__init__] gives it, 0.3,
    through every packet.  Whatever the arguments, the network, the
    clock and the operator, every datagram of the run carries a payload
    of two bytes per sample, and every sample read back from it, on
    either channel, is between -9830 and 9830: the stream never exceeds
    30 % of full scale.  The sine values of the blocks of the run are
    taken to be in [-1, 1]. *)
Theorem initial_amplitude_bounds_samples np_sin cu v args sap_socket_ok sap_send_ok env :
  (forall n, sine_in_range np_sin (deliveries v n (generator_of args)) = true) ->
  let r := main np_sin cu v args sap_socket_ok sap_send_ok env in
  forall packet, In packet (stream_datagrams (run_events r)) ->
    List.length (packet_payload packet) = (2 * samples_per_block (generator_of args))%nat /\
    forall k, (k < samples_per_block (generator_of args))%nat ->
      exists lo hi,
        firstn 2 (skipn (2 * k) (packet_payload packet)) = [lo; hi] /\
        -9830 <= s16le_value lo hi <= 9830.
Proof.
  intros Hs r packet Hin.
  destruct (run_datagrams np_sin cu v sap_socket_ok sap_send_ok
              (map (with_duration (args_duration args)) env) (generator_of args))
    as (a & D & _).
  change (start_streaming np_sin cu v sap_socket_ok sap_send_ok
            (map (with_duration (args_duration args)) env) (generator_of args))
    with r in D.
  rewrite D in Hin. apply in_map_iff in Hin. destruct Hin as (n & <- & _).
  rewrite deliveries_set_running.
  set (g := deliveries v n (generator_of args)).
  destruct (rtp_packet_of_fields np_sin cu v (set_running true g)) as (_ & _ & _ & _ & P).
  rewrite P.
  change (block_samples np_sin (set_running true g)) with (block_samples np_sin g).
  assert (Ha : amplitude g = initial_amplitude)
    by (unfold g; rewrite (proj1 (deliveries_amplitude v n (generator_of args))); reflexivity).
  pose proof (quiet_block np_sin cu g Ha (Hs n)) as Q.
  destruct (deliveries_config v n (generator_of args)) as (_ & _ & _ & Fc & Fb & _).
  assert (Ln : List.length (block_samples np_sin g) = samples_per_block (generator_of args)).
  { rewrite block_samples_length. unfold samples_per_block, g. rewrite Fc, Fb. reflexivity. }
  split; [rewrite tobytes_length, length_map, Ln; reflexivity|].
  intros k Hk.
  set (xs := map (pcm16 cu) (block_samples np_sin g)).
  assert (Lx : (k < List.length xs)%nat) by (unfold xs; rewrite length_map, Ln; exact Hk).
  assert (Bk : -9830 <= nth k xs 0 <= 9830).
  { rewrite Forall_forall in Q. unfold xs.
    rewrite (nth_indep _ 0 (pcm16 cu 0%float)) by exact Lx.
    rewrite map_nth. apply Q. apply nth_In. rewrite Ln. exact Hk. }
  destruct (tobytes_sample xs k Lx ltac:(lia)) as (lo & hi & E & V).
  exists lo, hi. split; [exact E|]. rewrite V. exact Bk.
Qed.

Lemma initial_amplitude_bounds_samples_witness :
  let env := [mkTick NoInterrupt true Early false; mkTick NoInterrupt true Early false] in
  let r := main (constant_signal 1) cast_zero RtpSend default_arguments true true env in
  (forall n, sine_in_range (constant_signal 1)
                           (deliveries RtpSend n (generator_of default_arguments)) = true) /\
  exists p0 p1 lo hi,
    stream_datagrams (run_events r) = [p0; p1] /\
    List.length (packet_payload p1) = 256%nat /\
    firstn 2 (skipn 2 (packet_payload p1)) = [lo; hi] /\
    -9830 <= s16le_value lo hi <= 9830.
Proof.
  intros env r.
  assert (Hs : forall n, sine_in_range (constant_signal 1)
                           (deliveries RtpSend n (generator_of default_arguments)) = true).
  { intros n. unfold sine_in_range. apply forallb_forall. intros t _. reflexivity. }
  split; [exact Hs|].
  pose proof (initial_amplitude_bounds_samples (constant_signal 1) cast_zero RtpSend
                default_arguments true true env Hs) as T.
  cbv zeta in T. fold r in T.
  assert (D : exists p0 p1, stream_datagrams (run_events r) = [p0; p1])
    by (eexists _, _; reflexivity).
  destruct D as (p0 & p1 & D).
  destruct (T p1) as [L F]; [rewrite D; right; left; reflexivity|].
  destruct (F 1%nat) as (lo & hi & E & B); [vm_compute; lia|].
  exists p0, p1, lo, hi. split; [exact D|]. split; [exact L|]. split; [exact E|exact B].
Defined.

(** ** Pacing *)

Lemma without_pacing_app a b :
  without_pacing (a ++ b) = without_pacing a ++ without_pacing b.
Proof. unfold without_pacing. apply filter_app. Qed.

Lemma without_pacing_pace p : without_pacing (pace_events p) = [].
Proof. destruct p; reflexivity. Qed.

(** The loop with the clock's answers at the pacing step replaced. *)
Lemma streaming_loop_pace np_sin cu v p env : forall g c,
  let s := streaming_loop np_sin cu v env g c in
  let s' := streaming_loop np_sin cu v (map (with_pace p) env) g c in
  loop_exit_of s' = loop_exit_of s /\
  loop_gen s' = loop_gen s /\
  loop_count s' = loop_count s /\
  without_pacing (loop_events s') = without_pacing (loop_events s).
Proof.
  induction env as [|t env IH]; intros g c; [repeat split|].
  cbn [map streaming_loop with_pace tick_interrupt tick_send_ok tick_pace tick_expired].
  destruct (negb (running g)); [repeat split|].
  destruct (tick_interrupt t); [|repeat split|];
    (destruct (send_rtp_packet np_sin cu v (tick_send_ok t) g) as [[[[|] g1] evs]|e];
     [|repeat split|repeat split]).
  - destruct (tick_expired t).
    + cbn [loop_exit_of loop_gen loop_count loop_events].
      rewrite !without_pacing_app, !without_pacing_pace. repeat split.
    + destruct (IH g1 (c + 1)) as (X & G & C & E).
      unfold more_events. cbn [loop_exit_of loop_gen loop_count loop_events].
      rewrite !without_pacing_app, !without_pacing_pace, E. repeat split; assumption.
  - repeat split.
Qed.


(** ** Ways a run ends *)

Lemma announce_no_stopping v s1 s2 g sap :
  match v with
  | RtpSend => Ret []
  | RtpSendSap => send_sap_announcement s1 s2 g
  end = Ret sap ->
  count_events is_stopping (EvPrint MsgBanner :: sap) = 0%nat.
Proof.
  destruct v; [intros E; injection E as <-; reflexivity|].
  destruct s1, s2; intros E; injection E as <-; reflexivity.
Qed.

(** The end of a run whose loop is left by an interrupt or a break. *)
Lemma run_of_loop np_sin cu v s1 s2 env g ex g1 c evs n a :
  can_generate g = true ->
  streaming_loop np_sin cu v env (set_running true g) 0 = mkLoop ex g1 c evs ->
  (ex = Interrupted \/ ex = Broke) ->
  tally evs = (n, a, (a - n)%nat, 0%nat) ->
  let r := start_streaming np_sin cu v s1 s2 env g in
  run_raised r = None /\
  run_finished r = true /\
  run_count r = c /\
  run_gen r = set_socket_open false (set_running false g1) /\
  tally (run_events r) = (n, a, (a - n)%nat, 1%nat) /\
  count_events is_stopping (run_events r)
  = (match ex with Interrupted => 1 | _ => 0 end)%nat /\
  last (run_events r) EvSleep = EvPrint (MsgSentCount c).
Proof.
  intros Hg L Hex T r.
  destruct (can_generate_inv g Hg) as [Hr _].
  destruct (announce_returns v s1 s2 g) as (sap & Ea & As & _).
  pose proof (start_streaming_unfold np_sin cu v s1 s2 env g sap Hr Ea) as R.
  cbv zeta in R. fold r in R.
  destruct (streaming_loop_account np_sin cu v env (set_running true g) 0 Hg)
    as (_ & _ & _ & _ & _ & _ & _ & Le & _).
  rewrite L in R, Le. cbn [loop_exit_of loop_gen loop_count loop_events] in R, Le.
  pose proof (forallb_loop_event_count _ _ is_stopping evs (loop_event_not_stopping _ _) Le) as Zs.
  pose proof (announce_no_stopping v s1 s2 g sap Ea) as Za.
  pose proof (tally_banner sap As) as Tb.
  destruct Hex as [-> | ->]; rewrite R; cbn [run_raised run_finished run_count run_gen run_events];
    (split; [reflexivity|]); (split; [reflexivity|]); (split; [reflexivity|]);
    (split; [reflexivity|]);
    (split; [rewrite !tally_app, Tb, T; cbn; rewrite ?Nat.add_0_r; reflexivity|]);
    (split; [rewrite !count_events_app, Za, Zs; reflexivity|]);
    rewrite !app_assoc; apply last_after_two.
Qed.

Lemma interrupts_inv t :
  interrupts t = true ->
  tick_interrupt t = BeforeSend \/
  (tick_interrupt t = DuringSleep /\ tick_send_ok t = true).
Proof. unfold interrupts. destruct (tick_interrupt t); intros H; auto; discriminate. Qed.

(** X13.  Ctrl+C ends a run in order.  After [n] iterations that
    delivered, a [KeyboardInterrupt] before the next send, or in the
    sleep after it, is caught: "Stopping RTP stream..." is printed once,
    the socket is closed once, the count is printed last and no
    exception leaves [start_streaming].  The count is [n], and [n + 1]
    when the interrupt came in the sleep: the packet sent just before
    is counted and its sequence number used up. *)
Theorem interrupt_stops_in_order np_sin cu v sap_socket_ok sap_send_ok goods t rest g :
  can_generate g = true -> socket_open g = true ->
  forallb delivers goods = true ->
  interrupts t = true ->
  let r := start_streaming np_sin cu v sap_socket_ok sap_send_ok (goods ++ t :: rest) g in
  let n := Z.of_nat (List.length goods) + counted_when_interrupted t in
  run_raised r = None /\
  run_finished r = true /\
  run_count r = n /\
  count_events is_delivery (run_events r) = Z.to_nat n /\
  count_events is_send_error (run_events r) = 0%nat /\
  count_events is_stopping (run_events r) = 1%nat /\
  count_events is_stream_close (run_events r) = 1%nat /\
  last (run_events r) EvSleep = EvPrint (MsgSentCount n) /\
  sequence_number (run_gen r) = sequence_number g + n /\
  running (run_gen r) = false /\
  socket_open (run_gen r) = false.
Proof.
  intros Hg Ho Hd Ht r n.
  destruct (streaming_loop_delivers np_sin cu v goods (t :: rest)
              (set_running true g) 0 Hg Ho eq_refl Hd) as (evs1 & L1 & T1).
  set (m := List.length goods) in *.
  destruct (deliveries_fields v m (set_running true g)) as (Dg & Do & Dr & Ds).
  set (g1 := deliveries v m (set_running true g)) in *.
  assert (Hg1 : can_generate g1 = true) by (rewrite Dg; exact Hg).
  assert (Ho1 : socket_open g1 = true) by (rewrite Do; exact Ho).
  assert (Hr1 : running g1 = true) by (rewrite Dr; reflexivity).
  destruct (interrupts_inv t Ht) as [I | [I Sok]].
  - assert (L2 : streaming_loop np_sin cu v (t :: rest) g1 (0 + Z.of_nat m)
                 = mkLoop Interrupted g1 (0 + Z.of_nat m) []).
    { cbn [streaming_loop]. rewrite Hr1, I. reflexivity. }
    rewrite L2 in L1. unfold more_events in L1.
    cbn [loop_exit_of loop_gen loop_count loop_events] in L1. rewrite app_nil_r in L1.
    destruct (run_of_loop np_sin cu v sap_socket_ok sap_send_ok (goods ++ t :: rest) g
                Interrupted g1 (0 + Z.of_nat m) evs1 m m Hg L1 (or_introl eq_refl))
      as (A & B & C & D & E & F & G).
    { rewrite T1, Nat.sub_diag. reflexivity. }
    fold r in A, B, C, D, E, F, G.
    assert (N : n = Z.of_nat m) by (unfold n, counted_when_interrupted; rewrite I; lia).
    unfold tally in E. injection E as E1 E2 E3 E4.
    rewrite N, Nat2Z.id. rewrite D. cbn [sequence_number running socket_open set_socket_open
                                          set_running].
    rewrite Ds. cbn [sequence_number set_running].
    rewrite Nat.sub_diag in E3. rewrite Z.add_0_l in C, G.
    repeat split; assumption.
  - destruct (send_rtp_packet_delivers np_sin cu v g1 Hg1 Ho1) as (b & a & E & Nb & Na).
    assert (L2 : streaming_loop np_sin cu v (t :: rest) g1 (0 + Z.of_nat m)
                 = mkLoop Interrupted (after_delivery v g1) (0 + Z.of_nat m + 1)
                     ((b ++ [EvSendto StreamSocket (rtp_packet_of np_sin cu v g1)
                                      (target_ip g1) (target_port g1) true] ++ a)
                      ++ [EvSleep])).
    { cbn [streaming_loop]. rewrite Hr1, I, Sok, E. reflexivity. }
    rewrite L2 in L1. unfold more_events in L1.
    cbn [loop_exit_of loop_gen loop_count loop_events] in L1.
    destruct (run_of_loop np_sin cu v sap_socket_ok sap_send_ok (goods ++ t :: rest) g
                Interrupted (after_delivery v g1) (0 + Z.of_nat m + 1) _ (S m) (S m)
                Hg L1 (or_introl eq_refl))
      as (A & B & C & D & E' & F & G).
    { rewrite !tally_app, T1, (tally_asides b (notices_are_asides b Nb)),
        (tally_asides a (notices_are_asides a Na)). cbn.
      rewrite Nat.sub_diag. repeat f_equal; lia. }
    fold r in A, B, C, D, E', F, G.
    assert (N : n = Z.of_nat (S m)) by (unfold n, counted_when_interrupted; rewrite I; lia).
    unfold tally in E'. injection E' as E1 E2 E3 E4.
    rewrite N, Nat2Z.id. rewrite D. cbn [sequence_number running socket_open set_socket_open
                                          set_running after_delivery].
    rewrite Ds. cbn [sequence_number set_running].
    rewrite Nat.sub_diag in E3.
    replace (0 + Z.of_nat m + 1) with (Z.of_nat (S m)) in C, G by lia.
    repeat split; try assumption. lia.
Qed.

Lemma interrupt_stops_in_order_witness :
  let goods := [mkTick NoInterrupt true Early false; mkTick NoInterrupt true OnTime false] in
  let t := mkTick DuringSleep true Early false in
  let r := start_streaming (constant_signal 1) cast_zero RtpSend true true
                           (goods ++ t :: [mkTick NoInterrupt true Early false])
                           default_generator in
  can_generate default_generator = true /\
  socket_open default_generator = true /\
  forallb delivers goods = true /\
  interrupts t = true /\
  run_raised r = None /\
  run_count r = 3 /\
  count_events is_stopping (run_events r) = 1%nat /\
  socket_open (run_gen r) = false.
Proof.
  intros goods t r.
  destruct (interrupt_stops_in_order (constant_signal 1) cast_zero RtpSend true true
              goods t [mkTick NoInterrupt true Early false] default_generator
              eq_refl eq_refl eq_refl eq_refl)
    as (A & _ & C & _ & _ & S & _ & _ & _ & _ & O).
  repeat split; assumption.
Defined.

Lemma expires_inv t :
  expires t = true ->
  tick_interrupt t = NoInterrupt /\ tick_send_ok t = true /\ tick_expired t = true.
Proof.
  unfold expires. destruct (tick_interrupt t); try discriminate.
  rewrite andb_true_iff. tauto.
Qed.

(** X14.  A run with a duration ends with the iteration after which the
    duration has elapsed.  The test comes after the send and the pacing
    step, so that iteration's packet is sent and counted: after [n]
    iterations that went on, the run ends with [n + 1] packets, no error
    and no "Stopping RTP stream...", the socket closed once and the
    count printed last.  A run with a duration thus sends at least one
    packet. *)
Theorem duration_ends_after_the_send np_sin cu v sap_socket_ok sap_send_ok goods t rest g :
  can_generate g = true -> socket_open g = true ->
  forallb delivers goods = true ->
  expires t = true ->
  let r := start_streaming np_sin cu v sap_socket_ok sap_send_ok (goods ++ t :: rest) g in
  let n := S (List.length goods) in
  run_raised r = None /\
  run_finished r = true /\
  run_count r = Z.of_nat n /\
  count_events is_delivery (run_events r) = n /\
  count_events is_send_attempt (run_events r) = n /\
  count_events is_send_error (run_events r) = 0%nat /\
  count_events is_stopping (run_events r) = 0%nat /\
  count_events is_stream_close (run_events r) = 1%nat /\
  last (run_events r) EvSleep = EvPrint (MsgSentCount (Z.of_nat n)) /\
  sequence_number (run_gen r) = sequence_number g + Z.of_nat n /\
  running (run_gen r) = false /\
  socket_open (run_gen r) = false.
Proof.
  intros Hg Ho Hd Ht r n.
  destruct (streaming_loop_delivers np_sin cu v goods (t :: rest)
              (set_running true g) 0 Hg Ho eq_refl Hd) as (evs1 & L1 & T1).
  set (m := List.length goods) in *.
  destruct (deliveries_fields v m (set_running true g)) as (Dg & Do & Dr & Ds).
  set (g1 := deliveries v m (set_running true g)) in *.
  assert (Hg1 : can_generate g1 = true) by (rewrite Dg; exact Hg).
  assert (Ho1 : socket_open g1 = true) by (rewrite Do; exact Ho).
  assert (Hr1 : running g1 = true) by (rewrite Dr; reflexivity).
  destruct (expires_inv t Ht) as (I & Sok & X).
  destruct (send_rtp_packet_delivers np_sin cu v g1 Hg1 Ho1) as (b & a & E & Nb & Na).
  assert (L2 : streaming_loop np_sin cu v (t :: rest) g1 (0 + Z.of_nat m)
               = mkLoop Broke (after_delivery v g1) (0 + Z.of_nat m + 1)
                   ((b ++ [EvSendto StreamSocket (rtp_packet_of np_sin cu v g1)
                                    (target_ip g1) (target_port g1) true] ++ a)
                    ++ pace_events (tick_pace t))).
  { cbn [streaming_loop]. rewrite Hr1, I, Sok, E, X. reflexivity. }
  rewrite L2 in L1. unfold more_events in L1.
  cbn [loop_exit_of loop_gen loop_count loop_events] in L1.
  destruct (run_of_loop np_sin cu v sap_socket_ok sap_send_ok (goods ++ t :: rest) g
              Broke (after_delivery v g1) (0 + Z.of_nat m + 1) _ (S m) (S m)
              Hg L1 (or_intror eq_refl))
    as (A & B & C & D & E' & F & G).
  { rewrite !tally_app, T1, (tally_asides b (notices_are_asides b Nb)),
      (tally_asides a (notices_are_asides a Na)),
      (tally_asides _ (pace_events_asides (tick_pace t))). cbn.
    rewrite Nat.sub_diag. repeat f_equal; lia. }
  fold r in A, B, C, D, E', F, G.
  unfold tally in E'. injection E' as E1 E2 E3 E4.
  rewrite D. cbn [sequence_number running socket_open set_socket_open set_running
                  after_delivery].
  rewrite Ds. cbn [sequence_number set_running].
  rewrite Nat.sub_diag in E3.
  replace (0 + Z.of_nat m + 1) with (Z.of_nat (S m)) in C, G by lia.
  unfold n. repeat split; try assumption. lia.
Qed.

Lemma duration_ends_after_the_send_witness :
  let t := mkTick NoInterrupt true Behind true in
  let r := start_streaming (constant_signal 1) cast_zero RtpSend true true
                           [t; mkTick NoInterrupt true Early false] default_generator in
  can_generate default_generator = true /\
  socket_open default_generator = true /\
  expires t = true /\
  run_count r = 1 /\
  count_events is_delivery (run_events r) = 1%nat /\
  socket_open (run_gen r) = false.
Proof.
  intros t r.
  destruct (duration_ends_after_the_send (constant_signal 1) cast_zero RtpSend true true
              [] t [mkTick NoInterrupt true Early false] default_generator
              eq_refl eq_refl eq_refl eq_refl)
    as (_ & _ & C & D & _ & _ & _ & _ & _ & _ & _ & O).
  repeat split; assumption.
Defined.

(** ** [main] *)

Lemma delivers_without_duration d env :
  duration_given d = false -> forallb accepted env = true ->
  forallb delivers (map (with_duration d) env) = true.
Proof.
  intros Hd. induction env as [|t env IH]; [reflexivity|].
  cbn [forallb map]. rewrite !andb_true_iff. intros [Ht He]. split; [|auto].
  unfold delivers, with_duration, accepted in *.
  cbn [tick_interrupt tick_send_ok tick_expired].
  destruct (tick_interrupt t); try discriminate Ht.
  rewrite Ht, Hd. reflexivity.
Qed.



(** ** The announcement and the stream *)

(** X16.  The announcement cannot stop the stream.  In rtp_send_sap.py
    [start_streaming] announces once, right after the banner and before
    any packet, and whether the announcement socket could be created
    and whether its send succeeded changes nothing of what follows: the
    same events after the announcement's own, the same packets, count,
    object and outcome. *)
Theorem announcement_cannot_stop_the_stream np_sin cu env g :
  (exists rest,
     forall sap_socket_ok sap_send_ok,
       exists sap,
         send_sap_announcement sap_socket_ok sap_send_ok g = Ret sap /\
         run_events (start_streaming np_sin cu RtpSendSap sap_socket_ok sap_send_ok env g)
         = EvPrint MsgBanner :: sap ++ rest /\
         stream_datagrams sap = []) /\
  (forall s1 s2,
     let r := start_streaming np_sin cu RtpSendSap s1 s2 env g in
     let r0 := start_streaming np_sin cu RtpSendSap true true env g in
     stream_datagrams (run_events r) = stream_datagrams (run_events r0) /\
     run_gen r = run_gen r0 /\ run_count r = run_count r0 /\
     run_raised r = run_raised r0 /\ run_finished r = run_finished r0).
Proof.
  split.
  - unfold start_streaming.
    destruct (py_truediv (buffer_size (set_running true g)) (sample_rate (set_running true g)))
      as [d|e].
    + destruct (loop_exit_of (streaming_loop np_sin cu RtpSendSap env (set_running true g) 0));
        eexists; intros s1 s2; destruct s1, s2; eexists;
        (split; [reflexivity|]); (split; [|reflexivity]);
        cbn [send_sap_announcement struct_pack_BBH pack_uint bind run_events app];
        reflexivity.
    + exists []. intros s1 s2; destruct s1, s2; eexists;
        (split; [reflexivity|]); split; reflexivity.
  - intros s1 s2 r r0. unfold r, r0, start_streaming.
    destruct (py_truediv (buffer_size (set_running true g)) (sample_rate (set_running true g)))
      as [d|e].
    + destruct (loop_exit_of (streaming_loop np_sin cu RtpSendSap env (set_running true g) 0));
        destruct s1, s2; repeat split.
    + destruct s1, s2; repeat split.
Qed.

(** ** Using an object again *)

Lemma loop_gen_can_generate np_sin cu v env g c :
  can_generate g = true ->
  can_generate (loop_gen (streaming_loop np_sin cu v env g c)) = true.
Proof.
  intros Hg.
  destruct (streaming_loop_account np_sin cu v env g c Hg)
    as (n & a & _ & _ & _ & G & _).
  destruct (deliveries_fields v n g) as (Dg & _).
  rewrite G. destruct (a =? n)%nat; [|rewrite can_generate_set_phase]; rewrite Dg; exact Hg.
Qed.



(** ** The times at which the sine is taken *)

Lemma val_2 : float_val 2 = 2%R.
Proof. exact (F2R_const 2 51 ltac:(lia)). Qed.

Lemma finite_2 : float_finite 2.
Proof. reflexivity. Qed.

(** The sum of a phase and of a time within the block, both in [0, 1]. *)
Lemma sample_time_in_two d p :
  in_unit d = true -> in_unit p = true -> in_two (d + p)%float = true.
Proof.
  intros Hd Hp. apply in_unit_val in Hd. apply in_unit_val in Hp.
  destruct Hd as [Fd Vd]. destruct Hp as [Fp Vp].
  destruct (add_bound d p 4503599627370496 (-51) Fd Fp eq_refl) as [Fs (_ & As & Ps & _)].
  { rewrite bound_two. rewrite Rabs_pos_eq; lra. }
  rewrite bound_two in As. fold (float_val (d + p)) in As, Ps.
  assert (Ps' : (0 <= float_val (d + p))%R) by (apply Ps; lra).
  rewrite Rabs_pos_eq in As by exact Ps'.
  unfold in_two. apply andb_true_iff.
  split; apply leb_val; auto using finite_2 with floats; rewrite ?val_0, ?val_2; lra.
Qed.

Lemma np_arange_range n i : In i (np_arange n) -> 0 <= i < n.
Proof.
  unfold np_arange. rewrite in_map_iff. intros (k & <- & Hk).
  apply in_seq in Hk. lia.
Qed.

Lemma sample_times_in_two g :
  0 <= buffer_size g <= sample_rate g -> 0 < sample_rate g < 2 ^ 53 ->
  in_unit (phase g) = true ->
  Forall (fun t => in_two t = true) (sample_times g).
Proof.
  intros Hb Hr Hp. unfold sample_times. apply Forall_map, Forall_forall.
  intros i Hi. apply np_arange_range in Hi.
  apply sample_time_in_two; [|exact Hp].
  apply truediv_in_unit; lia.
Qed.

(** X18.  The times handed to the sine stay small for ever.  With
    blocks of at most one second, every sample time
    [i / sample_rate + phase] of every block of a run, however long, is
    a finite number between 0 and 2: the wraparound of the phase keeps
    the argument of the sine from growing with the length of the run. *)
Theorem sample_times_stay_small np_sin cu n g :
  0 <= buffer_size g <= sample_rate g ->
  0 < sample_rate g < 2 ^ 53 ->
  in_unit (phase g) = true ->
  exists payloads g',
    generate_blocks np_sin cu n g = Ret (payloads, g') /\
    List.length (sample_times g') = Z.to_nat (buffer_size g) /\
    Forall (fun t => in_two t = true) (sample_times g').
Proof.
  intros Hb Hr Hp.
  destruct (block_within_second_of_sizes g Hb Hr) as [Hg Hd].
  assert (K : forall m g0,
             can_generate g0 = true -> block_within_second g0 = true ->
             in_unit (phase g0) = true ->
             exists payloads g',
               generate_blocks np_sin cu m g0 = Ret (payloads, g') /\
               in_unit (phase g') = true /\
               buffer_size g' = buffer_size g0 /\ sample_rate g' = sample_rate g0).
  { induction m as [|m IH]; intros g0 Hg0 Hd0 Hp0.
    - exists [], g0. repeat split; assumption.
    - cbn [generate_blocks]. rewrite (generate_audio_buffer_ok np_sin cu g0 Hg0).
      cbn [bind].
      destruct (IH (set_phase (next_phase g0) g0) Hg0 Hd0 (next_phase_in_unit g0 Hd0 Hp0))
        as (payloads & g' & E & P & B & R).
      rewrite E. cbn [bind]. eexists _, g'. split; [reflexivity|].
      split; [exact P|]. split; assumption. }
  destruct (K n g Hg Hd Hp) as (payloads & g' & E & P & B & R).
  exists payloads, g'. split; [exact E|].
  split.
  - unfold sample_times. rewrite length_map, np_arange_length, B. reflexivity.
  - apply sample_times_in_two; [rewrite B, R; exact Hb | rewrite R; exact Hr | exact P].
Qed.

Lemma sample_times_stay_small_witness :
  0 <= buffer_size default_generator <= sample_rate default_generator /\
  0 < sample_rate default_generator < 2 ^ 53 /\
  in_unit (phase default_generator) = true /\
  exists payloads g',
    generate_blocks (constant_signal 1) cast_zero 1000 default_generator
    = Ret (payloads, g') /\
    Forall (fun t => in_two t = true) (sample_times g').
Proof.
  assert (Hb : 0 <= buffer_size default_generator <= sample_rate default_generator)
    by (simpl; lia).
  assert (Hr : 0 < sample_rate default_generator < 2 ^ 53) by (simpl; lia).
  split; [exact Hb|]. split; [exact Hr|]. split; [reflexivity|].
  destruct (sample_times_stay_small (constant_signal 1) cast_zero 1000
              default_generator Hb Hr eq_refl)
    as (payloads & g' & E & _ & F).
  exists payloads, g'. split; [exact E|exact F].
Defined.
